(** * oci-fdk-node-ts: the invocation adapter of [fdk.ts]

    A shallow embedding of the protocol adapter: header canonicalization and
    decoding, input accumulation, the invocation context and its gateway
    view, the result encoder, and the middleware shim.

    Conventions of the embedding.
    - A JavaScript string is a [string] of 8-bit characters; [toUpperCase]
      and [toLowerCase] act on the ASCII letters, which is what they do on
      HTTP header names (tokens are ASCII).
    - A JavaScript object used as a dictionary ([FnHeaders], the headers of
      the transport response) is a [gmap] keyed by strings; enumeration
      order is not observed by any property below.
    - Code that can throw returns a [completion]; code that mutates the
      context or the transport response passes the state explicitly. *)

From Stdlib Require Import ZArith List String Ascii Bool Lia.
From Stdlib Require Import DecimalString.
From Stdlib Require DecimalPos.
From stdpp Require Import base gmap strings.
Import ListNotations.
Open Scope string_scope.
Open Scope list_scope.

(** ** Strings *)

Module Str.

Definition is_lower (c : ascii) : bool :=
  (97 <=? nat_of_ascii c)%nat && (nat_of_ascii c <=? 122)%nat.

Definition is_upper (c : ascii) : bool :=
  (65 <=? nat_of_ascii c)%nat && (nat_of_ascii c <=? 90)%nat.

Definition upper_char (c : ascii) : ascii :=
  if is_lower c then ascii_of_nat (nat_of_ascii c - 32) else c.

Definition lower_char (c : ascii) : ascii :=
  if is_upper c then ascii_of_nat (nat_of_ascii c + 32) else c.

Fixpoint map (f : ascii -> ascii) (s : string) : string :=
  match s with
  | EmptyString => EmptyString
  | String c r => String (f c) (map f r)
  end.

(** [s.toUpperCase()], [s.toLowerCase()] *)
Definition toUpperCase : string -> string := map upper_char.
Definition toLowerCase : string -> string := map lower_char.

(** [s.replace(/_/g, '-')] *)
Definition replace_underscores : string -> string :=
  map (fun c => if Ascii.eqb c "_" then "-"%char else c).

(** [s.split(sep)] for a one-character separator: never the empty list,
      [''.split('-')] is [['']]. *)
Fixpoint split (sep : ascii) (s : string) : list string :=
  match s with
  | EmptyString => [EmptyString]
  | String c r =>
        if Ascii.eqb c sep then EmptyString :: split sep r
        else match split sep r with
             | p :: ps => String c p :: ps
             | [] => [String c EmptyString]
             end
  end.

(** [parts.join(sep)] *)
Fixpoint join (sep : string) (parts : list string) : string :=
  match parts with
  | [] => EmptyString
  | [p] => p
  | p :: ps => p +:+ sep +:+ join sep ps
  end.

(** [s.startsWith(p)], [s.includes(p)] *)
Definition startsWith (p s : string) : bool := String.prefix p s.

Fixpoint includes (p s : string) : bool :=
  String.prefix p s ||
  match s with
  | EmptyString => false
  | String _ r => includes p r
  end.

(** [s[0]] on a string: the one-character string, [undefined] on ['']. *)
Definition first_char (s : string) : option string :=
  match s with
  | EmptyString => None
  | String c _ => Some (String c EmptyString)
  end.

Definition nonempty (s : string) : bool :=
  match s with EmptyString => false | _ => true end.

End Str.

(** ** Header Codec: [canonHeader] *)

(** The arrow function given to [map] in [canonHeader]. *)
Definition capitalize (part : string) : string :=
  match part with
  | EmptyString => EmptyString
  | String c rest => String (Str.upper_char c) (Str.toLowerCase rest)
  end.

(** [h.replace(/_/g, '-').split('-')] *)
Definition segments (h : string) : list string :=
  Str.split "-" (Str.replace_underscores h).

(** The same function is written three times in the source, as a method of
    [HTTPGatewayContext], as a method of [Context] and at top level. *)
Definition canonHeader (h : string) : string :=
  Str.join "-" (List.map capitalize (segments h)).

(** The reference definition in the words of the specification: as
    [canonHeader], but empty segments vanish before the segments are
    rejoined. *)
Definition canonicalize_spec (h : string) : string :=
  Str.join "-" (List.map capitalize (List.filter Str.nonempty (segments h))).

(** One pass over the characters: what [canonHeader] computes, with the
    flag telling whether the next character starts a segment. *)
Definition is_sep (c : ascii) : bool := Ascii.eqb c "_" || Ascii.eqb c "-".

(** The segments with the first one in lower case: a name read from the
    middle of a segment. *)
Definition lower_first (parts : list string) : list string :=
  match parts with
  | [] => []
  | p :: ps => Str.toLowerCase p :: List.map capitalize ps
  end.

Fixpoint canon_scan (start : bool) (s : string) : string :=
  match s with
  | EmptyString => EmptyString
  | String c r =>
      if is_sep c then String "-" (canon_scan true r)
      else String (if start then Str.upper_char c else Str.lower_char c)
                  (canon_scan false r)
  end.

(** ** Header Codec: [processHeaders] *)

(** [FnHeaders]: canonical name to the values in arrival order. *)
Abbreviation FnHeaders := (gmap string (list string)).

Definition skipHeaders : gmap string bool :=
  <["TE" := true]> (<["Connection" := true]> (<["Keep-Alive" := true]>
  (<["Transfer-Encoding" := true]> (<["Trailer" := true]>
  (<["Upgrade" := true]> ∅))))).

(** The test [skipHeaders[key]] of [processHeaders]. *)
Definition skipped (key : string) : bool :=
  match skipHeaders !! key with
  | Some b => b
  | None => false
  end.

(** One round of the loop of [processHeaders]. [req.rawHeaders] is the flat
    list name, value, name, value, ... that the loop reads two by two: it is
    taken here as the list of its pairs. *)
Definition processHeaders_step (headers : FnHeaders) (raw : string * string)
  : FnHeaders :=
  let key := canonHeader (fst raw) in
  if skipped key then headers
  else
    let value := snd raw in
    match headers !! key with
    | None => <[key := [value]]> headers
    | Some values => <[key := values ++ [value]]> headers
    end.

Definition processHeaders (rawHeaders : list (string * string)) : FnHeaders :=
  fold_left processHeaders_step rawHeaders ∅.

(** The values that arrived under a name whose canonical form is [key], in
    arrival order. *)
Definition arrived (key : string) (rawHeaders : list (string * string))
  : list string :=
  List.map snd
    (List.filter (fun raw => String.eqb (canonHeader (fst raw)) key) rawHeaders).

(** The values under a key after more values have arrived for it. *)
Definition extend (old : option (list string)) (more : list string)
  : option (list string) :=
  match more with
  | [] => old
  | _ :: _ => Some (match old with Some vs => vs ++ more | None => more end)
  end.

(** ** JavaScript objects as property lists

    [obj[key] = x] and [obj[key]] on the list of the properties of an object,
    in creation order: an existing property keeps its place. *)

Fixpoint set_field {V : Type} (key : string) (x : V) (fields : list (string * V))
  : list (string * V) :=
  match fields with
  | [] => [(key, x)]
  | (k, y) :: rest =>
      if String.eqb k key then (k, x) :: rest
      else (k, y) :: set_field key x rest
  end.

Fixpoint get_field {V : Type} (key : string) (fields : list (string * V))
  : option V :=
  match fields with
  | [] => None
  | (k, y) :: rest => if String.eqb k key then Some y else get_field key rest
  end.

(** ** JSON values, [JSON.stringify] and [JSON.parse]

    The values that JSON texts denote. Numbers are the integers, which a
    JavaScript number holds exactly up to 2^53 - 1; a property list keeps the
    order in which the properties were created, which is the order of the
    object when no key is written as a natural number. *)

#[warnings="-register-all"]
Inductive value : Type :=
| JNull
| JBool (b : bool)
| JNumber (n : Z)
| JString (s : string)
| JArray (items : list value)
| JObject (fields : list (string * value)).

Module Json.

(** The double quote, and JSON texts written with single quotes in its
    place: [dq "{'x':1}"] is the text [{"x":1}]. *)
Definition dquote : ascii := ascii_of_nat 34.

Definition dq : string -> string :=
  Str.map (fun c => if Ascii.eqb c "'" then dquote else c).

Definition hex_digit (n : nat) : ascii :=
  if (n <? 10)%nat then ascii_of_nat (48 + n) else ascii_of_nat (87 + n).

(** The escape of one character inside a quoted JSON string. *)
Definition escape_char (c : ascii) : string :=
  let n := nat_of_ascii c in
  if Ascii.eqb c dquote then String "\" (String dquote EmptyString)
  else if Ascii.eqb c "\" then "\\"
  else if (n =? 8)%nat then "\b"
  else if (n =? 9)%nat then "\t"
  else if (n =? 10)%nat then "\n"
  else if (n =? 12)%nat then "\f"
  else if (n =? 13)%nat then "\r"
  else if (n <? 32)%nat then
    "\u00" +:+ String (hex_digit (n / 16)) (String (hex_digit (n mod 16)) EmptyString)
  else String c EmptyString.

Fixpoint escape (s : string) : string :=
  match s with
  | EmptyString => EmptyString
  | String c r => escape_char c +:+ escape r
  end.

Definition quote (s : string) : string :=
  String dquote (escape s) +:+ String dquote EmptyString.

(** [n.toString()] for an integer: all its digits, as JavaScript prints
    them below 10^21. *)
Definition Z_toString (n : Z) : string :=
  NilZero.string_of_int (Z.to_int n).

(** [JSON.stringify(v)] *)
Fixpoint stringify (v : value) : string :=
  match v with
  | JNull => "null"
  | JBool true => "true"
  | JBool false => "false"
  | JNumber n => Z_toString n
  | JString s => quote s
  | JArray items => "[" +:+ Str.join "," (List.map stringify items) +:+ "]"
  | JObject fields =>
      "{" +:+
      Str.join ","
        (List.map (fun kv => let '(k, x) := kv in quote k +:+ ":" +:+ stringify x)
                  fields)
      +:+ "}"
  end.

(** *** [JSON.parse]

    A recursive-descent reader of JSON texts: [None] where [JSON.parse]
    throws a [SyntaxError]. It reads the texts whose numbers are integer
    literals and whose [\u] escapes denote 8-bit characters; a fraction,
    an exponent or a wider escape is outside the values modelled here and is
    not read. *)

Definition is_ws (c : ascii) : bool :=
  let n := nat_of_ascii c in
  (n =? 32)%nat || (n =? 9)%nat || (n =? 10)%nat || (n =? 13)%nat.

Fixpoint skip_ws (s : string) : string :=
  match s with
  | String c r => if is_ws c then skip_ws r else s
  | EmptyString => s
  end.

Definition is_digit (c : ascii) : bool :=
  (48 <=? nat_of_ascii c)%nat && (nat_of_ascii c <=? 57)%nat.

Definition digit_val (c : ascii) : Z := Z.of_nat (nat_of_ascii c - 48).

(** The digits at the head of [s], read after the digits of value [acc]. *)
Fixpoint read_digits (acc : Z) (s : string) : Z * string :=
  match s with
  | String c r =>
      if is_digit c then read_digits (10 * acc + digit_val c) r else (acc, s)
  | EmptyString => (acc, s)
  end.

Definition starts_fraction (s : string) : bool :=
  match s with
  | String c _ => Ascii.eqb c "." || Ascii.eqb c "e" || Ascii.eqb c "E"
  | EmptyString => false
  end.

(** An integer literal without sign: [0], or a non-zero digit and digits. *)
Definition read_natural (s : string) : option (Z * string) :=
  match s with
  | String c r =>
      if Ascii.eqb c "0" then
        match r with
        | String d _ => if is_digit d then None else Some (0%Z, r)
        | EmptyString => Some (0%Z, r)
        end
      else if is_digit c then Some (read_digits (digit_val c) r)
      else None
  | EmptyString => None
  end.

Definition read_number (s : string) : option (Z * string) :=
  let signed :=
    match s with
    | String c r =>
        if Ascii.eqb c "-" then
          match read_natural r with
          | Some (n, r') => Some ((- n)%Z, r')
          | None => None
          end
        else read_natural s
    | EmptyString => None
    end in
  match signed with
  | Some (n, r) => if starts_fraction r then None else Some (n, r)
  | None => None
  end.

Definition hex_val (c : ascii) : option nat :=
  let n := nat_of_ascii c in
  if is_digit c then Some (n - 48)
  else if (97 <=? n)%nat && (n <=? 102)%nat then Some (n - 87)
  else if (65 <=? n)%nat && (n <=? 70)%nat then Some (n - 55)
  else None.

(** The character denoted by the four hexadecimal digits of a [\u] escape. *)
Definition read_unicode (a b c d : ascii) : option ascii :=
  match hex_val a, hex_val b, hex_val c, hex_val d with
  | Some 0, Some 0, Some h, Some l => Some (ascii_of_nat (16 * h + l))
  | _, _, _, _ => None
  end.

Definition read_escape (c : ascii) : option ascii :=
  if Ascii.eqb c dquote then Some dquote
  else if Ascii.eqb c "\" then Some "\"%char
  else if Ascii.eqb c "/" then Some "/"%char
  else if Ascii.eqb c "b" then Some (ascii_of_nat 8)
  else if Ascii.eqb c "f" then Some (ascii_of_nat 12)
  else if Ascii.eqb c "n" then Some (ascii_of_nat 10)
  else if Ascii.eqb c "r" then Some (ascii_of_nat 13)
  else if Ascii.eqb c "t" then Some (ascii_of_nat 9)
  else None.

Definition cons_char (c : ascii) (r : option (string * string))
  : option (string * string) :=
  match r with
  | Some (str, rest) => Some (String c str, rest)
  | None => None
  end.

(** The characters of a string literal after its opening quote, up to and
    including the closing quote. *)
Fixpoint read_string (s : string) : option (string * string) :=
  match s with
  | EmptyString => None
  | String c r =>
      if Ascii.eqb c dquote then Some (EmptyString, r)
      else if Ascii.eqb c "\" then
        match r with
        | String e r1 =>
            if Ascii.eqb e "u" then
              match r1 with
              | String h1 (String h2 (String h3 (String h4 r2))) =>
                  match read_unicode h1 h2 h3 h4 with
                  | Some x => cons_char x (read_string r2)
                  | None => None
                  end
              | _ => None
              end
            else
              match read_escape e with
              | Some x => cons_char x (read_string r1)
              | None => None
              end
        | EmptyString => None
        end
      else if (nat_of_ascii c <? 32)%nat then None
      else cons_char c (read_string r)
  end.

Definition expect (word : string) (v : value) (s : string)
  : option (value * string) :=
  if String.prefix word s
  then Some (v, String.substring (String.length word)
                                 (String.length s - String.length word) s)
  else None.

Fixpoint read_value (fuel : nat) (s : string) {struct fuel}
  : option (value * string) :=
  match fuel with
  | O => None
  | S fuel' =>
      match skip_ws s with
      | EmptyString => None
      | String c r =>
          if Ascii.eqb c "[" then
            match skip_ws r with
            | String c' r' =>
                if Ascii.eqb c' "]" then Some (JArray [], r')
                else read_elements fuel' [] r
            | EmptyString => None
            end
          else if Ascii.eqb c "{" then
            match skip_ws r with
            | String c' r' =>
                if Ascii.eqb c' "}" then Some (JObject [], r')
                else read_members fuel' [] r
            | EmptyString => None
            end
          else if Ascii.eqb c dquote then
            match read_string r with
            | Some (str, rest) => Some (JString str, rest)
            | None => None
            end
          else if Ascii.eqb c "t" then expect "true" (JBool true) (String c r)
          else if Ascii.eqb c "f" then expect "false" (JBool false) (String c r)
          else if Ascii.eqb c "n" then expect "null" JNull (String c r)
          else
            match read_number (String c r) with
            | Some (n, rest) => Some (JNumber n, rest)
            | None => None
            end
      end
  end

with read_elements (fuel : nat) (acc : list value) (s : string) {struct fuel}
  : option (value * string) :=
  match fuel with
  | O => None
  | S fuel' =>
      match read_value fuel' s with
      | Some (x, rest) =>
          match skip_ws rest with
          | String c r =>
              if Ascii.eqb c "," then read_elements fuel' (acc ++ [x]) r
              else if Ascii.eqb c "]" then Some (JArray (acc ++ [x]), r)
              else None
          | EmptyString => None
          end
      | None => None
      end
  end

with read_members (fuel : nat) (acc : list (string * value)) (s : string)
  {struct fuel} : option (value * string) :=
  match fuel with
  | O => None
  | S fuel' =>
      match skip_ws s with
      | String q r =>
          if Ascii.eqb q dquote then
            match read_string r with
            | Some (key, rest) =>
                match skip_ws rest with
                | String c r1 =>
                    if Ascii.eqb c ":" then
                      match read_value fuel' r1 with
                      | Some (x, rest') =>
                          match skip_ws rest' with
                          | String c' r2 =>
                              if Ascii.eqb c' ","
                              then read_members fuel' (set_field key x acc) r2
                              else if Ascii.eqb c' "}"
                              then Some (JObject (set_field key x acc), r2)
                              else None
                          | EmptyString => None
                          end
                      | None => None
                      end
                    else None
                | EmptyString => None
                end
            | None => None
            end
          else None
      | EmptyString => None
      end
  end.

(** [JSON.parse(text)]: one value and nothing but white space after it.
    Every nested call consumes a character, so twice the length of the text
    is fuel enough. *)
Definition parse (text : string) : option value :=
  match read_value (2 * String.length text + 2) text with
  | Some (v, rest) =>
      match skip_ws rest with
      | EmptyString => Some v
      | String _ _ => None
      end
  | None => None
  end.

End Json.

(** ** Completions and state

    A statement sequence that may throw, run on a state [S]: the state after
    it (the updates made before a throw remain), and its completion. An
    error value is kept as the text that [toString()] gives for it. *)

Inductive completion (A : Type) : Type :=
| Normal (a : A)
| Throw (e : string).
Arguments Normal {A} a.
Arguments Throw {A} e.

Definition M (S A : Type) : Type := S -> completion A * S.

Definition ret {S A : Type} (a : A) : M S A := fun s => (Normal a, s).

Definition throw {S A : Type} (e : string) : M S A := fun s => (Throw e, s).

Definition bind {S A B : Type} (m : M S A) (k : A -> M S B) : M S B :=
  fun s =>
    match m s with
    | (Normal a, s') => k a s'
    | (Throw e, s') => (Throw e, s')
    end.

(** [try { m } catch (e) { h e }] *)
Definition try_catch {S A : Type} (m : M S A) (h : string -> M S A) : M S A :=
  fun s =>
    match m s with
    | (Normal a, s') => (Normal a, s')
    | (Throw e, s') => h e s'
    end.

Definition get {S : Type} : M S S := fun s => (Normal s, s).

Definition modify {S : Type} (f : S -> S) : M S unit := fun s => (Normal tt, f s).

(** A statement sequence on a part of the state, run on the whole. *)
Definition zoom {S T A : Type} (proj : S -> T) (upd : T -> S -> S) (m : M T A)
  : M S A :=
  fun s => let '(c, t) := m (proj s) in (c, upd t s).

Declare Scope fdk_scope.
Delimit Scope fdk_scope with fdk.
Notation "x <- m ;; k" := (bind m (fun x => k))
  (at level 100, m at level 99, k at level 200, only parsing) : fdk_scope.
Notation "m ;; k" := (bind m (fun _ => k))
  (at level 100, k at level 200, only parsing) : fdk_scope.
Open Scope fdk_scope.

(** [for (const x of xs) body(x)] *)
Fixpoint for_each {S A : Type} (xs : list A) (body : A -> M S unit) : M S unit :=
  match xs with
  | [] => ret tt
  | x :: rest => body x ;; for_each rest body
  end.

(** ** The outer transport response ([http.ServerResponse])

    The part of Node's response object that the adapter drives. Headers are
    kept by lower-cased name, with the name as it was last set; once the
    status line is committed ([writeHead], or a first [write] or [end]) the
    header methods throw; [write] after [end] is dropped; every call of
    [end] is counted. Header names and values are taken to be well formed:
    the validation that Node applies to them is not part of the model. *)

Inductive header_value : Type :=
| HString (s : string)
| HList (values : list string).

Record ServerResponse : Type := {
  resp_headers : gmap string (string * header_value);
  resp_statusCode : Z;
  resp_statusMessage : string;
  resp_headersSent : bool;
  resp_body : list string;
  resp_ends : nat
}.

Definition new_ServerResponse : ServerResponse :=
  {| resp_headers := ∅; resp_statusCode := 200; resp_statusMessage := "";
     resp_headersSent := false; resp_body := []; resp_ends := 0 |}.

Module Resp.

Definition headers_sent_error (what : string) : string :=
  "Error [ERR_HTTP_HEADERS_SENT]: Cannot " +:+ what +:+
  " headers after they are sent to the client".

Definition finished (r : ServerResponse) : bool := (0 <? resp_ends r)%nat.

Definition set_headers (hs : gmap string (string * header_value))
  (r : ServerResponse) : ServerResponse :=
  {| resp_headers := hs;
     resp_statusCode := resp_statusCode r;
     resp_statusMessage := resp_statusMessage r;
     resp_headersSent := resp_headersSent r;
     resp_body := resp_body r;
     resp_ends := resp_ends r |}.

Definition setHeader (name : string) (v : header_value) : M ServerResponse unit :=
  fun r =>
    if resp_headersSent r then (Throw (headers_sent_error "set"), r)
    else (Normal tt,
          set_headers (<[Str.toLowerCase name := (name, v)]> (resp_headers r)) r).

Definition removeHeader (name : string) : M ServerResponse unit :=
  fun r =>
    if resp_headersSent r then (Throw (headers_sent_error "remove"), r)
    else (Normal tt,
          set_headers (delete (Str.toLowerCase name) (resp_headers r)) r).

Definition writeHead (code : Z) (message : string) : M ServerResponse unit :=
  fun r =>
    if resp_headersSent r then (Throw (headers_sent_error "write"), r)
    else (Normal tt,
          {| resp_headers := resp_headers r;
             resp_statusCode := code;
             resp_statusMessage := message;
             resp_headersSent := true;
             resp_body := resp_body r;
             resp_ends := resp_ends r |}).

Definition write (chunk : string) : M ServerResponse unit :=
  fun r =>
    (Normal tt,
     if finished r then r
     else {| resp_headers := resp_headers r;
             resp_statusCode := resp_statusCode r;
             resp_statusMessage := resp_statusMessage r;
             resp_headersSent := true;
             resp_body := resp_body r ++ [chunk];
             resp_ends := resp_ends r |}).

Definition end_ (chunk : option string) : M ServerResponse unit :=
  fun r =>
    (Normal tt,
     {| resp_headers := resp_headers r;
        resp_statusCode := resp_statusCode r;
        resp_statusMessage := resp_statusMessage r;
        resp_headersSent := true;
        resp_body :=
          (if finished r then resp_body r
           else match chunk with
                | Some data => resp_body r ++ [data]
                | None => resp_body r
                end);
        resp_ends := S (resp_ends r) |}).

(** The header sent under [name], whatever the case of the name. *)
Definition header (name : string) (r : ServerResponse) : option header_value :=
  snd <$> resp_headers r !! Str.toLowerCase name.

End Resp.

(** ** Runtime constants

    [process.version] and the version of [package.json], from which the two
    identification headers are made, and the path that Node's [url] module
    finds in a URL. *)

Class Runtime : Type := {
  process_version : string;
  package_version : string;
  (** [url.parse(u, true).pathname], [null] as [None] *)
  url_pathname : string -> option string
}.

Definition fnFunctionExceptionMessage : string :=
  "Exception in function, consult logs for details".
Definition fnFunctionBadRequestErrorMessage : string := "Bad request".

Definition runtimeVersion `{RT : Runtime} : string := process_version.

Definition fdkVersion `{RT : Runtime} : string :=
  "fdk-node/" +:+ package_version +:+ " (njsv=" +:+ runtimeVersion +:+ ")".

Definition runtimeTag `{RT : Runtime} : string :=
  "node/" +:+ String.substring 1 (String.length runtimeVersion - 1) runtimeVersion.

(** ** Input Accumulator *)

(** What [getBody] returns: a [Buffer], or a value (a string among them). *)
Inductive Body : Type :=
| BodyBuffer (bytes : string)
| BodyValue (v : value).

Inductive InputMode : Type := mode_buffer | mode_string | mode_json.

(** The three classes with their private field. In the string and json
    modes a chunk is kept as the text that [toString()] gives for it, each
    chunk decoded by itself: a chunk of 7-bit bytes is its own text. *)
Inductive InputHandler : Type :=
| BufferInputHandler (buffers : list string)
| JSONInputHandler (str : string)
| StringInputHandler (str : string).

Definition getInputHandler (inputMode : InputMode) : InputHandler :=
  match inputMode with
  | mode_buffer => BufferInputHandler []
  | mode_string => StringInputHandler ""
  | mode_json => JSONInputHandler ""
  end.

Definition pushData (h : InputHandler) (data : string) : InputHandler :=
  match h with
  | BufferInputHandler buffers => BufferInputHandler (buffers ++ [data])
  | JSONInputHandler str => JSONInputHandler (str +:+ data)
  | StringInputHandler str => StringInputHandler (str +:+ data)
  end.

Definition getBody (h : InputHandler) : Body :=
  match h with
  | BufferInputHandler buffers => BodyBuffer (String.concat "" buffers)
  | JSONInputHandler str =>
      match Json.parse str with
      | Some v => BodyValue v
      | None => BodyValue (JString str)
      end
  | StringInputHandler str => BodyValue (JString str)
  end.

(** The handler after the [data] events of a request. *)
Definition accumulate (h : InputHandler) (chunks : list string) : InputHandler :=
  fold_left pushData chunks h.

(** ** Invocation Context *)

Record Context : Type := {
  config : gmap string string;
  body : Body;
  headers : FnHeaders;
  responseHeaders : FnHeaders;
  responseContentType : option string
}.

(** [new Context(config, body, headers)] *)
Definition new_Context (config : gmap string string) (body : Body)
  (headers : FnHeaders) : Context :=
  {| config := config; body := body; headers := headers;
     responseHeaders := ∅; responseContentType := None |}.

Definition set_responseHeaders (hs : FnHeaders) (ctx : Context) : Context :=
  {| config := config ctx; body := body ctx; headers := headers ctx;
     responseHeaders := hs; responseContentType := responseContentType ctx |}.

Definition set_responseContentType (ct : option string) (ctx : Context)
  : Context :=
  {| config := config ctx; body := body ctx; headers := headers ctx;
     responseHeaders := responseHeaders ctx; responseContentType := ct |}.

Module Ctx.

Definition getAllHeaderValues (ctx : Context) (key : string) : list string :=
  match headers ctx !! canonHeader key with
  | Some v => v
  | None => []
  end.

(** [h ? h[0] : null] *)
Definition getHeader (ctx : Context) (key : string) : option string :=
  match headers ctx !! canonHeader key with
  | Some h => List.head h
  | None => None
  end.

Definition getResponseHeader (ctx : Context) (key : string) : option string :=
  match responseHeaders ctx !! canonHeader key with
  | Some h => List.head h
  | None => None
  end.

Definition setResponseHeader (key : string) (values : list string)
  (ctx : Context) : Context :=
  set_responseHeaders (<[canonHeader key := values]> (responseHeaders ctx)) ctx.

Definition addResponseHeader (key : string) (values : list string)
  (ctx : Context) : Context :=
  let ckey := canonHeader key in
  match responseHeaders ctx !! ckey with
  | None => set_responseHeaders (<[ckey := [] ++ values]> (responseHeaders ctx)) ctx
  | Some old => set_responseHeaders (<[ckey := old ++ values]> (responseHeaders ctx)) ctx
  end.

End Ctx.

(** ** Gateway View ([HTTPGatewayContext]) *)

Module Gateway.

Definition prefix : string := "Fn-Http-H-".

(** [x || ''] on an optional string *)
Definition or_empty (x : option string) : string :=
  match x with Some s => s | None => "" end.

Definition requestURL (ctx : Context) : string :=
  or_empty (Ctx.getHeader ctx "Fn-Http-Request-Url").

Definition method (ctx : Context) : string :=
  or_empty (Ctx.getHeader ctx "Fn-Http-Method").

(** The getter [headers]: the entries whose key starts with the prefix and
    is longer than it, under the rest of the key. *)
Definition headers (ctx : Context) : FnHeaders :=
  map_fold
    (fun key values acc =>
       if String.prefix prefix key
          && (String.length prefix <? String.length key)%nat
       then <[String.substring (String.length prefix)
                (String.length key - String.length prefix) key := values]> acc
       else acc)
    ∅ (headers ctx).

Definition getHeader (ctx : Context) (key : string) : option string :=
  Ctx.getHeader ctx (prefix +:+ key).

Definition getAllHeaderValues (ctx : Context) (key : string) : list string :=
  Ctx.getAllHeaderValues ctx (prefix +:+ key).

(** The setter [statusCode] *)
Definition set_statusCode (status : Z) (ctx : Context) : Context :=
  Ctx.setResponseHeader "Fn-Http-Status" [Json.Z_toString status] ctx.

(** [values[0]] is [undefined] when no value is given. *)
Definition setResponseHeader (key : string) (values : list string)
  (ctx : Context) : Context :=
  if String.eqb (canonHeader key) "Content-Type"
  then set_responseContentType (List.head values) ctx
  else Ctx.setResponseHeader (prefix +:+ key) values ctx.

Definition addResponseHeader (key : string) (values : list string)
  (ctx : Context) : Context :=
  Ctx.addResponseHeader (prefix +:+ key) values ctx.

End Gateway.

(** ** Result values

    What user code can hand to the Result Encoder: nothing ([undefined]; the
    value [null] is [RValue JNull]), a value (a string among them), a
    [Buffer], a [RawResult] wrapper, or a value that [JSON.stringify]
    refuses, such as a [BigInt]. The [StreamResult] wrapper, whose writer
    pipes a stream asynchronously, is not part of this model. *)

Inductive Result : Type :=
| RUndefined
| RValue (v : value)
| RBuffer (bytes : string)
| RRaw (data : string)
| RBigInt (n : Z).

(** [result != null] *)
Definition not_null (result : Result) : bool :=
  match result with
  | RUndefined => false
  | RValue JNull => false
  | _ => true
  end.

(** [result instanceof FnResult] *)
Definition is_FnResult (result : Result) : bool :=
  match result with
  | RRaw _ => true
  | _ => false
  end.

(** [Buffer.prototype.toJSON] *)
Definition Buffer_toJSON (bytes : string) : value :=
  JObject [("type", JString "Buffer");
           ("data", JArray (List.map (fun c => JNumber (Z.of_nat (nat_of_ascii c)))
                                     (list_ascii_of_string bytes)))].

(** [JSON.stringify(result)]: the text, [undefined] ([None]), or a throw. *)
Definition JSON_stringify (result : Result) : completion (option string) :=
  match result with
  | RUndefined => Normal None
  | RValue v => Normal (Some (Json.stringify v))
  | RBuffer bytes => Normal (Some (Json.stringify (Buffer_toJSON bytes)))
  | RRaw data => Normal (Some (Json.stringify (JObject [("data", JString data)])))
  | RBigInt _ => Throw "TypeError: Do not know how to serialize a BigInt"
  end.

(** ** Result Encoder *)

(** The state of one invocation: the context, the transport response, the
    number of calls of user code, and the rejections that no handler took. *)
Record World : Type := {
  w_ctx : Context;
  w_resp : ServerResponse;
  w_calls : nat;
  w_unhandled : list string
}.

Definition set_ctx (ctx : Context) (w : World) : World :=
  {| w_ctx := ctx; w_resp := w_resp w; w_calls := w_calls w;
     w_unhandled := w_unhandled w |}.

Definition set_resp (r : ServerResponse) (w : World) : World :=
  {| w_ctx := w_ctx w; w_resp := r; w_calls := w_calls w;
     w_unhandled := w_unhandled w |}.

Definition on_resp {A : Type} (m : M ServerResponse A) : M World A :=
  zoom w_resp set_resp m.

Definition on_ctx (f : Context -> Context) : M World unit :=
  modify (fun w => set_ctx (f (w_ctx w)) w).

(** Truthiness of [string | undefined] *)
Definition truthy (s : option string) : bool :=
  match s with
  | Some s => Str.nonempty s
  | None => false
  end.

Definition is_json_type (contentType : option string) : bool :=
  match contentType with
  | Some ct =>
      Str.nonempty ct
      && (Str.startsWith "application/json" ct || Str.includes "+json" ct)
  | None => false
  end.

(** [resp.write(x)] for the [x] that [JSON.stringify] returned *)
Definition write_text (text : option string) : M World unit :=
  match text with
  | Some t => on_resp (Resp.write t)
  | None =>
      throw "TypeError [ERR_INVALID_ARG_TYPE]: The chunk argument must be of type string or an instance of Buffer"
  end.

(** The fourth step of [sendResult]: the write that [p] stands for. *)
Definition write_result (isJSON : bool) (result : Result) : M World unit :=
  if not_null result then
    match result with
    | RRaw data => on_resp (Resp.write data)
    | _ =>
        if isJSON then
          fun s =>
            match JSON_stringify result with
            | Normal text => write_text text s
            | Throw e => (Throw e, s)
            end
        else
          match result with
          | RValue (JString str) => on_resp (Resp.write str)
          | RBuffer bytes => on_resp (Resp.write bytes)
          | _ => ret tt
          end
    end
  else ret tt.

Definition sendResult `{RT : Runtime} (result : Result) : M World unit :=
  w <- get ;;
  let responseContentType := responseContentType (w_ctx w) in
  isJSON <-
    (if negb (truthy responseContentType) && not_null result
     then on_ctx (set_responseContentType (Some "application/json")) ;; ret true
     else ret (is_json_type responseContentType)) ;;
  w' <- get ;;
  for_each (map_to_list (responseHeaders (w_ctx w')))
    (fun kv => on_resp (Resp.setHeader (fst kv) (HList (snd kv)))) ;;
  on_resp (Resp.removeHeader "Content-length") ;;
  on_resp (Resp.setHeader "Fn-Fdk-Version" (HString fdkVersion)) ;;
  on_resp (Resp.setHeader "Fn-Fdk-Runtime" (HString runtimeTag)) ;;
  on_resp (Resp.writeHead 200 "OK") ;;
  write_result isJSON result ;;
  on_resp (Resp.end_ None).

Definition sendJSONError (code : Z) (message detail : string)
  : M ServerResponse unit :=
  let errStr :=
    Json.stringify (JObject [("message", JString message); ("detail", JString detail)]) in
  Resp.setHeader "Content-Type" (HString "application/json") ;;
  Resp.writeHead code "Internal Error" ;;
  Resp.end_ (Some errStr).

Definition handleFunctionError (error : string) : M ServerResponse unit :=
  sendJSONError 502 fnFunctionExceptionMessage error.

(** User code: given the body and the context, which it may update, it
    returns a result or fails (by a throw or by a rejected promise). *)
Definition FnHandler : Type := Body -> Context -> completion Result * Context.

(** A promise reaction that throws leaves an unhandled rejection. *)
Definition unhandled (m : M World unit) : M World unit :=
  fun w =>
    match m w with
    | (Normal tt, w') => (Normal tt, w')
    | (Throw e, w') =>
        (Normal tt,
         {| w_ctx := w_ctx w'; w_resp := w_resp w'; w_calls := w_calls w';
            w_unhandled := w_unhandled w' ++ [e] |})
    end.

Definition call_user (fnfunction : FnHandler) : M World Result :=
  fun w =>
    let '(outcome, ctx') := fnfunction (body (w_ctx w)) (w_ctx w) in
    (outcome,
     {| w_ctx := ctx'; w_resp := w_resp w; w_calls := S (w_calls w);
        w_unhandled := w_unhandled w |}).

Definition invokeUserFunction `{RT : Runtime} (fnfunction : FnHandler) : M World unit :=
  unhandled
    (try_catch (result <- call_user fnfunction ;; sendResult result)
               (fun error => on_resp (handleFunctionError error))).

(** ** Middleware Shim *)

(** [String(x)] *)
Fixpoint String_of_value (v : value) : string :=
  match v with
  | JNull => "null"
  | JBool true => "true"
  | JBool false => "false"
  | JNumber n => Json.Z_toString n
  | JString s => s
  | JArray items =>
      Str.join ","
        (List.map (fun x => match x with JNull => "" | _ => String_of_value x end)
                  items)
  | JObject _ => "[object Object]"
  end.

Definition String_of (x : Result) : string :=
  match x with
  | RUndefined => "undefined"
  | RValue v => String_of_value v
  | RBuffer bytes => bytes
  | RRaw _ => "[object Object]"
  | RBigInt n => Json.Z_toString n
  end.

(** [typeof x === 'object'] *)
Definition typeof_object (x : Result) : bool :=
  match x with
  | RUndefined => false
  | RValue JNull => true
  | RValue (JArray _) => true
  | RValue (JObject _) => true
  | RValue _ => false
  | RBuffer _ => true
  | RRaw _ => true
  | RBigInt _ => false
  end.

(** [Buffer.isBuffer(x)] *)
Definition isBuffer (x : Result) : bool :=
  match x with
  | RBuffer _ => true
  | _ => false
  end.

(** The object given to [sendExpressResponse], as the function reads it:
    its properties [status], [headers] and [body], each absent or present. *)
Record ExpressResponse : Type := {
  er_status : option Z;
  er_headers : option (list (string * string));
  er_body : Result
}.

(** [JSON.parse(text)] as a statement *)
Definition JSON_parse {S : Type} (text : string) : M S value :=
  match Json.parse text with
  | Some v => ret v
  | None => throw "SyntaxError: Unexpected token in JSON"
  end.

Definition sendExpressResponse `{RT : Runtime} (result : ExpressResponse) : M World unit :=
  match er_headers result with
  | None =>
      throw "TypeError: Cannot read properties of undefined (reading 'content-type')"
  | Some result_headers =>
      let contentType :=
        match get_field "content-type" result_headers with
        | Some v => Gateway.or_empty (Str.first_char v)
        | None => ""
        end in
      let isJson :=
        Str.includes "application/json" contentType
        || typeof_object (er_body result) in
      (match er_status result with
       | Some status =>
           if (status =? 0)%Z then ret tt
           else on_ctx (Ctx.setResponseHeader "Fn-Http-Status" [Json.Z_toString status])
       | None => ret tt
       end) ;;
      for_each result_headers
        (fun kv =>
           if negb (String.eqb (Str.toLowerCase (fst kv)) "content-length")
           then on_ctx (Ctx.setResponseHeader ("Fn-Http-H-" +:+ fst kv) [snd kv])
           else ret tt) ;;
      if isJson then
        jsonBody <-
          (if isBuffer (er_body result) then
             v <- JSON_parse (String_of (er_body result)) ;; ret (RValue v)
           else if typeof_object (er_body result) then ret (er_body result)
           else v <- JSON_parse (String_of (er_body result)) ;; ret (RValue v)) ;;
        on_ctx (set_responseContentType (Some "application/json")) ;;
        sendResult jsonBody
      else
        on_ctx (set_responseContentType
                  (Some (if Str.nonempty contentType then contentType
                         else "application/octet-stream"))) ;;
        sendResult (er_body result)
  end.

Definition handleExpressError (error : string) : M ServerResponse unit :=
  sendJSONError 500 "Internal Server Error" error.

(** The synthetic request of [createExpressRequest] (its parsed query is
    left out). *)
Record ExpressRequest : Type := {
  req_method : string;
  req_url : string;
  req_originalUrl : string;
  req_path : string;
  req_headers : FnHeaders;
  req_pushed : string
}.

Definition or_default (x : string) (d : string) : string :=
  if Str.nonempty x then x else d.

Definition createExpressRequest `{RT : Runtime} (ctx : Context) (body : string)
  : ExpressRequest :=
  let requestURL := or_default (Gateway.requestURL ctx) "/" in
  let pathname := or_default (Gateway.or_empty (url_pathname requestURL)) "/" in
  {| req_method := or_default (Gateway.method ctx) "GET";
     req_url := pathname;
     req_originalUrl := requestURL;
     req_path := pathname;
     req_headers := headers ctx;
     req_pushed := body |}.

(** The object of [createExpressResponse]: its four data fields. The promise
    [_promise] is the field [x_settled] of the exchange below. *)
Record ExpressRes : Type := {
  _headers : list (string * string);
  _status : Z;
  _body : list string;
  _finished : bool
}.

Definition createExpressResponse : ExpressRes :=
  {| _headers := []; _status := 200; _body := []; _finished := false |}.

(** The state of one exchange: the synthetic response, its promise (the
    status and the body it was resolved with; the resolved [headers] is the
    object [_headers] itself, which stays shared), whether the reaction
    registered on the promise has run, the flag [responseHandled], and the
    invocation. *)
Record Exchange : Type := {
  x_res : ExpressRes;
  x_settled : option (Z * string);
  x_reacted : bool;
  responseHandled : bool;
  x_world : World
}.

Definition set_res (res : ExpressRes) (x : Exchange) : Exchange :=
  {| x_res := res; x_settled := x_settled x; x_reacted := x_reacted x;
     responseHandled := responseHandled x; x_world := x_world x |}.

Definition set_world (w : World) (x : Exchange) : Exchange :=
  {| x_res := x_res x; x_settled := x_settled x; x_reacted := x_reacted x;
     responseHandled := responseHandled x; x_world := w |}.

Definition on_world {A : Type} (m : M World A) : M Exchange A :=
  zoom x_world set_world m.

Definition on_res (f : ExpressRes -> ExpressRes) : M Exchange unit :=
  modify (fun x => set_res (f (x_res x)) x).

Definition set_responseHandled : M Exchange unit :=
  modify (fun x =>
            {| x_res := x_res x; x_settled := x_settled x; x_reacted := x_reacted x;
               responseHandled := true; x_world := x_world x |}).

(** [_resolve(value)]: the first call settles the promise. *)
Definition resolve (status : Z) (body : string) : M Exchange unit :=
  modify (fun x =>
            match x_settled x with
            | Some _ => x
            | None =>
                {| x_res := x_res x; x_settled := Some (status, body);
                   x_reacted := x_reacted x;
                   responseHandled := responseHandled x; x_world := x_world x |}
            end).

Module Res.

Definition setHeader (key value : string) (res : ExpressRes) : ExpressRes :=
  {| _headers := set_field (Str.toLowerCase key) value (_headers res);
     _status := _status res; _body := _body res; _finished := _finished res |}.

Definition getHeader (key : string) (res : ExpressRes) : option string :=
  get_field (Str.toLowerCase key) (_headers res).

Definition writeHead (status : Z) (headers : list (string * string))
  (res : ExpressRes) : ExpressRes :=
  fold_left (fun r kv => setHeader (fst kv) (snd kv) r) headers
    {| _headers := _headers res; _status := status; _body := _body res;
       _finished := _finished res |}.

Definition write (chunk : string) (res : ExpressRes) : ExpressRes :=
  {| _headers := _headers res; _status := _status res;
     _body := _body res ++ [chunk]; _finished := _finished res |}.

Definition finish (res : ExpressRes) : ExpressRes :=
  {| _headers := _headers res; _status := _status res; _body := _body res;
     _finished := true |}.

Definition end_ (chunk : option string) : M Exchange unit :=
  (match chunk with
   | Some c => if Str.nonempty c then on_res (write c) else ret tt
   | None => ret tt
   end) ;;
  on_res finish ;;
  x <- get ;;
  resolve (_status (x_res x)) (String.concat "" (_body (x_res x))).

End Res.

(** *** The middleware chain

    An application is known by what it does with the synthetic pair and the
    callback it is given: in each turn of the event loop a sequence of calls
    on [res], calls of the callback [next], or a throw. Between two turns
    the reactions queued on promises run. The methods [status] and [json]
    are not among those of [createExpressResponse]: an application that
    installs them on [res] says what they do there, as calls on [res]
    followed or not by a throw. An exception of the callback unwinds
    through the application to its caller: an application that catches it
    is not described by these steps. *)

Inductive ResCall : Type :=
| call_setHeader (key value : string)
| call_writeHead (status : Z) (headers : list (string * string))
| call_write (chunk : string)
| call_end (chunk : option string).

Inductive AppStep : Type :=
| app_call (c : ResCall)
| app_next (err : option string)
| app_throw (error : string).

Record Application : Type := {
  app_turns : ExpressRequest -> list (list AppStep);
  app_status_json : Z -> value -> list ResCall * option string
}.

Definition run_call (c : ResCall) : M Exchange unit :=
  match c with
  | call_setHeader key value => on_res (Res.setHeader key value)
  | call_writeHead status headers => on_res (Res.writeHead status headers)
  | call_write chunk => on_res (Res.write chunk)
  | call_end chunk => Res.end_ chunk
  end.

(** [res.status(code).json(obj)] *)
Definition status_json (app : Application) (code : Z) (obj : value)
  : M Exchange unit :=
  let '(calls, failure) := app_status_json app code obj in
  for_each calls run_call ;;
  match failure with
  | Some e => throw e
  | None => ret tt
  end.

(** [res] itself read as a result: it has no property [headers]. *)
Definition res_as_result : ExpressResponse :=
  {| er_status := None; er_headers := None; er_body := RUndefined |}.

Section HandleExpressRequest.

Context `{RT : Runtime}.
Variable app : Application.
Variable req : ExpressRequest.

Definition express404Handler : M Exchange unit :=
  x <- get ;;
  if negb (responseHandled x) then
    status_json app 404
      (JObject [("error", JString "Not Found");
                ("message",
                 JString ("Route " +:+ req_method req +:+ " " +:+ req_path req
                          +:+ " not found"))]) ;;
    on_world (sendExpressResponse res_as_result)
  else ret tt.

Definition completeResponse (status : Z) (body : string) : M Exchange unit :=
  x <- get ;;
  if responseHandled x then ret tt
  else
    set_responseHandled ;;
    on_world (sendExpressResponse
                {| er_status := Some status;
                   er_headers := Some (_headers (x_res x));
                   er_body := RBuffer body |}).

Definition handleError (error : string) : M Exchange unit :=
  x <- get ;;
  if responseHandled x then ret tt
  else
    set_responseHandled ;;
    on_world (on_resp (handleExpressError error)).

(** The callback given to the application. [res.headersSent] is not a
    property of [res], so the test is on [_finished] alone. *)
Definition next (err : option string) : M Exchange unit :=
  match err with
  | Some e => handleError e
  | None =>
      x <- get ;;
      if negb (_finished (x_res x)) then express404Handler else ret tt
  end.

Definition run_step (step : AppStep) : M Exchange unit :=
  match step with
  | app_call c => run_call c
  | app_next err => next err
  | app_throw error => throw error
  end.

Definition run_turn (turn : list AppStep) : M Exchange unit :=
  for_each turn run_step.

(** An exception that nothing catches, or a rejection that nothing handles:
    it is recorded and the statement completes. *)
Definition uncaught (m : M Exchange unit) : M Exchange bool :=
  fun x =>
    match m x with
    | (Normal tt, x') => (Normal true, x')
    | (Throw e, x') =>
        (Normal false,
         set_world
           {| w_ctx := w_ctx (x_world x'); w_resp := w_resp (x_world x');
              w_calls := w_calls (x_world x');
              w_unhandled := w_unhandled (x_world x') ++ [e] |} x')
    end.

(** The end of a turn: the reaction of
    [res.waitForFinish().then(completeResponse).catch(handleError)] runs
    once, when the promise is settled. *)
Definition run_reactions : M Exchange unit :=
  x <- get ;;
  match x_settled x with
  | Some (status, body) =>
      if x_reacted x then ret tt
      else
        modify (fun x =>
                  {| x_res := x_res x; x_settled := x_settled x; x_reacted := true;
                     responseHandled := responseHandled x; x_world := x_world x |}) ;;
        _ <- uncaught (try_catch (completeResponse status body) handleError) ;;
        ret tt
  | None => ret tt
  end.

(** The turns after the first: an exception of the application is caught
    by nothing, and ends the process. *)
Fixpoint run_later (turns : list (list AppStep)) : M Exchange unit :=
  match turns with
  | [] => ret tt
  | turn :: rest =>
      ok <- uncaught (run_turn turn) ;;
      if ok then run_reactions ;; run_later rest else ret tt
  end.

Definition run_exchange (turns : list (list AppStep)) : M Exchange unit :=
  match turns with
  | [] => run_reactions
  | first :: rest =>
      ok <- uncaught (try_catch (run_turn first) handleError) ;;
      if ok then run_reactions ;; run_later rest else ret tt
  end.

End HandleExpressRequest.

(** [ctx.body instanceof Buffer ? ctx.body : Buffer.from(String(ctx.body || ''))] *)
Definition body_buffer (b : Body) : string :=
  match b with
  | BodyBuffer bytes => bytes
  | BodyValue JNull => ""
  | BodyValue (JBool false) => ""
  | BodyValue (JNumber 0) => ""
  | BodyValue v => String_of_value v
  end.

(** The exchange when the application is called: a new [res], the promise
    pending, nothing handled, one more call of the handler. *)
Definition new_Exchange (w : World) : Exchange :=
  {| x_res := createExpressResponse; x_settled := None; x_reacted := false;
     responseHandled := false;
     x_world := {| w_ctx := w_ctx w; w_resp := w_resp w;
                   w_calls := S (w_calls w);
                   w_unhandled := w_unhandled w |} |}.

Definition handleExpressRequest `{RT : Runtime} (app : Application) : M World unit :=
  fun w =>
    let req := createExpressRequest (w_ctx w) (body_buffer (body (w_ctx w))) in
    let '(c, x) := run_exchange app req (app_turns app req) (new_Exchange w) in
    (c, x_world x).

(** ** Dispatch Loop *)

(** A request of the transport: its method and URL, the header pairs, the
    chunks of its [data] events, and how the stream finished ([end], or
    [error] with the error). *)
Record IncomingMessage : Type := {
  method : string;
  url : string;
  rawHeaders : list (string * string);
  chunks : list string;
  failure : option string
}.

(** The handler given to [handle]: user code, or an application, for which
    [handle] sets the framework to ['express']. *)
Inductive Handler : Type :=
| UserFunction (fnfunction : FnHandler)
| ExpressApp (app : Application).

Definition new_World (ctx : Context) (resp : ServerResponse) : World :=
  {| w_ctx := ctx; w_resp := resp; w_calls := 0; w_unhandled := [] |}.

(** What an invocation leaves: the transport response, the context if one
    was built, the calls of the handler, the unhandled failures. *)
Record Served : Type := {
  served_resp : ServerResponse;
  served_ctx : option Context;
  served_calls : nat;
  served_unhandled : list string
}.

Definition functionHandler `{RT : Runtime} (env : gmap string string)
  (inputMode : InputMode) (handler : Handler)
  (req : IncomingMessage) (resp : ServerResponse) : Served :=
  let inputHandler := getInputHandler inputMode in
  if negb (String.eqb (method req) "POST") || negb (String.eqb (url req) "/call")
  then
    let '(c, resp') :=
      sendJSONError 400 "Invalid method" fnFunctionBadRequestErrorMessage resp in
    {| served_resp := resp'; served_ctx := None; served_calls := 0;
       served_unhandled := match c with Throw e => [e] | Normal _ => [] end |}
  else
    let inputHandler := accumulate inputHandler (chunks req) in
    match failure req with
    | Some e =>
        let '(c, resp') := sendJSONError 500 "Request Error" e resp in
        {| served_resp := resp'; served_ctx := None; served_calls := 0;
           served_unhandled := match c with Throw e => [e] | Normal _ => [] end |}
    | None =>
        let headers := processHeaders (rawHeaders req) in
        let body := getBody inputHandler in
        let ctx := new_Context env body headers in
        let '(c, w) :=
          match handler with
          | ExpressApp app => handleExpressRequest app (new_World ctx resp)
          | UserFunction fnfunction =>
              invokeUserFunction fnfunction (new_World ctx resp)
          end in
        {| served_resp := w_resp w; served_ctx := Some (w_ctx w);
           served_calls := w_calls w;
           served_unhandled :=
             w_unhandled w ++ match c with Throw e => [e] | Normal _ => [] end |}
    end.

(** A runtime to evaluate on: Node 18 and the path of a URL taken as the
    text before its query or fragment. *)
Fixpoint path_of (u : string) : string :=
  match u with
  | EmptyString => EmptyString
  | String c r =>
      if Ascii.eqb c "?" || Ascii.eqb c "#" then EmptyString
      else String c (path_of r)
  end.

Definition node18 : Runtime :=
  {| process_version := "v18.20.0"; package_version := "0.0.1";
     url_pathname := fun u => Some (path_of u) |}.

(** ** What the Result Encoder sends

    The headers of the transport after [sendResult] has written them, and
    the chunks that its fourth step writes: the functions below say what
    [sendResult] does on a response whose status line is not yet committed. *)

Definition add_header (m : gmap string (string * header_value))
  (kv : string * list string) : gmap string (string * header_value) :=
  <[Str.toLowerCase (fst kv) := (fst kv, HList (snd kv))]> m.

Definition sent_headers `{RT : Runtime} (ctx : Context) (resp : ServerResponse)
  : gmap string (string * header_value) :=
  <["fn-fdk-runtime" := ("Fn-Fdk-Runtime", HString runtimeTag)]>
    (<["fn-fdk-version" := ("Fn-Fdk-Version", HString fdkVersion)]>
       (delete "content-length"
          (fold_left add_header (map_to_list (responseHeaders ctx))
                     (resp_headers resp)))).

(** The value of [isJSON], and the context after the first step. *)
Definition marks_json (ctx : Context) (result : Result) : bool :=
  if negb (truthy (responseContentType ctx)) && not_null result then true
  else is_json_type (responseContentType ctx).

Definition typed_ctx (ctx : Context) (result : Result) : Context :=
  if negb (truthy (responseContentType ctx)) && not_null result
  then set_responseContentType (Some "application/json") ctx
  else ctx.

Definition payload (isJSON : bool) (result : Result) : completion (list string) :=
  if not_null result then
    match result with
    | RRaw data => Normal [data]
    | _ =>
        if isJSON then
          match JSON_stringify result with
          | Normal (Some text) => Normal [text]
          | Normal None =>
              Throw "TypeError [ERR_INVALID_ARG_TYPE]: The chunk argument must be of type string or an instance of Buffer"
          | Throw e => Throw e
          end
        else
          match result with
          | RValue (JString str) => Normal [str]
          | RBuffer bytes => Normal [bytes]
          | _ => Normal []
          end
    end
  else Normal [].

Definition committed `{RT : Runtime} (ctx : Context) (resp : ServerResponse)
  (written : list string) (ends : nat) : ServerResponse :=
  {| resp_headers := sent_headers ctx resp;
     resp_statusCode := 200;
     resp_statusMessage := "OK";
     resp_headersSent := true;
     resp_body := resp_body resp ++ written;
     resp_ends := ends |}.

(** The request that reaches the handler. *)
Definition call_request (raw : list (string * string)) (data : list string)
  : IncomingMessage :=
  {| method := "POST"; url := "/call"; rawHeaders := raw; chunks := data;
     failure := None |}.

(** ** What the Middleware Shim sends *)

(** The context once [sendExpressResponse] has copied the status and the
    headers of the result into it. *)
Definition with_status (status : option Z) (ctx : Context) : Context :=
  match status with
  | Some st =>
      if (st =? 0)%Z then ctx
      else Ctx.setResponseHeader "Fn-Http-Status" [Json.Z_toString st] ctx
  | None => ctx
  end.

Definition forward_header (ctx : Context) (kv : string * string) : Context :=
  if negb (String.eqb (Str.toLowerCase (fst kv)) "content-length")
  then Ctx.setResponseHeader ("Fn-Http-H-" +:+ fst kv) [snd kv] ctx
  else ctx.

Definition declared_type (result_headers : list (string * string)) : string :=
  match get_field "content-type" result_headers with
  | Some v => Gateway.or_empty (Str.first_char v)
  | None => ""
  end.

(** The two ways out of [sendExpressResponse]. *)
Definition json_path `{RT : Runtime} (body : Result) : M World unit :=
  jsonBody <-
    (if isBuffer body then v <- JSON_parse (String_of body) ;; ret (RValue v)
     else if typeof_object body then ret body
     else v <- JSON_parse (String_of body) ;; ret (RValue v)) ;;
  on_ctx (set_responseContentType (Some "application/json")) ;;
  sendResult jsonBody.

Definition raw_path `{RT : Runtime} (contentType : string) (body : Result)
  : M World unit :=
  on_ctx (set_responseContentType
            (Some (if Str.nonempty contentType then contentType
                   else "application/octet-stream"))) ;;
  sendResult body.

(** Calls on [res] touch neither the flag [responseHandled] nor the
    invocation. *)
Definition same_invocation (x x' : Exchange) : Prop :=
  x_reacted x' = x_reacted x
  /\ responseHandled x' = responseHandled x
  /\ x_world x' = x_world x.

(** The exchange once one of the guarded functions has taken it. *)
Definition handled_with (r : ServerResponse) (x : Exchange) : Exchange :=
  {| x_res := x_res x; x_settled := x_settled x; x_reacted := x_reacted x;
     responseHandled := true; x_world := set_resp r (x_world x) |}.

Definition error_500 (detail : string) (r : ServerResponse) : ServerResponse :=
  snd (handleExpressError detail r).

(** ** Invariants and readings used by the further properties *)

(** Every key of a header map is in canonical form. *)
Definition canonical_keys (m : FnHeaders) : Prop :=
  forall key : string, is_Some (m !! key) -> canonHeader key = key.

(** The names that [sendResult] takes over on the transport. *)
Definition reserved_name (key : string) : bool :=
  String.eqb key "Content-Length" || String.eqb key "Fn-Fdk-Version"
  || String.eqb key "Fn-Fdk-Runtime".


(** What a call on [res] leaves in the fields of [res], and in the exchange:
    the first [end] settles the promise with the status and the bytes of
    that moment. *)
Definition is_end (c : ResCall) : bool :=
  match c with call_end _ => true | _ => false end.

Definition res_after (res : ExpressRes) (c : ResCall) : ExpressRes :=
  match c with
  | call_setHeader key value => Res.setHeader key value res
  | call_writeHead status headers => Res.writeHead status headers res
  | call_write chunk => Res.write chunk res
  | call_end (Some chunk) =>
      Res.finish (if Str.nonempty chunk then Res.write chunk res else res)
  | call_end None => Res.finish res
  end.

Definition after_call (x : Exchange) (c : ResCall) : Exchange :=
  let res := res_after (x_res x) c in
  {| x_res := res;
     x_settled :=
       match x_settled x with
       | Some settled => Some settled
       | None =>
           if is_end c then Some (_status res, String.concat "" (_body res))
           else None
       end;
     x_reacted := x_reacted x;
     responseHandled := responseHandled x;
     x_world := x_world x |}.

(** The names of the headers of [res] are in lower case. *)
Definition lower_keys (res : ExpressRes) : Prop :=
  Forall (fun kv : string * string => Str.toLowerCase (fst kv) = fst kv)
         (_headers res).

(** An exchange that one of the guarded functions has taken keeps its
    transport response and its context. *)
Definition frozen (x x' : Exchange) : Prop :=
  responseHandled x' = true
  /\ w_resp (x_world x') = w_resp (x_world x)
  /\ w_ctx (x_world x') = w_ctx (x_world x)
  /\ w_calls (x_world x') = w_calls (x_world x).

(** ** The JSON texts and values on which the reader and [JSON.parse] agree

    [JSON.parse] reads more texts than the reader of this file (fractions,
    exponents, wide [\u] escapes), and it gives back a number rounded to a
    double and an object whose integer-like keys come first. The predicates
    below name texts and values that are free of these: the properties
    about parsed bodies are stated on them. *)

(** Every character is a 7-bit one: such bytes decode to themselves. *)
Fixpoint is_ascii (s : string) : bool :=
  match s with
  | EmptyString => true
  | String c r => (nat_of_ascii c <? 128)%nat && is_ascii r
  end.

(** White space only. *)
Fixpoint blank (s : string) : bool :=
  match s with
  | EmptyString => true
  | String c r => Json.is_ws c && blank r
  end.

Fixpoint all_digits (s : string) : bool :=
  match s with
  | EmptyString => true
  | String c r => Json.is_digit c && all_digits r
  end.

(** A key written as a natural number, which JavaScript may take for an
    array index and list before the other keys. *)
Definition index_like (key : string) : bool :=
  Str.nonempty key && all_digits key.

Definition key_ok (key : string) : bool :=
  is_ascii key && negb (index_like key) && negb (String.eqb key "__proto__").

Fixpoint distinct (keys : list string) : bool :=
  match keys with
  | [] => true
  | key :: rest => negb (existsb (String.eqb key) rest) && distinct rest
  end.

(** The integers that a JavaScript number holds exactly. *)
Definition safe_integer (n : Z) : bool := (Z.abs n <=? 9007199254740991)%Z.

(** A value that [JSON.parse] gives back as it was written by
    [JSON.stringify]: safe integers, 7-bit strings, and in every object
    distinct keys none of which is written as a natural number. *)
Fixpoint json_safe (v : value) : bool :=
  match v with
  | JNull => true
  | JBool _ => true
  | JNumber n => safe_integer n
  | JString s => is_ascii s
  | JArray items => forallb json_safe items
  | JObject fields =>
      forallb (fun kv => let '(k, x) := kv in key_ok k && json_safe x) fields
      && distinct (List.map fst fields)
  end.

(** A text that cannot go on the number it follows: it does not begin with
    a digit, a point or an exponent mark. *)
Definition ends_number (rest : string) : bool :=
  match rest with
  | EmptyString => true
  | String c _ => negb (Json.is_digit c) && negb (Json.starts_fraction rest)
  end.

(** A text that begins, after white space, as a JSON value can begin: with
    a bracket, a brace, a quote, a minus sign, a digit, or one of the words
    true, false and null. *)
Definition starts_value (text : string) : bool :=
  match Json.skip_ws text with
  | EmptyString => false
  | String c r =>
      Ascii.eqb c "[" || Ascii.eqb c "{" || Ascii.eqb c Json.dquote
      || Ascii.eqb c "-" || Json.is_digit c
      || String.prefix "true" (String c r) || String.prefix "false" (String c r)
      || String.prefix "null" (String c r)
  end.

(** What the reader needs to read a value back: one unit for the value and
    one for each of the elements or members below it. *)
Fixpoint weight (v : value) : nat :=
  match v with
  | JArray items => S (list_sum (List.map (fun x => S (weight x)) items))
  | JObject fields =>
      S (list_sum (List.map (fun kv => let '(_, x) := kv in S (weight x)) fields))
  | _ => 1
  end.

(** The first character of a serialization: no white space, and neither a
    closing bracket nor a closing brace. *)
Definition opens_value (c : ascii) : bool :=
  negb (Json.is_ws c) && negb (Ascii.eqb c "]") && negb (Ascii.eqb c "}").

(** A value is read back with any fuel from its weight on, before any text
    that cannot go on a number. *)
Definition reads_back (v : value) : Prop :=
  forall (fuel : nat) (rest : string),
    weight v <= fuel -> ends_number rest = true ->
    Json.read_value fuel (Json.stringify v +:+ rest) = Some (v, rest).

(** * Properties *)

(** ** Characters and strings *)

Ltac each_char c := destruct c as [[] [] [] [] [] [] [] []].

Lemma upper_char_idem (c : ascii) :
  Str.upper_char (Str.upper_char c) = Str.upper_char c.
Proof. each_char c; reflexivity. Qed.

Lemma lower_char_idem (c : ascii) :
  Str.lower_char (Str.lower_char c) = Str.lower_char c.
Proof. each_char c; reflexivity. Qed.

Lemma is_sep_upper (c : ascii) : is_sep (Str.upper_char c) = is_sep c.
Proof. each_char c; reflexivity. Qed.

Lemma is_sep_lower (c : ascii) : is_sep (Str.lower_char c) = is_sep c.
Proof. each_char c; reflexivity. Qed.

Lemma lower_char_not_E (c : ascii) : Ascii.eqb (Str.lower_char c) "E" = false.
Proof. each_char c; reflexivity. Qed.

Lemma split_not_nil (sep : ascii) (s : string) : Str.split sep s <> [].
Proof.
  destruct s as [|c r]; simpl; [discriminate|].
  destruct (Ascii.eqb c sep); [discriminate|].
  destruct (Str.split sep r); discriminate.
Qed.

Lemma join_cons_char (sep : string) (a : ascii) (x : string) (l : list string) :
  Str.join sep (String a x :: l) = String a (Str.join sep (x :: l)).
Proof. destruct l; reflexivity. Qed.

Lemma join_empty_head (p : string) (ps : list string) :
  Str.join "-" (EmptyString :: p :: ps) = String "-" (Str.join "-" (p :: ps)).
Proof. reflexivity. Qed.

(** ** Header Codec: [canonHeader] *)

Lemma segments_cons (c : ascii) (r : string) :
  segments (String c r) =
  if is_sep c then EmptyString :: segments r
  else match segments r with
       | p :: ps => String c p :: ps
       | [] => [String c EmptyString]
       end.
Proof.
  unfold segments, is_sep. simpl.
  destruct (Ascii.eqb c "_") eqn:Hu; simpl.
  - reflexivity.
  - destruct (Ascii.eqb c "-"); reflexivity.
Qed.

Lemma join_segments_scan (s : string) :
  Str.join "-" (List.map capitalize (segments s)) = canon_scan true s
  /\ Str.join "-" (lower_first (segments s)) = canon_scan false s.
Proof.
  induction s as [|c r [IHt IHf]]; [split; reflexivity|].
  rewrite segments_cons. simpl canon_scan.
  pose proof (split_not_nil "-" (Str.replace_underscores r)) as Hne.
  fold (segments r) in Hne.
  destruct (is_sep c).
  - destruct (segments r) as [|p ps] eqn:Hp; [congruence|].
    split.
    + change (List.map capitalize (EmptyString :: p :: ps))
        with (EmptyString :: capitalize p :: List.map capitalize ps).
      rewrite join_empty_head. f_equal. exact IHt.
    + change (lower_first (EmptyString :: p :: ps))
        with (EmptyString :: capitalize p :: List.map capitalize ps).
      rewrite join_empty_head. f_equal. exact IHt.
  - destruct (segments r) as [|p ps] eqn:Hp; [congruence|].
    split.
    + change (List.map capitalize (String c p :: ps))
        with (String (Str.upper_char c) (Str.toLowerCase p) :: List.map capitalize ps).
      rewrite join_cons_char. f_equal. exact IHf.
    + change (lower_first (String c p :: ps))
        with (String (Str.lower_char c) (Str.toLowerCase p) :: List.map capitalize ps).
      rewrite join_cons_char. f_equal. exact IHf.
Qed.

Lemma canonHeader_scan (h : string) : canonHeader h = canon_scan true h.
Proof. exact (proj1 (join_segments_scan h)). Qed.

Lemma canon_scan_idem (b : bool) (s : string) :
  canon_scan b (canon_scan b s) = canon_scan b s.
Proof.
  revert b. induction s as [|c r IH]; intros b; [reflexivity|].
  simpl. destruct (is_sep c) eqn:Hc.
  - simpl. now rewrite IH.
  - simpl. destruct b.
    + rewrite is_sep_upper, Hc, upper_char_idem, IH. reflexivity.
    + rewrite is_sep_lower, Hc, lower_char_idem, IH. reflexivity.
Qed.

Lemma canon_scan_length (b : bool) (s : string) :
  String.length (canon_scan b s) = String.length s.
Proof.
  revert b. induction s as [|c r IH]; intros b; [reflexivity|].
  simpl. destruct (is_sep c); simpl; now rewrite IH.
Qed.

Lemma canonHeader_idem (h : string) : canonHeader (canonHeader h) = canonHeader h.
Proof. rewrite !canonHeader_scan. apply canon_scan_idem. Qed.

Lemma canonHeader_prefix (key : string) :
  canonHeader (Gateway.prefix +:+ key) = Gateway.prefix +:+ canonHeader key.
Proof. rewrite !canonHeader_scan. reflexivity. Qed.

Lemma canonHeader_not_TE (name : string) : String.eqb (canonHeader name) "TE" = false.
Proof.
  rewrite canonHeader_scan.
  destruct name as [|c1 [|c2 r]]; [reflexivity| |].
  - simpl. destruct (is_sep c1); simpl; [reflexivity|].
    now destruct (Ascii.eqb _ _).
  - simpl. destruct (is_sep c1); simpl; [reflexivity|].
    destruct (is_sep c2); simpl.
    + now destruct (Ascii.eqb _ _).
    + rewrite lower_char_not_E. now destruct (Ascii.eqb _ _).
Qed.

Lemma filter_all {A : Type} (f : A -> bool) (l : list A) :
  forallb f l = true -> List.filter f l = l.
Proof.
  induction l as [|a l IH]; simpl; [reflexivity|].
  intros Hall. apply andb_prop in Hall. destruct Hall as [Ha Hl].
  rewrite Ha. f_equal. auto.
Qed.

(** C6 (as stated, refuted): a name with a doubled separator keeps both
    separators, where the reference definition removes the empty segment. *)
Lemma canonHeader_keeps_empty_segments :
  canonHeader "a__b" = "A--B"
  /\ canonicalize_spec "a__b" = "A-B"
  /\ canonHeader "a__b" <> canonicalize_spec "a__b".
Proof. repeat split. discriminate. Qed.

(** C6 (amended): for every header name, [canonHeader] replaces every '_'
    by '-', splits on '-', capitalizes each segment (first letter upper
    case, the rest lower case), keeps an empty segment as the empty string
    and rejoins with '-': every separator of the name is a '-' of the result
    and the length is unchanged. It equals the reference definition on every
    name without an empty segment, is total and idempotent, and maps
    "content_type" and "Content-Type" to "Content-Type". *)
Theorem canonHeader_canonical (h : string) :
  canonHeader h = canon_scan true h
  /\ String.length (canonHeader h) = String.length h
  /\ (forallb Str.nonempty (segments h) = true -> canonHeader h = canonicalize_spec h)
  /\ canonHeader (canonHeader h) = canonHeader h
  /\ canonHeader "content_type" = "Content-Type"
  /\ canonHeader "Content-Type" = "Content-Type".
Proof.
  split; [apply canonHeader_scan|].
  split; [rewrite canonHeader_scan; apply canon_scan_length|].
  split.
  - intros Hall. unfold canonHeader, canonicalize_spec.
    now rewrite filter_all.
  - split; [apply canonHeader_idem|]. split; reflexivity.
Qed.

Lemma canonHeader_canonical_witness :
  canonHeader "x_forwarded-FOR" = canonicalize_spec "x_forwarded-FOR".
Proof.
  apply (proj1 (proj2 (proj2 (canonHeader_canonical "x_forwarded-FOR")))).
  reflexivity.
Defined.

(** ** Header Codec: [processHeaders] *)

Lemma processHeaders_step_lookup (m : FnHeaders) (raw : string * string)
  (key : string) :
  processHeaders_step m raw !! key =
  if skipped key then m !! key
  else extend (m !! key) (arrived key [raw]).
Proof.
  unfold processHeaders_step, arrived. simpl.
  destruct (String.eqb_spec (canonHeader (fst raw)) key) as [Heq|Hne].
  - subst key. destruct (skipped (canonHeader (fst raw))); [reflexivity|].
    simpl. destruct (m !! canonHeader (fst raw)) as [vs|];
      now rewrite lookup_insert_eq.
  - simpl. destruct (skipped (canonHeader (fst raw))).
    + now destruct (skipped key).
    + assert (Hother : forall vs : list string,
                 <[canonHeader (fst raw) := vs]> m !! key = m !! key)
        by (intros vs; now apply lookup_insert_ne).
      destruct (m !! canonHeader (fst raw)); rewrite Hother;
        now destruct (skipped key).
Qed.

Lemma extend_extend (old : option (list string)) (a b : list string) :
  extend (extend old a) b = extend old (a ++ b).
Proof.
  destruct a as [|x a]; [reflexivity|].
  destruct b as [|y b]; simpl.
  - now rewrite app_nil_r.
  - destruct old; simpl; now rewrite <- ?app_assoc.
Qed.

Lemma arrived_cons (key : string) (raw : string * string)
  (rest : list (string * string)) :
  arrived key (raw :: rest) = arrived key [raw] ++ arrived key rest.
Proof.
  unfold arrived. simpl.
  now destruct (String.eqb (canonHeader (fst raw)) key).
Qed.

Lemma fold_processHeaders_lookup (rawHeaders : list (string * string))
  (m : FnHeaders) (key : string) :
  fold_left processHeaders_step rawHeaders m !! key =
  if skipped key then m !! key
  else extend (m !! key) (arrived key rawHeaders).
Proof.
  revert m. induction rawHeaders as [|raw rest IH]; intros m; simpl.
  - now destruct (skipped key).
  - rewrite IH, processHeaders_step_lookup.
    destruct (skipped key); [reflexivity|].
    now rewrite extend_extend, <- arrived_cons.
Qed.

(** What decoding does: a key of the deny-set is absent, and every other
    key holds the values that arrived under a name of that canonical form,
    in arrival order. *)
Lemma processHeaders_lookup (rawHeaders : list (string * string)) (key : string) :
  processHeaders rawHeaders !! key =
  if skipped key then None else extend None (arrived key rawHeaders).
Proof.
  unfold processHeaders. rewrite fold_processHeaders_lookup.
  now rewrite lookup_empty.
Qed.

Lemma skipped_iff (key : string) :
  skipped key = true <->
  key = "TE" \/ key = "Connection" \/ key = "Keep-Alive"
  \/ key = "Transfer-Encoding" \/ key = "Trailer" \/ key = "Upgrade".
Proof.
  unfold skipped, skipHeaders.
  repeat (rewrite lookup_insert; case_decide; [subst; split; [tauto|reflexivity]|]).
  rewrite lookup_empty. split; [discriminate|]. intros Hk.
  repeat match goal with
         | Hk : _ \/ _ |- _ => destruct Hk as [Hk|Hk]
         end; congruence.
Qed.

Lemma arrived_In (key name value : string) (rawHeaders : list (string * string)) :
  canonHeader name = key -> In (name, value) rawHeaders ->
  In value (arrived key rawHeaders).
Proof.
  intros Hkey Hin. unfold arrived. apply in_map_iff.
  exists (name, value). split; [reflexivity|].
  apply filter_In. split; [exact Hin|].
  simpl. rewrite Hkey. apply String.eqb_refl.
Qed.

(** C1 (the code at the failing input): no name has the canonical form
    "TE", the key under which the deny-set lists that header. So a TE header
    is decoded under the key "Te" in whatever case and at whatever place it
    arrives, with its value among the values of that key, while a Connection
    header is dropped. *)
Theorem processHeaders_keeps_TE :
  (forall name : string, String.eqb (canonHeader name) "TE" = false)
  /\ skipped (canonHeader "TE") = false
  /\ (forall (rawHeaders : list (string * string)) (name value : string),
        canonHeader name = "Te" -> In (name, value) rawHeaders ->
        exists values : list string,
          processHeaders rawHeaders !! "Te" = Some values /\ In value values)
  /\ processHeaders [("TE", "trailers")] !! "Te" = Some ["trailers"]
  /\ processHeaders [("te", "trailers")] !! "Te" = Some ["trailers"]
  /\ processHeaders [("Te", "trailers")] !! "Te" = Some ["trailers"]
  /\ processHeaders [("connection", "close"); ("TE", "trailers")]
     = {["Te" := ["trailers"]]}.
Proof.
  split; [exact canonHeader_not_TE|]. split; [reflexivity|]. split.
  - intros rawHeaders name value Hname Hin.
    rewrite processHeaders_lookup.
    change (skipped "Te") with false. cbv iota.
    pose proof (arrived_In "Te" name value rawHeaders Hname Hin) as Harr.
    destruct (arrived "Te" rawHeaders) as [|v vs]; [destruct Harr|].
    exists (v :: vs). split; [reflexivity|exact Harr].
  - repeat split; vm_compute; reflexivity.
Qed.

Lemma processHeaders_keeps_TE_witness :
  exists values : list string,
    processHeaders [("Host", "localhost"); ("tE", "trailers, deflate")] !! "Te"
    = Some values
    /\ In "trailers, deflate" values.
Proof.
  destruct processHeaders_keeps_TE as (_ & _ & Hkept & _).
  apply (Hkept [("Host", "localhost"); ("tE", "trailers, deflate")] "tE").
  - reflexivity.
  - right. left. reflexivity.
Defined.

(** ** Input Accumulator *)

Lemma append_empty_r (s : string) : s +:+ "" = s.
Proof.
  induction s as [|c s IH]; [reflexivity|].
  change (String c (s +:+ "") = String c s). now rewrite IH.
Qed.

Lemma append_assoc (a b c : string) : (a +:+ b) +:+ c = a +:+ (b +:+ c).
Proof.
  induction a as [|x a IH]; [reflexivity|].
  change (String x ((a +:+ b) +:+ c) = String x (a +:+ (b +:+ c))). now rewrite IH.
Qed.

Lemma concat_cons (x : string) (xs : list string) :
  String.concat "" (x :: xs) = x +:+ String.concat "" xs.
Proof.
  destruct xs; [|reflexivity].
  change (x = x +:+ ""). now rewrite append_empty_r.
Qed.

Lemma accumulate_json (str : string) (chunks : list string) :
  accumulate (JSONInputHandler str) chunks
  = JSONInputHandler (str +:+ String.concat "" chunks).
Proof.
  revert str. induction chunks as [|c chunks IH]; intros str.
  - simpl. now rewrite append_empty_r.
  - unfold accumulate in *. simpl fold_left. rewrite IH.
    now rewrite concat_cons, append_assoc.
Qed.

(** ** Strings: prefixes and lengths *)

Lemma substring_all (s : string) : String.substring 0 (String.length s) s = s.
Proof. induction s as [|c s IH]; [reflexivity|]. cbn. now rewrite IH. Qed.

Lemma prefix_split (p s : string) :
  String.prefix p s = true ->
  s = p +:+ String.substring (String.length p) (String.length s - String.length p) s.
Proof.
  revert s. induction p as [|a p IH]; intros s Hpre.
  - cbn. now rewrite Nat.sub_0_r, substring_all.
  - destruct s as [|b s]; [discriminate|]. cbn in Hpre.
    destruct (ascii_dec a b) as [->|]; [|discriminate].
    change (String b s = String b (p +:+ String.substring (String.length p)
                                      (String.length s - String.length p) s)).
    now rewrite <- IH.
Qed.

Lemma prefix_append (p r : string) : String.prefix p (p +:+ r) = true.
Proof.
  induction p as [|a p IH]; [now destruct r|].
  change (String.prefix (String a p) (String a (p +:+ r)) = true). cbn.
  destruct (ascii_dec a a); [exact IH|congruence].
Qed.

Lemma append_length (p r : string) :
  String.length (p +:+ r) = String.length p + String.length r.
Proof.
  induction p as [|a p IH]; [reflexivity|].
  change (S (String.length (p +:+ r)) = S (String.length p + String.length r)).
  now rewrite IH.
Qed.

Lemma append_inj (p a b : string) : p +:+ a = p +:+ b -> a = b.
Proof.
  induction p as [|c p IH]; [trivial|].
  change (String c (p +:+ a) = String c (p +:+ b) -> a = b).
  intros [= H]. now apply IH.
Qed.

(** ** The reader of JSON texts reads back what [JSON.stringify] writes *)

(** *** Numbers *)

Lemma nzhead_not_D0 (d l : Decimal.uint) : Decimal.nzhead d <> Decimal.D0 l.
Proof. induction d; cbn; try discriminate; assumption. Qed.

Lemma to_uint_head (p : positive) :
  match Pos.to_uint p with
  | Decimal.Nil | Decimal.D0 _ => False
  | _ => True
  end.
Proof.
  pose proof (DecimalPos.Unsigned.to_of (Pos.to_uint p)) as Hnorm.
  rewrite DecimalPos.Unsigned.of_to in Hnorm.
  change (N.to_uint (Npos p)) with (Pos.to_uint p) in Hnorm.
  pose proof (DecimalPos.Unsigned.to_uint_nonzero p) as Hzero.
  pose proof (DecimalPos.Unsigned.to_uint_nonnil p) as Hnil.
  destruct (Pos.to_uint p) as [|l|l|l|l|l|l|l|l|l|l]; try exact I; [congruence|].
  unfold Decimal.unorm in Hnorm. cbn [Decimal.nzhead] in Hnorm.
  destruct (Decimal.nzhead l) eqn:Hhead; try discriminate.
  - exact (Hzero Hnorm).
  - exact (nzhead_not_D0 _ _ Hhead).
Qed.

Ltac read_digit c k IH :=
  match goal with
  | |- context [String c (NilEmpty.string_of_uint ?d) +:+ ?rest] =>
      change (String c (NilEmpty.string_of_uint d) +:+ rest)
        with (String c (NilEmpty.string_of_uint d +:+ rest))
  end;
  cbn [Json.read_digits]; change (Json.is_digit c) with true; cbv iota;
  match goal with
  | |- context [(10 * Z.pos ?p + Json.digit_val c)%Z] =>
      replace (10 * Z.pos p + Json.digit_val c)%Z with (Z.pos (k + 10 * p))
        by (change (Json.digit_val c) with (Z.pos k); lia)
  end;
  apply IH.

Lemma read_digits_uint (d : Decimal.uint) (p : positive) (rest : string) :
  ends_number rest = true ->
  Json.read_digits (Zpos p) (NilEmpty.string_of_uint d +:+ rest)
  = (Zpos (Pos.of_uint_acc d p), rest).
Proof.
  intros Hrest. revert p.
  induction d as [|d IH|d IH|d IH|d IH|d IH|d IH|d IH|d IH|d IH|d IH]; intros p;
    cbn [NilEmpty.string_of_uint Pos.of_uint_acc].
  - change ("" +:+ rest) with rest. destruct rest as [|c r]; [reflexivity|].
    cbn [Json.read_digits]. cbn [ends_number] in Hrest.
    apply andb_true_iff in Hrest as [Hdigit _].
    now destruct (Json.is_digit c).
  - change (String "0" (NilEmpty.string_of_uint d) +:+ rest)
      with (String "0" (NilEmpty.string_of_uint d +:+ rest)).
    cbn [Json.read_digits]. change (Json.is_digit "0") with true. cbv iota.
    replace (10 * Z.pos p + Json.digit_val "0")%Z with (Z.pos (10 * p))
      by (change (Json.digit_val "0") with 0%Z; lia).
    apply IH.
  - read_digit "1"%char 1%positive IH.
  - read_digit "2"%char 2%positive IH.
  - read_digit "3"%char 3%positive IH.
  - read_digit "4"%char 4%positive IH.
  - read_digit "5"%char 5%positive IH.
  - read_digit "6"%char 6%positive IH.
  - read_digit "7"%char 7%positive IH.
  - read_digit "8"%char 8%positive IH.
  - read_digit "9"%char 9%positive IH.
Qed.

Lemma read_natural_pos (p : positive) (rest : string) :
  ends_number rest = true ->
  Json.read_natural (NilEmpty.string_of_uint (Pos.to_uint p) +:+ rest)
  = Some (Zpos p, rest).
Proof.
  intros Hrest.
  pose proof (to_uint_head p) as Hhead.
  pose proof (DecimalPos.Unsigned.of_to p) as Hof.
  destruct (Pos.to_uint p) as [|l|l|l|l|l|l|l|l|l|l]; try contradiction;
    cbn [NilEmpty.string_of_uint];
    match goal with
    | |- context [String ?c (NilEmpty.string_of_uint l) +:+ rest] =>
        change (String c (NilEmpty.string_of_uint l) +:+ rest)
          with (String c (NilEmpty.string_of_uint l +:+ rest))
    end;
    cbn [Json.read_natural Ascii.eqb Bool.eqb]; cbv iota;
    match goal with
    | |- context [Json.is_digit ?c] => change (Json.is_digit c) with true
    end;
    cbv iota;
    match goal with
    | |- context [Json.digit_val ?c] =>
        let k := eval vm_compute in (Json.digit_val c) in
        change (Json.digit_val c) with k
    end;
    rewrite read_digits_uint by exact Hrest;
    cbn [Pos.of_uint] in Hof; injection Hof as ->; reflexivity.
Qed.

Lemma Z_toString_cases (n : Z) :
  match n with
  | Z0 => Json.Z_toString n = "0"
  | Zpos p => Json.Z_toString n = NilEmpty.string_of_uint (Pos.to_uint p)
  | Zneg p => Json.Z_toString n = String "-" (NilEmpty.string_of_uint (Pos.to_uint p))
  end.
Proof.
  destruct n as [|p|p]; [reflexivity| |];
    unfold Json.Z_toString, NilZero.string_of_int, NilZero.string_of_uint;
    cbn [Z.to_int]; pose proof (to_uint_head p) as Hhead;
    destruct (Pos.to_uint p); try contradiction; reflexivity.
Qed.

Lemma uint_starts_digit (p : positive) :
  exists (c : ascii) (r : string),
    NilEmpty.string_of_uint (Pos.to_uint p) = String c r
    /\ Json.is_digit c = true.
Proof.
  pose proof (to_uint_head p) as Hhead.
  destruct (Pos.to_uint p); try contradiction; cbn [NilEmpty.string_of_uint];
    eexists _, _; split; reflexivity.
Qed.

Lemma read_number_Z_toString (n : Z) (rest : string) :
  ends_number rest = true ->
  Json.read_number (Json.Z_toString n +:+ rest) = Some (n, rest).
Proof.
  intros Hrest.
  assert (Hfrac : Json.starts_fraction rest = false).
  { destruct rest as [|c r]; [reflexivity|]. cbn [ends_number] in Hrest.
    apply andb_true_iff in Hrest as [_ Hfrac]. now apply negb_true_iff in Hfrac. }
  pose proof (Z_toString_cases n) as Hcases.
  destruct n as [|p|p]; rewrite Hcases.
  - change ("0" +:+ rest) with (String "0" rest).
    unfold Json.read_number. cbn [Ascii.eqb Bool.eqb Json.read_natural]. cbv iota.
    destruct rest as [|c r]; [reflexivity|].
    cbn [ends_number] in Hrest. apply andb_true_iff in Hrest as [Hdigit _].
    apply negb_true_iff in Hdigit. rewrite Hdigit. now rewrite Hfrac.
  - destruct (uint_starts_digit p) as (c & r & Hstr & Hdigit).
    unfold Json.read_number.
    pose proof (read_natural_pos p rest Hrest) as Hnat.
    rewrite Hstr in *. change (String c r +:+ rest) with (String c (r +:+ rest)) in *.
    assert (Hminus : Ascii.eqb c "-" = false).
    { destruct (Ascii.eqb_spec c "-") as [->|]; [discriminate Hdigit|reflexivity]. }
    cbv beta iota. rewrite Hminus, Hnat. now rewrite Hfrac.
  - change (String "-" (NilEmpty.string_of_uint (Pos.to_uint p)) +:+ rest)
      with (String "-" (NilEmpty.string_of_uint (Pos.to_uint p) +:+ rest)).
    unfold Json.read_number. cbn [Ascii.eqb Bool.eqb]. cbv iota.
    rewrite (read_natural_pos p rest Hrest). now rewrite Hfrac.
Qed.

Lemma Z_toString_head (n : Z) :
  exists (c : ascii) (r : string),
    Json.Z_toString n = String c r /\ (Json.is_digit c || Ascii.eqb c "-") = true.
Proof.
  pose proof (Z_toString_cases n) as Hcases.
  destruct n as [|p|p]; rewrite Hcases.
  - now exists "0"%char, "".
  - destruct (uint_starts_digit p) as (c & r & -> & Hdigit).
    exists c, r. split; [reflexivity|]. now rewrite Hdigit.
  - eexists _, _. split; reflexivity.
Qed.

(** *** Strings *)

Lemma read_string_escape_char (c : ascii) (tail : string) :
  Json.read_string (Json.escape_char c +:+ tail)
  = Json.cons_char c (Json.read_string tail).
Proof. each_char c; reflexivity. Qed.

Lemma read_string_escape (s rest : string) :
  Json.read_string (Json.escape s +:+ String Json.dquote rest) = Some (s, rest).
Proof.
  induction s as [|c s IH].
  - reflexivity.
  - cbn [Json.escape]. rewrite append_assoc, read_string_escape_char, IH.
    reflexivity.
Qed.

Lemma read_string_quote (s rest : string) :
  exists tail : string,
    Json.quote s +:+ rest = String Json.dquote tail
    /\ Json.read_string tail = Some (s, rest).
Proof.
  exists (Json.escape s +:+ String Json.dquote rest). split.
  - unfold Json.quote.
    change (String Json.dquote (Json.escape s) +:+ String Json.dquote "")
      with (String Json.dquote (Json.escape s +:+ String Json.dquote "")).
    change (String Json.dquote (Json.escape s +:+ String Json.dquote "") +:+ rest)
      with (String Json.dquote ((Json.escape s +:+ String Json.dquote "") +:+ rest)).
    now rewrite append_assoc.
  - apply read_string_escape.
Qed.

(** *** Values *)

Lemma value_nested_ind (P : value -> Prop) :
  P JNull -> (forall b, P (JBool b)) -> (forall n, P (JNumber n)) ->
  (forall s, P (JString s)) ->
  (forall items, Forall P items -> P (JArray items)) ->
  (forall fields, Forall (fun kv => P (snd kv)) fields -> P (JObject fields)) ->
  forall v, P v.
Proof.
  intros Hnull Hbool Hnum Hstr Harr Hobj.
  fix IH 1. intros [|b|n|s|items|fields].
  - exact Hnull.
  - apply Hbool.
  - apply Hnum.
  - apply Hstr.
  - apply Harr. induction items as [|x items IHitems]; constructor.
    + apply IH.
    + exact IHitems.
  - apply Hobj. induction fields as [|[k x] fields IHfields]; constructor.
    + apply IH.
    + exact IHfields.
Qed.

Lemma skip_ws_head (c : ascii) (r : string) :
  Json.is_ws c = false -> Json.skip_ws (String c r) = String c r.
Proof. intros Hc. cbn [Json.skip_ws]. now rewrite Hc. Qed.

Lemma skip_ws_blank (pad s : string) :
  blank pad = true -> Json.skip_ws (pad +:+ s) = Json.skip_ws s.
Proof.
  induction pad as [|c pad IH]; [reflexivity|]. cbn [blank]. intros Hpad.
  apply andb_true_iff in Hpad as [Hc Hpad].
  change (String c pad +:+ s) with (String c (pad +:+ s)).
  cbn [Json.skip_ws]. rewrite Hc. now apply IH.
Qed.

Lemma skip_ws_all_blank (pad : string) :
  blank pad = true -> Json.skip_ws pad = "".
Proof.
  intros Hpad. rewrite <- (append_empty_r pad). now rewrite skip_ws_blank.
Qed.


Lemma blank_ends_number (pad : string) : blank pad = true -> ends_number pad = true.
Proof.
  destruct pad as [|c r]; [reflexivity|]. cbn [blank]. intros Hpad.
  apply andb_true_iff in Hpad as [Hc _]. revert Hc.
  each_char c; intros Hc; try discriminate Hc; reflexivity.
Qed.

Lemma read_value_skip_ws (fuel : nat) (s s' : string) :
  Json.skip_ws s = Json.skip_ws s' -> Json.read_value fuel s = Json.read_value fuel s'.
Proof. intros Heq. destruct fuel; [reflexivity|]. cbn [Json.read_value]. now rewrite Heq. Qed.

Lemma expect_word (word : string) (v : value) (rest : string) :
  Json.expect word v (word +:+ rest) = Some (v, rest).
Proof.
  unfold Json.expect. rewrite prefix_append.
  pose proof (prefix_split word (word +:+ rest) (prefix_append word rest)) as Hsplit.
  apply append_inj in Hsplit. now rewrite <- Hsplit.
Qed.

Lemma stringify_head (v : value) :
  exists (c : ascii) (r : string),
    Json.stringify v = String c r /\ opens_value c = true.
Proof.
  destruct v as [|[]|n|s|items|fields]; try (eexists _, _; split; reflexivity).
  cbn [Json.stringify].
  destruct (Z_toString_head n) as (c & r & -> & Hc).
  exists c, r. split; [reflexivity|]. revert Hc.
  each_char c; intros Hc; try discriminate Hc; reflexivity.
Qed.

Lemma set_field_fresh {V : Type} (key : string) (x : V) (acc : list (string * V)) :
  existsb (String.eqb key) (List.map fst acc) = false ->
  set_field key x acc = acc ++ [(key, x)].
Proof.
  induction acc as [|[k y] acc IH]; [reflexivity|].
  cbn [List.map fst existsb set_field app]. intros Hfresh.
  apply orb_false_elim in Hfresh as [Hk Hacc].
  rewrite String.eqb_sym, Hk. now rewrite IH.
Qed.

Lemma distinct_middle (before : list string) (key : string) (later : list string) :
  distinct (before ++ key :: later) = true ->
  existsb (String.eqb key) before = false.
Proof.
  induction before as [|k before IH]; [reflexivity|].
  cbn [app distinct existsb]. intros Hd.
  apply andb_true_iff in Hd as [Hk Hd]. apply negb_true_iff in Hk.
  rewrite existsb_app in Hk. apply orb_false_elim in Hk as [_ Hk].
  cbn [existsb] in Hk. apply orb_false_elim in Hk as [Hk _].
  rewrite String.eqb_sym, Hk. now apply IH.
Qed.

Lemma read_elements_items (items : list value) :
  Forall reads_back items -> items <> [] ->
  forall (acc : list value) (fuel : nat) (rest : string),
    list_sum (List.map (fun x => S (weight x)) items) <= fuel ->
    Json.read_elements fuel acc
      (Str.join "," (List.map Json.stringify items) +:+ String "]" rest)
    = Some (JArray (acc ++ items), rest).
Proof.
  induction 1 as [|x items Hx Hitems IH]; [congruence|]. intros _ acc fuel rest Hfuel.
  cbn [List.map list_sum fold_right] in Hfuel.
  destruct fuel as [|fuel]; [lia|]. cbn [Json.read_elements].
  destruct items as [|y items].
  - cbn [List.map Str.join].
    rewrite (Hx fuel (String "]" rest)) by first [lia | reflexivity].
    rewrite (skip_ws_head "]" _ eq_refl). reflexivity.
  - change (Str.join "," (List.map Json.stringify (x :: y :: items)))
      with (Json.stringify x +:+ "," +:+ Str.join "," (List.map Json.stringify (y :: items))).
    rewrite append_assoc.
    change (("," +:+ Str.join "," (List.map Json.stringify (y :: items)))
            +:+ String "]" rest)
      with (String ","
              (Str.join "," (List.map Json.stringify (y :: items)) +:+ String "]" rest)).
    rewrite (Hx fuel _) by first [lia | reflexivity].
    rewrite (skip_ws_head "," _ eq_refl). cbv beta iota.
    change (Ascii.eqb "," ",") with true. cbv iota.
    rewrite IH by first [discriminate | cbn [List.map list_sum fold_right] in *; lia].
    now rewrite <- app_assoc.
Qed.

Lemma read_members_fields (fields : list (string * value)) :
  Forall (fun kv => reads_back (snd kv)) fields -> fields <> [] ->
  forall (acc : list (string * value)) (fuel : nat) (rest : string),
    distinct (List.map fst (acc ++ fields)) = true ->
    list_sum (List.map (fun kv : string * value => let '(_, x) := kv in S (weight x))
                       fields) <= fuel ->
    Json.read_members fuel acc
      (Str.join ","
         (List.map (fun kv : string * value =>
                      let '(k, x) := kv in Json.quote k +:+ ":" +:+ Json.stringify x)
                   fields)
       +:+ String "}" rest)
    = Some (JObject (acc ++ fields), rest).
Proof.
  induction 1 as [|[k x] fields Hx Hfields IH]; [congruence|].
  intros _ acc fuel rest Hdistinct Hfuel. cbn [snd] in Hx.
  cbn [List.map list_sum fold_right] in Hfuel.
  destruct fuel as [|fuel]; [lia|].
  assert (Hfresh : set_field k x acc = acc ++ [(k, x)]).
  { apply set_field_fresh. rewrite List.map_app in Hdistinct.
    now apply distinct_middle in Hdistinct. }
  assert (Hnext : distinct (List.map fst ((acc ++ [(k, x)]) ++ fields)) = true)
    by now rewrite <- app_assoc.
  assert (Hmember : forall tail : string,
             ends_number tail = true ->
             exists text : string,
               (Json.quote k +:+ ":" +:+ Json.stringify x) +:+ tail
               = String Json.dquote text
               /\ Json.read_string text
                  = Some (k, String ":" (Json.stringify x +:+ tail))).
  { intros tail _.
    destruct (read_string_quote k (String ":" (Json.stringify x +:+ tail)))
      as (text & Htext & Hread).
    exists text. split; [|exact Hread]. rewrite <- Htext.
    rewrite !append_assoc. reflexivity. }
  cbn [Json.read_members].
  destruct fields as [|kv fields].
  - cbn [List.map Str.join].
    destruct (Hmember (String "}" rest) eq_refl) as (text & -> & Hread).
    rewrite (skip_ws_head Json.dquote _ eq_refl). cbv beta iota.
    change (Ascii.eqb Json.dquote Json.dquote) with true. cbv iota.
    rewrite Hread. rewrite (skip_ws_head ":" _ eq_refl). cbv beta iota.
    change (Ascii.eqb ":" ":") with true. cbv iota.
    rewrite (Hx fuel (String "}" rest)) by first [lia | reflexivity].
    rewrite (skip_ws_head "}" _ eq_refl). cbv beta iota.
    change (Ascii.eqb "}" ",") with false. change (Ascii.eqb "}" "}") with true.
    cbv iota. now rewrite Hfresh.
  - set (members := Str.join "," (List.map _ (kv :: fields))) in *.
    change (Str.join "," (List.map _ ((k, x) :: kv :: fields)))
      with ((Json.quote k +:+ ":" +:+ Json.stringify x) +:+ "," +:+ members).
    rewrite append_assoc.
    change (("," +:+ members) +:+ String "}" rest)
      with (String "," (members +:+ String "}" rest)).
    destruct (Hmember (String "," (members +:+ String "}" rest)) eq_refl)
      as (text & -> & Hread).
    rewrite (skip_ws_head Json.dquote _ eq_refl). cbv beta iota.
    change (Ascii.eqb Json.dquote Json.dquote) with true. cbv iota.
    rewrite Hread. rewrite (skip_ws_head ":" _ eq_refl). cbv beta iota.
    change (Ascii.eqb ":" ":") with true. cbv iota.
    rewrite (Hx fuel _) by first [lia | reflexivity].
    rewrite (skip_ws_head "," _ eq_refl). cbv beta iota.
    change (Ascii.eqb "," ",") with true. cbv iota.
    rewrite Hfresh. unfold members.
    rewrite IH by first [discriminate | exact Hnext | cbn [List.map list_sum fold_right] in *; lia].
    now rewrite <- app_assoc.
Qed.

Lemma json_safe_reads_back (v : value) : json_safe v = true -> reads_back v.
Proof.
  induction v as [|b|n|s|items IH|fields IH] using value_nested_ind;
    intros Hsafe fuel rest Hfuel Hrest;
    (destruct fuel as [|fuel]; [cbn [weight] in Hfuel; lia|]).
  - cbn [Json.read_value Json.stringify].
    change ("null" +:+ rest) with (String "n" ("ull" +:+ rest)).
    rewrite (skip_ws_head "n" _ eq_refl). cbv beta iota.
    change (String "n" ("ull" +:+ rest)) with ("null" +:+ rest).
    cbn [Ascii.eqb Bool.eqb]. cbv iota. change (Ascii.eqb "n" Json.dquote) with false.
    cbv iota. apply expect_word.
  - destruct b; cbn [Json.read_value Json.stringify].
    + change ("true" +:+ rest) with (String "t" ("rue" +:+ rest)).
      rewrite (skip_ws_head "t" _ eq_refl). cbv beta iota.
      change (String "t" ("rue" +:+ rest)) with ("true" +:+ rest).
      cbn [Ascii.eqb Bool.eqb]. cbv iota. change (Ascii.eqb "t" Json.dquote) with false.
      cbv iota. apply expect_word.
    + change ("false" +:+ rest) with (String "f" ("alse" +:+ rest)).
      rewrite (skip_ws_head "f" _ eq_refl). cbv beta iota.
      change (String "f" ("alse" +:+ rest)) with ("false" +:+ rest).
      cbn [Ascii.eqb Bool.eqb]. cbv iota. change (Ascii.eqb "f" Json.dquote) with false.
      cbv iota. apply expect_word.
  - cbn [Json.read_value Json.stringify].
    pose proof (read_number_Z_toString n rest Hrest) as Hread.
    destruct (Z_toString_head n) as (c & r & Hstr & Hc).
    rewrite Hstr in *. change (String c r +:+ rest) with (String c (r +:+ rest)) in *.
    assert (Hshape : Json.is_ws c = false /\ Ascii.eqb c "[" = false
                     /\ Ascii.eqb c "{" = false /\ Ascii.eqb c Json.dquote = false
                     /\ Ascii.eqb c "t" = false /\ Ascii.eqb c "f" = false
                     /\ Ascii.eqb c "n" = false).
    { revert Hc. clear. each_char c; intros Hc; try discriminate Hc; repeat split. }
    destruct Hshape as (Hws & H1 & H2 & H3 & H4 & H5 & H6).
    rewrite (skip_ws_head c _ Hws). cbv beta iota.
    rewrite H1, H2, H3, H4, H5, H6, Hread. reflexivity.
  - cbn [Json.read_value Json.stringify].
    destruct (read_string_quote s rest) as (text & -> & Hread).
    rewrite (skip_ws_head Json.dquote _ eq_refl). cbv beta iota.
    change (Ascii.eqb Json.dquote "[") with false.
    change (Ascii.eqb Json.dquote "{") with false.
    change (Ascii.eqb Json.dquote Json.dquote) with true. cbv iota.
    now rewrite Hread.
  - cbn [json_safe] in Hsafe. cbn [weight] in Hfuel.
    assert (Hitems : Forall reads_back items).
    { rewrite Forall_forall in IH. apply Forall_forall. intros x Hin.
      apply IH; [exact Hin|]. rewrite forallb_forall in Hsafe. apply Hsafe.
      now apply list_elem_of_In. }
    cbn [Json.read_value Json.stringify].
    set (texts := Str.join "," (List.map Json.stringify items)).
    change (("[" +:+ texts +:+ "]") +:+ rest)
      with (String "[" ((texts +:+ "]") +:+ rest)).
    rewrite append_assoc. change ("]" +:+ rest) with (String "]" rest).
    rewrite (skip_ws_head "[" _ eq_refl). cbv beta iota.
    change (Ascii.eqb "[" "[") with true. cbv iota.
    destruct items as [|x items].
    + change (texts +:+ String "]" rest) with (String "]" rest).
      rewrite (skip_ws_head "]" _ eq_refl). reflexivity.
    + destruct (stringify_head x) as (c & r & Hhead & Hopen).
      assert (Htexts : texts = String c (Str.join "," (r :: List.map Json.stringify items))).
      { unfold texts. cbn [List.map]. rewrite Hhead. apply join_cons_char. }
      unfold opens_value in Hopen.
      apply andb_true_iff in Hopen as [Hopen _].
      apply andb_true_iff in Hopen as [Hws Hclose].
      apply negb_true_iff in Hws, Hclose.
      assert (Hskip : Json.skip_ws (texts +:+ String "]" rest)
                      = String c (Str.join "," (r :: List.map Json.stringify items)
                                  +:+ String "]" rest)).
      { rewrite Htexts.
        change (String c ?t +:+ String "]" rest) with (String c (t +:+ String "]" rest)).
        now apply skip_ws_head. }
      rewrite Hskip, Hclose.
      unfold texts.
      now rewrite (read_elements_items (x :: items) Hitems) by first [discriminate | lia].
  - cbn [json_safe] in Hsafe. cbn [weight] in Hfuel.
    apply andb_true_iff in Hsafe as [Hsafe Hdistinct].
    assert (Hfields : Forall (fun kv => reads_back (snd kv)) fields).
    { rewrite Forall_forall in IH. apply Forall_forall. intros [k x] Hin.
      apply (IH (k, x)); [exact Hin|]. rewrite forallb_forall in Hsafe.
      apply list_elem_of_In in Hin. specialize (Hsafe (k, x) Hin). cbn in Hsafe.
      now apply andb_true_iff in Hsafe as [_ Hsafe]. }
    cbn [Json.read_value Json.stringify].
    set (texts := Str.join "," (List.map _ fields)).
    change (("{" +:+ texts +:+ "}") +:+ rest)
      with (String "{" ((texts +:+ "}") +:+ rest)).
    rewrite append_assoc. change ("}" +:+ rest) with (String "}" rest).
    rewrite (skip_ws_head "{" _ eq_refl). cbv beta iota.
    change (Ascii.eqb "{" "[") with false. change (Ascii.eqb "{" "{") with true.
    cbv iota.
    destruct fields as [|[k x] fields].
    + change (texts +:+ String "}" rest) with (String "}" rest).
      rewrite (skip_ws_head "}" _ eq_refl). reflexivity.
    + assert (Hskip : exists tail, Json.skip_ws (texts +:+ String "}" rest)
                                   = String Json.dquote tail).
      { unfold texts. cbn [List.map]. unfold Json.quote at 1.
        change (String Json.dquote (Json.escape k) +:+ String Json.dquote "")
          with (String Json.dquote (Json.escape k +:+ String Json.dquote "")).
        change (String Json.dquote (Json.escape k +:+ String Json.dquote "")
                +:+ ":" +:+ Json.stringify x)
          with (String Json.dquote ((Json.escape k +:+ String Json.dquote "")
                                    +:+ ":" +:+ Json.stringify x)).
        rewrite join_cons_char.
        match goal with
        | |- context [String Json.dquote ?t +:+ String "}" rest] =>
            change (String Json.dquote t +:+ String "}" rest)
              with (String Json.dquote (t +:+ String "}" rest))
        end.
        eexists. now apply skip_ws_head. }
      destruct Hskip as (tail & ->).
      change (Ascii.eqb Json.dquote "}") with false. cbv iota.
      unfold texts.
      now rewrite (read_members_fields ((k, x) :: fields) Hfields)
        by first [discriminate | exact Hdistinct | lia].
Qed.

(** *** The fuel of [parse] is enough *)

Lemma join_cons_cons (sep a b : string) (l : list string) :
  Str.join sep (a :: b :: l) = a +:+ sep +:+ Str.join sep (b :: l).
Proof. reflexivity. Qed.

Lemma join_length_items (items : list value) :
  Forall (fun x => weight x <= String.length (Json.stringify x)) items ->
  list_sum (List.map (fun x => S (weight x)) items)
  <= S (String.length (Str.join "," (List.map Json.stringify items))).
Proof.
  unfold list_sum.
  induction 1 as [|x items Hx Hitems IH]; [cbn; lia|].
  destruct items as [|y items].
  - cbn [List.map Str.join fold_right]. lia.
  - cbn [List.map fold_right] in *. rewrite join_cons_cons, !append_length.
    cbn [String.length]. lia.
Qed.

Lemma join_length_fields (fields : list (string * value)) :
  Forall (fun kv => weight (snd kv) <= String.length (Json.stringify (snd kv))) fields ->
  list_sum (List.map (fun kv : string * value => let '(_, x) := kv in S (weight x))
                     fields)
  <= S (String.length
          (Str.join ","
             (List.map (fun kv : string * value =>
                          let '(k, x) := kv in
                          Json.quote k +:+ ":" +:+ Json.stringify x)
                       fields))).
Proof.
  unfold list_sum.
  induction 1 as [|[k x] fields Hx Hfields IH]; [cbn; lia|].
  cbn [snd] in Hx.
  destruct fields as [|[k' x'] fields].
  - cbn [List.map Str.join fold_right]. rewrite !append_length. lia.
  - cbn [List.map fold_right] in *. rewrite join_cons_cons, !append_length.
    cbn [String.length] in *. lia.
Qed.

Lemma weight_le_length (v : value) : weight v <= String.length (Json.stringify v).
Proof.
  induction v as [|b|n|s|items IH|fields IH] using value_nested_ind.
  - cbn. lia.
  - destruct b; cbn; lia.
  - cbn [weight Json.stringify].
    destruct (Z_toString_head n) as (c & r & -> & _). cbn [String.length]. lia.
  - cbn [weight Json.stringify]. unfold Json.quote.
    change (String Json.dquote (Json.escape s) +:+ String Json.dquote "")
      with (String Json.dquote (Json.escape s +:+ String Json.dquote "")).
    cbn [String.length]. lia.
  - cbn [weight Json.stringify]. pose proof (join_length_items items IH) as Hsum.
    rewrite !append_length. cbn [String.length]. lia.
  - cbn [weight Json.stringify]. pose proof (join_length_fields fields IH) as Hsum.
    rewrite !append_length. cbn [String.length]. lia.
Qed.

(** [JSON.parse] gives back a safe value from its serialization, with
    white space before and after it. *)
Lemma parse_stringify (v : value) (pad pad' : string) :
  json_safe v = true -> blank pad = true -> blank pad' = true ->
  Json.parse (pad +:+ Json.stringify v +:+ pad') = Some v.
Proof.
  intros Hsafe Hpad Hpad'. unfold Json.parse.
  rewrite (read_value_skip_ws _ _ (Json.stringify v +:+ pad'))
    by now apply skip_ws_blank.
  rewrite (json_safe_reads_back v Hsafe).
  - now rewrite skip_ws_all_blank.
  - pose proof (weight_le_length v). rewrite !append_length. lia.
  - now apply blank_ends_number.
Qed.


(** A text that does not begin as a JSON value is no JSON text. *)
Lemma parse_not_value (text : string) :
  starts_value text = false -> Json.parse text = None.
Proof.
  unfold starts_value, Json.parse. intros Hstart.
  replace (2 * String.length text + 2) with (S (2 * String.length text + 1)) by lia.
  cbn [Json.read_value].
  destruct (Json.skip_ws text) as [|c r]; [reflexivity|].
  repeat (apply orb_false_elim in Hstart as [Hstart ?]).
  rewrite Hstart. 
  match goal with H : Ascii.eqb c "{" = false |- _ => rewrite H end.
  match goal with H : Ascii.eqb c Json.dquote = false |- _ => rewrite H end.
  unfold Json.expect.
  match goal with H : String.prefix "true" _ = false |- _ => rewrite H end.
  match goal with H : String.prefix "false" _ = false |- _ => rewrite H end.
  match goal with H : String.prefix "null" _ = false |- _ => rewrite H end.
  assert (Hnumber : Json.read_number (String c r) = None).
  { unfold Json.read_number.
    match goal with H : Ascii.eqb c "-" = false |- _ => rewrite H end.
    unfold Json.read_natural.
    match goal with H : Json.is_digit c = false |- _ => rewrite H end.
    destruct (Ascii.eqb_spec c "0") as [->|]; [discriminate|reflexivity]. }
  rewrite Hnumber. now repeat destruct (Ascii.eqb c _).
Qed.

(** ** Input Accumulator: the json mode *)



(** ** Gateway View *)

Lemma canon_prefixed_eq (key other : string) :
  canonHeader (Gateway.prefix +:+ key) = Gateway.prefix +:+ other
  -> canonHeader key = other.
Proof. rewrite canonHeader_prefix. intros Heq. now inversion Heq. Qed.

(** ** Result Encoder *)

Lemma for_each_setHeader (l : list (string * list string)) (w : World) :
  resp_headersSent (w_resp w) = false ->
  for_each l (fun kv => on_resp (Resp.setHeader (fst kv) (HList (snd kv)))) w
  = (Normal tt,
     set_resp (Resp.set_headers (fold_left add_header l (resp_headers (w_resp w)))
                                (w_resp w)) w).
Proof.
  revert w. induction l as [|kv l IH]; intros w Hsent.
  - destruct w as [ctx [hs code msg sent body ends] calls un]. reflexivity.
  - simpl for_each. unfold bind at 1.
    unfold on_resp at 1, zoom, Resp.setHeader. rewrite Hsent.
    rewrite IH by exact Hsent. reflexivity.
Qed.

(** The state of the transport once [n] chunks more are written. *)
Lemma write_result_committed (isJSON : bool) (result : Result)
  (ctx : Context) (hs : gmap string (string * header_value)) (code : Z)
  (msg : string) (body : list string) (calls : nat) (un : list string) :
  write_result isJSON result
    {| w_ctx := ctx;
       w_resp := {| resp_headers := hs; resp_statusCode := code;
                    resp_statusMessage := msg; resp_headersSent := true;
                    resp_body := body; resp_ends := 0 |};
       w_calls := calls; w_unhandled := un |}
  = let after written :=
      {| w_ctx := ctx;
         w_resp := {| resp_headers := hs; resp_statusCode := code;
                      resp_statusMessage := msg; resp_headersSent := true;
                      resp_body := body ++ written; resp_ends := 0 |};
         w_calls := calls; w_unhandled := un |} in
    match payload isJSON result with
    | Normal written => (Normal tt, after written)
    | Throw e => (Throw e, after [])
    end.
Proof.
  unfold write_result, payload. cbv zeta.
  destruct result as [|v|bytes|data|n]; [| destruct v | | |];
    destruct isJSON; simpl; rewrite ?app_nil_r; reflexivity.
Qed.

Ltac resp_step :=
  unfold bind at 1; unfold on_resp at 1; unfold zoom;
  first [unfold Resp.setHeader | unfold Resp.removeHeader | unfold Resp.writeHead];
  simpl.

Lemma sendResult_unsent `{RT : Runtime} (result : Result) (w : World) :
  resp_headersSent (w_resp w) = false -> resp_ends (w_resp w) = 0 ->
  sendResult result w =
  let ctx' := typed_ctx (w_ctx w) result in
  match payload (marks_json (w_ctx w) result) result with
  | Normal written =>
      (Normal tt, set_resp (committed ctx' (w_resp w) written 1) (set_ctx ctx' w))
  | Throw e =>
      (Throw e, set_resp (committed ctx' (w_resp w) [] 0) (set_ctx ctx' w))
  end.
Proof.
  destruct w as [ctx [hs code msg sent body ends] calls un]. simpl.
  intros -> ->.
  unfold sendResult, marks_json, typed_ctx.
  unfold bind at 1. unfold get at 1. cbv beta iota zeta. simpl w_ctx.
  destruct (negb (truthy (responseContentType ctx)) && not_null result) eqn:Hdef.
  - unfold bind at 1. unfold bind at 1. unfold on_ctx at 1, modify, ret at 1.
    unfold bind at 1. unfold get at 1.
    unfold bind at 1. rewrite for_each_setHeader by reflexivity.
    do 4 resp_step.
    unfold bind at 1. unfold set_resp, set_ctx, Resp.set_headers. simpl.
    rewrite write_result_committed. cbv zeta.
    unfold committed, sent_headers. simpl.
    destruct (payload true result); reflexivity.
  - unfold bind at 1. unfold ret at 1.
    unfold bind at 1. unfold get at 1.
    unfold bind at 1. rewrite for_each_setHeader by reflexivity.
    do 4 resp_step.
    unfold bind at 1. unfold set_resp, set_ctx, Resp.set_headers. simpl.
    rewrite write_result_committed. cbv zeta.
    unfold committed, sent_headers. simpl.
    destruct (payload _ result); reflexivity.
Qed.

Lemma sendResult_once `{RT : Runtime} (result : Result) (w : World) (written : list string) :
  resp_headersSent (w_resp w) = false -> resp_ends (w_resp w) = 0 ->
  payload (marks_json (w_ctx w) result) result = Normal written ->
  fst (sendResult result w) = Normal tt
  /\ resp_ends (w_resp (snd (sendResult result w))) = 1
  /\ resp_body (w_resp (snd (sendResult result w))) = resp_body (w_resp w) ++ written
  /\ resp_statusCode (w_resp (snd (sendResult result w))) = 200%Z
  /\ w_ctx (snd (sendResult result w)) = typed_ctx (w_ctx w) result.
Proof.
  intros Hsent Hends Hpay. rewrite sendResult_unsent by assumption.
  cbv zeta. rewrite Hpay. repeat split.
Qed.

(** C2 (as stated, refuted): with no explicit content-type, a [RawResult]
    wrapper is marked as JSON like any other value, but its bytes are
    written as they are, not their JSON serialization. *)
Lemma sendResult_raw_wrapper_verbatim :
  let w := new_World (new_Context ∅ (BodyValue JNull) ∅) new_ServerResponse in
  let w' := snd (sendResult (RT := node18) (RRaw "abc") w) in
  responseContentType (w_ctx w) = None
  /\ not_null (RRaw "abc") = true
  /\ JSON_stringify (RRaw "abc") = Normal (Some (Json.dq "{'data':'abc'}"))
  /\ resp_body (w_resp w') = ["abc"]
  /\ resp_body (w_resp w') <> [Json.dq "{'data':'abc'}"].
Proof. repeat split. vm_compute. discriminate. Qed.

(** C2 (amended): for every result that is not empty, not a [RawResult]
    wrapper and that [JSON.stringify] serializes, when no explicit
    content-type is set the encoder marks JSON: it sets the content-type of
    the context to application/json, writes the JSON serialization of the
    value as the body, and ends the response once, with status 200. On a new
    response the object with [x] equal to 1 is written as that object, and
    the string [plain] is written quoted. *)
Theorem sendResult_defaults_to_JSON `{RT : Runtime} (result : Result) (text : string)
  (w : World) :
  (responseContentType (w_ctx w) = None ->
   not_null result = true ->
   is_FnResult result = false ->
   JSON_stringify result = Normal (Some text) ->
   resp_headersSent (w_resp w) = false ->
   resp_ends (w_resp w) = 0 ->
   fst (sendResult result w) = Normal tt
   /\ responseContentType (w_ctx (snd (sendResult result w)))
      = Some "application/json"
   /\ resp_body (w_resp (snd (sendResult result w))) = resp_body (w_resp w) ++ [text]
   /\ resp_ends (w_resp (snd (sendResult result w))) = 1
   /\ resp_statusCode (w_resp (snd (sendResult result w))) = 200%Z)
  /\ (responseContentType (w_ctx w) = None ->
      resp_body (w_resp (snd (sendResult (RValue (JObject [("x", JNumber 1)]))
                                (set_resp new_ServerResponse w))))
      = [Json.dq "{'x':1}"]
      /\ resp_body (w_resp (snd (sendResult (RValue (JString "plain"))
                                   (set_resp new_ServerResponse w))))
         = [Json.dq "'plain'"]).
Proof.
  assert (Hgen : forall (result : Result) (text : string) (w : World),
    responseContentType (w_ctx w) = None ->
    not_null result = true ->
    is_FnResult result = false ->
    JSON_stringify result = Normal (Some text) ->
    resp_headersSent (w_resp w) = false ->
    resp_ends (w_resp w) = 0 ->
    fst (sendResult result w) = Normal tt
    /\ responseContentType (w_ctx (snd (sendResult result w)))
       = Some "application/json"
    /\ resp_body (w_resp (snd (sendResult result w))) = resp_body (w_resp w) ++ [text]
    /\ resp_ends (w_resp (snd (sendResult result w))) = 1
    /\ resp_statusCode (w_resp (snd (sendResult result w))) = 200%Z).
  { clear result text w. intros result text w Hct Hnn Hfn Hjs Hsent Hends.
    assert (Hmark : marks_json (w_ctx w) result = true)
      by (unfold marks_json; now rewrite Hct, Hnn).
    assert (Hpay : payload (marks_json (w_ctx w) result) result = Normal [text]).
    { rewrite Hmark. unfold payload. rewrite Hnn, Hjs.
      destruct result; try reflexivity; discriminate. }
    destruct (sendResult_once result w [text] Hsent Hends Hpay)
      as (Hc & He & Hb & Hs & Hx).
    repeat split; try assumption.
    rewrite Hx. unfold typed_ctx. now rewrite Hct, Hnn. }
  split; [apply Hgen|].
  intros Hct. split.
  - destruct (Hgen (RValue (JObject [("x", JNumber 1)])) (Json.dq "{'x':1}")
                (set_resp new_ServerResponse w)) as (_ & _ & Hb & _);
      try reflexivity; [destruct w; exact Hct|exact Hb].
  - destruct (Hgen (RValue (JString "plain")) (Json.dq "'plain'")
                (set_resp new_ServerResponse w)) as (_ & _ & Hb & _);
      try reflexivity; [destruct w; exact Hct|exact Hb].
Qed.

Lemma sendResult_defaults_to_JSON_witness :
  let w := new_World (new_Context ∅ (BodyValue JNull) ∅) new_ServerResponse in
  let w' := snd (sendResult (RT := node18) (RValue (JString "plain")) w) in
  responseContentType (w_ctx w') = Some "application/json"
  /\ resp_body (w_resp w') = [] ++ [Json.dq "'plain'"]
  /\ resp_ends (w_resp w') = 1.
Proof.
  cbv zeta.
  pose proof (sendResult_defaults_to_JSON (RT := node18)
                (RValue (JString "plain")) (Json.dq "'plain'")
                (new_World (new_Context ∅ (BodyValue JNull) ∅) new_ServerResponse))
    as [Hthm _].
  destruct (Hthm eq_refl eq_refl eq_refl eq_refl eq_refl eq_refl)
    as (_ & Hct & Hbody & Hends & _).
  split; [exact Hct|]. split; [exact Hbody|exact Hends].
Defined.


(** ** Gateway View on the transport *)

Lemma typed_ctx_responseHeaders (ctx : Context) (result : Result) :
  responseHeaders (typed_ctx ctx result) = responseHeaders ctx.
Proof. unfold typed_ctx. now destruct (_ && _). Qed.

Lemma sendResult_headers `{RT : Runtime} (result : Result) (w : World) :
  resp_headersSent (w_resp w) = false -> resp_ends (w_resp w) = 0 ->
  resp_headers (w_resp (snd (sendResult result w))) = sent_headers (w_ctx w) (w_resp w).
Proof.
  intros Hsent Hends. rewrite sendResult_unsent by assumption. cbv zeta.
  destruct (payload _ result); simpl; unfold sent_headers;
    now rewrite typed_ctx_responseHeaders.
Qed.

Lemma prefixed_not_reserved (x reserved : string) :
  String.get 3 reserved <> Some "h"%char ->
  reserved <> Str.toLowerCase (Gateway.prefix +:+ x).
Proof. intros Hget Heq. apply Hget. rewrite Heq. reflexivity. Qed.

Lemma sent_gateway_header `{RT : Runtime} (name : string) (values : list string)
  (resp : ServerResponse) (ctx : Context) :
  responseHeaders ctx = {[Gateway.prefix +:+ name := values]} ->
  snd <$> sent_headers ctx resp !! Str.toLowerCase (Gateway.prefix +:+ name)
  = Some (HList values).
Proof.
  intros Hhs. unfold sent_headers. rewrite Hhs, map_to_list_singleton.
  simpl fold_left. unfold add_header. simpl fst. simpl snd.
  rewrite lookup_insert_ne by (apply prefixed_not_reserved; discriminate).
  rewrite lookup_insert_ne by (apply prefixed_not_reserved; discriminate).
  rewrite lookup_delete_ne by (apply prefixed_not_reserved; discriminate).
  now rewrite lookup_insert_eq.
Qed.

(** The content-type of the context is a field that [sendResult] sets and
    tests but does not write to the transport: on a new response, a context
    without response headers sends no Content-Type header, whatever the
    result and the content-type. *)
Lemma sendResult_content_type_not_sent `{RT : Runtime} (result : Result) (w : World) :
  responseHeaders (w_ctx w) = ∅ ->
  Resp.header "Content-Type"
    (w_resp (snd (sendResult result (set_resp new_ServerResponse w)))) = None.
Proof.
  intros Hnone. unfold Resp.header.
  rewrite sendResult_headers by reflexivity.
  unfold sent_headers. destruct w as [ctx r calls un].
  cbn [w_ctx set_resp w_resp] in *. rewrite Hnone, map_to_list_empty.
  reflexivity.
Qed.

(** C9: on the Gateway View, [setResponseHeader] with a name whose canonical
    form is not Content-Type stores the values under the prefixed canonical
    name and leaves the content-type slot as it was, and on a new context
    and a new response the transport then carries that prefixed header with
    those values, whatever the result; with a name whose canonical form is
    Content-Type it sets the slot to the first value and leaves the response
    headers as they were. In both cases the entry of the prefixed
    Content-Type header is untouched. [setResponseHeader("X-Foo", "bar")]
    makes the header Fn-Http-H-X-Foo: bar. *)
Theorem Gateway_setResponseHeader_exclusive `{RT : Runtime}
  (key : string) (values : list string) (ctx : Context) :
  (canonHeader key <> "Content-Type" ->
     responseHeaders (Gateway.setResponseHeader key values ctx)
     = <[Gateway.prefix +:+ canonHeader key := values]> (responseHeaders ctx)
     /\ responseContentType (Gateway.setResponseHeader key values ctx)
        = responseContentType ctx
     /\ (responseHeaders ctx = ∅ ->
         forall result : Result,
           Resp.header (Gateway.prefix +:+ canonHeader key)
             (w_resp (snd (sendResult result
                             (new_World (Gateway.setResponseHeader key values ctx)
                                        new_ServerResponse))))
           = Some (HList values)))
  /\ (canonHeader key = "Content-Type" ->
        responseContentType (Gateway.setResponseHeader key values ctx)
        = List.head values
        /\ responseHeaders (Gateway.setResponseHeader key values ctx)
           = responseHeaders ctx)
  /\ responseHeaders (Gateway.setResponseHeader key values ctx)
       !! "Fn-Http-H-Content-Type"
     = responseHeaders ctx !! "Fn-Http-H-Content-Type"
  /\ responseHeaders (Gateway.setResponseHeader "X-Foo" ["bar"] ctx)
       !! "Fn-Http-H-X-Foo"
     = Some ["bar"].
Proof.
  unfold Gateway.setResponseHeader.
  destruct (String.eqb_spec (canonHeader key) "Content-Type") as [Heq|Hne].
  - repeat split; try reflexivity; try congruence.
    simpl. now rewrite lookup_insert_eq.
  - assert (Hhs : responseHeaders (Ctx.setResponseHeader (Gateway.prefix +:+ key) values ctx)
                  = <[Gateway.prefix +:+ canonHeader key := values]> (responseHeaders ctx))
      by (unfold Ctx.setResponseHeader; simpl; now rewrite canonHeader_prefix).
    split; [|split; [congruence|split]].
    + intros _. split; [exact Hhs|]. split; [reflexivity|].
      intros Hempty result. unfold Resp.header.
      rewrite sendResult_headers by reflexivity.
      apply sent_gateway_header. simpl w_ctx.
      rewrite Hhs, Hempty. apply insert_empty.
    + rewrite Hhs. apply lookup_insert_ne.
      intros Heq. apply Hne. injection Heq as Heq. exact Heq.
    + simpl. now rewrite lookup_insert_eq.
Qed.

Lemma Gateway_setResponseHeader_exclusive_witness :
  let ctx := new_Context ∅ (BodyValue JNull) ∅ in
  (responseHeaders (Gateway.setResponseHeader "x_foo" ["bar"] ctx)
   = <[Gateway.prefix +:+ canonHeader "x_foo" := ["bar"]]> (responseHeaders ctx)
   /\ Resp.header (Gateway.prefix +:+ canonHeader "x_foo")
        (w_resp (snd (sendResult (RT := node18) (RValue (JString "ok"))
                        (new_World (Gateway.setResponseHeader "x_foo" ["bar"] ctx)
                                   new_ServerResponse))))
      = Some (HList ["bar"]))
  /\ responseContentType (Gateway.setResponseHeader "content_type" ["text/plain"] ctx)
     = List.head ["text/plain"]
  /\ responseHeaders (Gateway.setResponseHeader "content_type" ["text/plain"] ctx)
     = responseHeaders ctx.
Proof.
  cbv zeta.
  pose proof (Gateway_setResponseHeader_exclusive (RT := node18) "x_foo" ["bar"]
                (new_Context ∅ (BodyValue JNull) ∅)) as [Hother _].
  pose proof (Gateway_setResponseHeader_exclusive (RT := node18) "content_type"
                ["text/plain"] (new_Context ∅ (BodyValue JNull) ∅)) as [_ [Hct _]].
  destruct Hother as (Hhs & _ & Hsent); [discriminate|].
  destruct Hct as [Hslot Hsame]; [reflexivity|].
  split; [split; [exact Hhs|exact (Hsent eq_refl _)]|].
  split; assumption.
Defined.

(** C10: on the Gateway View, [addResponseHeader("Content-Type", v)] leaves
    the content-type slot as it was and appends [v] to the values of the
    prefixed header Fn-Http-H-Content-Type, an entry that no call of
    [setResponseHeader] on the view creates or changes; on a context without
    other response headers and a new response, the transport then carries
    the header Fn-Http-H-Content-Type with the value [v]. *)
Theorem Gateway_addResponseHeader_content_type `{RT : Runtime}
  (v : string) (ctx : Context) :
  responseContentType (Gateway.addResponseHeader "Content-Type" [v] ctx)
  = responseContentType ctx
  /\ responseHeaders (Gateway.addResponseHeader "Content-Type" [v] ctx)
       !! "Fn-Http-H-Content-Type"
     = Some (match responseHeaders ctx !! "Fn-Http-H-Content-Type" with
             | Some old => old ++ [v]
             | None => [v]
             end)
  /\ canonHeader (Gateway.prefix +:+ "Content-Type") = "Fn-Http-H-Content-Type"
  /\ (forall (key : string) (values : list string),
        responseHeaders (Gateway.setResponseHeader key values ctx)
          !! "Fn-Http-H-Content-Type"
        = responseHeaders ctx !! "Fn-Http-H-Content-Type")
  /\ (responseHeaders ctx = ∅ ->
      forall result : Result,
        Resp.header "Fn-Http-H-Content-Type"
          (w_resp (snd (sendResult result
                          (new_World (Gateway.addResponseHeader "Content-Type" [v] ctx)
                                     new_ServerResponse))))
        = Some (HList [v])).
Proof.
  split; [|split; [|split; [reflexivity|split]]].
  - unfold Gateway.addResponseHeader, Ctx.addResponseHeader.
    now destruct (responseHeaders ctx !! _).
  - unfold Gateway.addResponseHeader, Ctx.addResponseHeader.
    change (canonHeader (Gateway.prefix +:+ "Content-Type"))
      with "Fn-Http-H-Content-Type".
    destruct (responseHeaders ctx !! "Fn-Http-H-Content-Type") as [old|];
      simpl; now rewrite lookup_insert_eq.
  - intros key values. unfold Gateway.setResponseHeader.
    destruct (String.eqb_spec (canonHeader key) "Content-Type") as [Heq|Hne];
      [reflexivity|].
    unfold Ctx.setResponseHeader. simpl. rewrite canonHeader_prefix.
    apply lookup_insert_ne. intros Heq. apply Hne.
    injection Heq as Heq. exact Heq.
  - intros Hempty result. unfold Resp.header.
    rewrite sendResult_headers by reflexivity.
    apply (sent_gateway_header "Content-Type" [v]). cbn [w_ctx new_World].
    unfold Gateway.addResponseHeader, Ctx.addResponseHeader.
    change (canonHeader (Gateway.prefix +:+ "Content-Type"))
      with (Gateway.prefix +:+ "Content-Type").
    rewrite Hempty, lookup_empty. cbn [responseHeaders set_responseHeaders app].
    apply insert_empty.
Qed.

Lemma Gateway_addResponseHeader_content_type_witness :
  Resp.header "Fn-Http-H-Content-Type"
    (w_resp (snd (sendResult (RT := node18) (RValue (JString "ok"))
                    (new_World
                       (Gateway.addResponseHeader "Content-Type" ["text/html"]
                          (new_Context ∅ (BodyValue JNull) ∅))
                       new_ServerResponse))))
  = Some (HList ["text/html"]).
Proof.
  pose proof (Gateway_addResponseHeader_content_type (RT := node18) "text/html"
                (new_Context ∅ (BodyValue JNull) ∅)) as (_ & _ & _ & _ & Hsent).
  exact (Hsent eq_refl _).
Defined.

(** ** Dispatch Loop *)

Lemma invalid_request_test (m u : string) :
  m <> "POST" \/ u <> "/call" ->
  negb (String.eqb m "POST") || negb (String.eqb u "/call") = true.
Proof.
  intros [Hm|Hu].
  - apply String.eqb_neq in Hm. now rewrite Hm.
  - apply String.eqb_neq in Hu. rewrite Hu. apply orb_true_r.
Qed.

(** C8: a request whose method is not POST or whose URL is not /call is
    answered by the JSON error of status 400 whose body is the object with
    message "Invalid method" and detail "Bad request", the response is ended
    once, and neither user code nor an application is called. *)
Theorem functionHandler_invalid_request `{RT : Runtime}
  (env : gmap string string) (inputMode : InputMode) (handler : Handler)
  (req : IncomingMessage) :
  method req <> "POST" \/ url req <> "/call" ->
  let served := functionHandler env inputMode handler req new_ServerResponse in
  resp_statusCode (served_resp served) = 400%Z
  /\ resp_body (served_resp served)
     = [Json.dq "{'message':'Invalid method','detail':'Bad request'}"]
  /\ Resp.header "Content-Type" (served_resp served)
     = Some (HString "application/json")
  /\ resp_ends (served_resp served) = 1
  /\ served_calls served = 0
  /\ served_ctx served = None
  /\ served_unhandled served = [].
Proof.
  intros Hbad. unfold functionHandler.
  rewrite (invalid_request_test _ _ Hbad).
  repeat split.
Qed.

Lemma functionHandler_invalid_request_witness :
  let req := {| method := "GET"; url := "/call"; rawHeaders := [];
                chunks := []; failure := None |} in
  let served :=
    functionHandler (RT := node18) ∅ mode_json
      (UserFunction (fun _ ctx => (Normal (RValue (JString "never")), ctx)))
      req new_ServerResponse in
  resp_statusCode (served_resp served) = 400%Z
  /\ resp_body (served_resp served)
     = [Json.dq "{'message':'Invalid method','detail':'Bad request'}"]
  /\ resp_ends (served_resp served) = 1
  /\ served_calls served = 0.
Proof.
  cbv zeta.
  pose proof (functionHandler_invalid_request (RT := node18) ∅ mode_json
                (UserFunction (fun _ ctx => (Normal (RValue (JString "never")), ctx)))
                {| method := "GET"; url := "/call"; rawHeaders := [];
                   chunks := []; failure := None |}) as Hthm.
  assert (Hbad : "GET" <> "POST" \/ "/call" <> "/call") by (left; discriminate).
  specialize (Hthm Hbad). cbv zeta in Hthm.
  destruct Hthm as (Hs & Hb & _ & He & Hc & _).
  split; [exact Hs|]. split; [exact Hb|]. split; [exact He|exact Hc].
Defined.
Lemma functionHandler_user `{RT : Runtime} (env : gmap string string)
  (inputMode : InputMode) (fnfunction : FnHandler)
  (raw : list (string * string)) (data : list string) :
  functionHandler env inputMode (UserFunction fnfunction) (call_request raw data)
    new_ServerResponse
  = let ctx := new_Context env (getBody (accumulate (getInputHandler inputMode) data))
                 (processHeaders raw) in
    let w := snd (invokeUserFunction fnfunction (new_World ctx new_ServerResponse)) in
    {| served_resp := w_resp w; served_ctx := Some (w_ctx w);
       served_calls := w_calls w; served_unhandled := w_unhandled w |}.
Proof.
  unfold functionHandler, call_request.
  cbn [method url failure chunks rawHeaders String.eqb Ascii.eqb Bool.eqb negb orb].
  cbv zeta.
  unfold invokeUserFunction, unhandled.
  destruct (try_catch _ _ _) as [[[]|e] w]; cbn [snd w_resp w_ctx w_calls w_unhandled];
    now rewrite app_nil_r.
Qed.

Lemma sendJSONError_unsent (code : Z) (message detail : string) (r : ServerResponse) :
  resp_headersSent r = false -> resp_ends r = 0 ->
  sendJSONError code message detail r
  = (Normal tt,
     {| resp_headers :=
          <["content-type" := ("Content-Type", HString "application/json")]>
            (resp_headers r);
        resp_statusCode := code;
        resp_statusMessage := "Internal Error";
        resp_headersSent := true;
        resp_body :=
          resp_body r ++
          [Json.stringify (JObject [("message", JString message);
                                    ("detail", JString detail)])];
        resp_ends := 1 |}).
Proof.
  destruct r as [hs c m sent b ends]. cbn [resp_headersSent resp_ends].
  intros -> ->. reflexivity.
Qed.

Lemma sendJSONError_sent (code : Z) (message detail : string) (r : ServerResponse) :
  resp_headersSent r = true ->
  sendJSONError code message detail r = (Throw (Resp.headers_sent_error "set"), r).
Proof.
  destruct r as [hs c m sent b ends]. cbn [resp_headersSent].
  intros ->. reflexivity.
Qed.

Lemma invokeUserFunction_unsent `{RT : Runtime} (fnfunction : FnHandler) (w : World) :
  resp_headersSent (w_resp w) = false -> resp_ends (w_resp w) = 0 ->
  invokeUserFunction fnfunction w
  = (Normal tt,
     let called r ctx un :=
       {| w_ctx := ctx; w_resp := r; w_calls := S (w_calls w); w_unhandled := un |} in
     match fnfunction (body (w_ctx w)) (w_ctx w) with
     | (Throw e, ctx') =>
         called (snd (handleFunctionError e (w_resp w))) ctx' (w_unhandled w)
     | (Normal result, ctx') =>
         match payload (marks_json ctx' result) result with
         | Normal written =>
             called (committed (typed_ctx ctx' result) (w_resp w) written 1)
                    (typed_ctx ctx' result) (w_unhandled w)
         | Throw e =>
             called (committed (typed_ctx ctx' result) (w_resp w) [] 0)
                    (typed_ctx ctx' result)
                    (w_unhandled w ++ [Resp.headers_sent_error "set"])
         end
     end).
Proof.
  intros Hsent Hends.
  unfold invokeUserFunction, unhandled, try_catch. unfold bind at 1. unfold call_user.
  destruct (fnfunction (body (w_ctx w)) (w_ctx w)) as [[result|e] ctx'].
  - rewrite sendResult_unsent by assumption. cbv zeta.
    cbn [w_ctx w_resp].
    destruct (payload (marks_json ctx' result) result) as [written|e].
    + reflexivity.
    + unfold on_resp, zoom, handleFunctionError. cbn [w_resp set_resp set_ctx].
      rewrite sendJSONError_sent by reflexivity. reflexivity.
  - unfold on_resp, zoom, handleFunctionError. cbn [w_resp].
    rewrite sendJSONError_unsent by assumption. reflexivity.
Qed.

(** The paths on which the response is ended exactly once: user code that
    fails, and user code whose result is written. *)
Lemma user_error_ends_once `{RT : Runtime} (env : gmap string string)
  (inputMode : InputMode) (raw : list (string * string)) (data : list string)
  (e : string) :
  let served :=
    functionHandler env inputMode (UserFunction (fun _ ctx => (Throw e, ctx)))
      (call_request raw data) new_ServerResponse in
  resp_ends (served_resp served) = 1
  /\ resp_statusCode (served_resp served) = 502%Z
  /\ resp_body (served_resp served)
     = [Json.stringify (JObject [("message", JString fnFunctionExceptionMessage);
                                 ("detail", JString e)])]
  /\ served_unhandled served = [].
Proof.
  cbv zeta. rewrite functionHandler_user. cbv zeta.
  rewrite invokeUserFunction_unsent by reflexivity.
  cbv zeta. cbn [snd]. repeat split.
Qed.

Lemma user_result_ends_once `{RT : Runtime} (env : gmap string string)
  (inputMode : InputMode) (raw : list (string * string)) (data : list string)
  (v : value) :
  let served :=
    functionHandler env inputMode (UserFunction (fun _ ctx => (Normal (RValue v), ctx)))
      (call_request raw data) new_ServerResponse in
  resp_ends (served_resp served) = 1
  /\ resp_statusCode (served_resp served) = 200%Z
  /\ resp_body (served_resp served)
     = match v with JNull => [] | _ => [Json.stringify v] end
  /\ served_unhandled served = [].
Proof.
  cbv zeta. rewrite functionHandler_user. cbv zeta.
  rewrite invokeUserFunction_unsent by reflexivity.
  cbv zeta. cbn [snd].
  assert (Hpay : forall ctx : Context,
             responseContentType ctx = None ->
             payload (marks_json ctx (RValue v)) (RValue v)
             = Normal (match v with JNull => [] | _ => [Json.stringify v] end))
    by (intros ctx Hct; unfold marks_json; rewrite Hct; destruct v; reflexivity).
  rewrite Hpay by reflexivity. repeat split.
Qed.

(** C5 (the code at the failing input): for a well-formed request, user code
    returns a BigInt, a value that [JSON.stringify] refuses. The status line
    is committed, the write of step 4 throws, the error path then throws on
    its first header, and the transport response is never ended. The same
    holds in the middleware path when an application ends its response with
    a body that is not a JSON text. *)
Theorem encoding_failure_never_ends `{RT : Runtime}
  (env : gmap string string) (inputMode : InputMode)
  (raw : list (string * string)) (data : list string) (n : Z) :
  (let served :=
     functionHandler env inputMode
       (UserFunction (fun _ ctx => (Normal (RBigInt n), ctx)))
       (call_request raw data) new_ServerResponse in
   resp_ends (served_resp served) = 0
   /\ resp_headersSent (served_resp served) = true
   /\ resp_statusCode (served_resp served) = 200%Z
   /\ resp_body (served_resp served) = []
   /\ served_calls served = 1
   /\ served_unhandled served = [Resp.headers_sent_error "set"])
  /\ (let served :=
        functionHandler env mode_buffer
          (ExpressApp
             {| app_turns := fun _ =>
                  [[app_call (call_setHeader "Content-Type" "text/plain");
                    app_call (call_end (Some "hello"))]];
                app_status_json := fun _ _ => ([], None) |})
          (call_request raw data) new_ServerResponse in
      resp_ends (served_resp served) = 0
      /\ served_resp served = new_ServerResponse
      /\ served_calls served = 1).
Proof.
  split.
  - rewrite functionHandler_user. cbv zeta.
    rewrite invokeUserFunction_unsent by reflexivity.
    cbv zeta. cbn [snd]. 
    change (payload (marks_json _ (RBigInt n)) (RBigInt n))
      with (@Throw (list string) "TypeError: Do not know how to serialize a BigInt").
    cbv iota. repeat split.
  - cbv zeta. vm_compute. repeat split.
Qed.

(** ** Middleware Shim *)

Lemma for_each_forward (hs : list (string * string)) (w : World) :
  for_each hs
    (fun kv =>
       if negb (String.eqb (Str.toLowerCase (fst kv)) "content-length")
       then on_ctx (Ctx.setResponseHeader ("Fn-Http-H-" +:+ fst kv) [snd kv])
       else ret tt) w
  = (Normal tt, set_ctx (fold_left forward_header hs (w_ctx w)) w).
Proof.
  revert w. induction hs as [|kv hs IH]; intros w.
  - destruct w. reflexivity.
  - cbn [for_each fold_left]. unfold bind at 1. unfold forward_header at 2.
    destruct (negb _).
    + unfold on_ctx at 1, modify. rewrite IH. reflexivity.
    + unfold ret at 1. rewrite IH. reflexivity.
Qed.

Lemma sendExpressResponse_routes `{RT : Runtime} (status : option Z)
  (hs : list (string * string)) (body : Result) (w : World) :
  sendExpressResponse {| er_status := status; er_headers := Some hs; er_body := body |} w
  = (if Str.includes "application/json" (declared_type hs) || typeof_object body
     then json_path body
     else raw_path (declared_type hs) body)
      (set_ctx (fold_left forward_header hs (with_status status (w_ctx w))) w).
Proof.
  unfold sendExpressResponse. cbn [er_status er_headers er_body].
  fold (declared_type hs).
  unfold bind at 1.
  assert (Hstatus :
    (match status with
     | Some st =>
         if (st =? 0)%Z then ret tt
         else on_ctx (Ctx.setResponseHeader "Fn-Http-Status" [Json.Z_toString st])
     | None => ret tt
     end) w = (Normal tt, set_ctx (with_status status (w_ctx w)) w)).
  { unfold with_status. destruct status as [st|]; [destruct (st =? 0)%Z|];
      destruct w; reflexivity. }
  rewrite Hstatus. unfold bind at 1. rewrite for_each_forward.
  reflexivity.
Qed.

Lemma sendExpressResponse_buffer_parsed `{RT : Runtime}
  (status : option Z) (hs : list (string * string)) (bytes : string) (v : value)
  (w : World) :
  Json.parse bytes = Some v ->
  sendExpressResponse {| er_status := status; er_headers := Some hs;
                         er_body := RBuffer bytes |} w
  = sendResult (RValue v)
      (set_ctx (set_responseContentType (Some "application/json")
                  (fold_left forward_header hs (with_status status (w_ctx w)))) w).
Proof.
  intros Hparse. rewrite sendExpressResponse_routes.
  cbn [typeof_object]. rewrite orb_true_r.
  unfold json_path. cbn [isBuffer String_of].
  unfold bind at 1. unfold bind at 1. unfold JSON_parse. rewrite Hparse.
  unfold ret at 1. unfold ret at 1. unfold bind at 1. unfold on_ctx, modify.
  destruct w. reflexivity.
Qed.



(** Calls on [res] touch neither the flag [responseHandled] nor the
    invocation. *)
Lemma run_call_same (c : ResCall) (x : Exchange) :
  exists x' : Exchange, run_call c x = (Normal tt, x') /\ same_invocation x x'.
Proof.
  destruct x as [res settled reacted handled world].
  destruct c as [key v|status hs|chunk|[chunk|]].
  - eexists. split; [reflexivity|repeat split].
  - eexists. split; [reflexivity|repeat split].
  - eexists. split; [reflexivity|repeat split].
  - unfold run_call, Res.end_. destruct (Str.nonempty chunk), settled;
      (eexists; split; [reflexivity|repeat split]).
  - destruct settled; (eexists; split; [reflexivity|repeat split]).
Qed.

Lemma same_invocation_trans (x y z : Exchange) :
  same_invocation x y -> same_invocation y z -> same_invocation x z.
Proof. intros (? & ? & ?) (? & ? & ?). repeat split; congruence. Qed.

Lemma for_each_run_call_same (calls : list ResCall) (x : Exchange) :
  exists x' : Exchange,
    for_each calls run_call x = (Normal tt, x') /\ same_invocation x x'.
Proof.
  revert x. induction calls as [|c calls IH]; intros x.
  - exists x. split; [reflexivity|repeat split].
  - cbn [for_each]. unfold bind.
    destruct (run_call_same c x) as (x1 & -> & Hsame).
    destruct (IH x1) as (x2 & -> & Hsame').
    exists x2. split; [reflexivity|].
    eapply same_invocation_trans; eassumption.
Qed.

Lemma express404Handler_throws `{RT : Runtime} (app : Application)
  (req : ExpressRequest) (x : Exchange) :
  responseHandled x = false ->
  exists (e : string) (x' : Exchange),
    express404Handler app req x = (Throw e, x') /\ same_invocation x x'.
Proof.
  intros Hfresh. unfold express404Handler. unfold bind at 1. unfold get at 1.
  rewrite Hfresh. cbn [negb]. unfold bind at 1. unfold status_json.
  destruct (app_status_json app 404 _) as [calls failure].
  unfold bind at 1.
  destruct (for_each_run_call_same calls x) as (x1 & -> & Hsame).
  destruct failure as [e|].
  - exists e, x1. split; [reflexivity|exact Hsame].
  - unfold ret at 1.
    exists "TypeError: Cannot read properties of undefined (reading 'content-type')", x1.
    destruct x1 as [res1 settled1 reacted1 handled1 world1].
    split; [reflexivity|exact Hsame].
Qed.

Lemma handleError_first (e : string) (x : Exchange) :
  responseHandled x = false ->
  resp_headersSent (w_resp (x_world x)) = false ->
  handleError e x = (Normal tt, handled_with (error_500 e (w_resp (x_world x))) x).
Proof.
  intros Hfresh Hsent. unfold handleError. unfold bind at 1. unfold get at 1.
  rewrite Hfresh. unfold bind at 1. unfold set_responseHandled, modify.
  unfold on_world, zoom, on_resp. cbn [x_world].
  unfold error_500, handleExpressError, sendJSONError.
  destruct x as [res settled reacted handled [ctx [hs c m sent b ends] calls un]].
  cbn in Hsent. subst sent. reflexivity.
Qed.

Lemma handleError_later (e : string) (x : Exchange) :
  responseHandled x = true -> handleError e x = (Normal tt, x).
Proof.
  intros Hdone. unfold handleError. unfold bind at 1. unfold get at 1.
  now rewrite Hdone.
Qed.

Lemma completeResponse_later `{RT : Runtime} (status : Z) (body : string)
  (x : Exchange) :
  responseHandled x = true -> completeResponse status body x = (Normal tt, x).
Proof.
  intros Hdone. unfold completeResponse. unfold bind at 1. unfold get at 1.
  now rewrite Hdone.
Qed.

Lemma run_reactions_later `{RT : Runtime} (x : Exchange) :
  responseHandled x = true ->
  exists x' : Exchange,
    run_reactions x = (Normal tt, x')
    /\ x_world x' = x_world x /\ responseHandled x' = true.
Proof.
  intros Hdone. unfold run_reactions. unfold bind at 1. unfold get at 1.
  destruct (x_settled x) as [[status body]|] eqn:Hsettled;
    [|exists x; repeat split; assumption].
  destruct (x_reacted x) eqn:Hreacted; [exists x; repeat split; assumption|].
  unfold bind at 1. unfold modify at 1. unfold bind at 1.
  unfold uncaught, try_catch.
  rewrite completeResponse_later by exact Hdone.
  eexists. split; [reflexivity|]. split; [reflexivity|exact Hdone].
Qed.

Lemma next_none_throws `{RT : Runtime} (app : Application) (req : ExpressRequest)
  (x : Exchange) :
  responseHandled x = false -> _finished (x_res x) = false ->
  exists (e : string) (x' : Exchange),
    run_turn app req [app_next None] x = (Throw e, x') /\ same_invocation x x'.
Proof.
  intros Hfresh Hopen. unfold run_turn. cbn [for_each run_step next].
  unfold bind at 1. unfold bind at 1. unfold get at 1. rewrite Hopen. cbn [negb].
  destruct (express404Handler_throws app req x Hfresh) as (e & x1 & -> & Hsame).
  exists e, x1. split; [reflexivity|exact Hsame].
Qed.

Lemma chain_completion_500 `{RT : Runtime} (app : Application) (req : ExpressRequest)
  (x : Exchange) :
  responseHandled x = false -> _finished (x_res x) = false ->
  resp_headersSent (w_resp (x_world x)) = false ->
  exists detail : string,
    w_resp (x_world (snd (run_exchange app req [[app_next None]] x)))
    = error_500 detail (w_resp (x_world x)).
Proof.
  intros Hfresh Hopen Hsent.
  unfold run_exchange. unfold bind at 1. unfold uncaught at 1, try_catch.
  destruct (next_none_throws app req x Hfresh Hopen) as (e & x1 & -> & Hsame).
  destruct Hsame as (Hreacted & Hhandled & Hworld).
  rewrite handleError_first by congruence.
  unfold bind at 1.
  destruct (run_reactions_later (handled_with (error_500 e (w_resp (x_world x1))) x1)
              eq_refl) as (x2 & -> & Hworld2 & _).
  exists e. cbn [run_later]. unfold ret. cbn [snd].
  rewrite Hworld2. cbn [handled_with x_world]. rewrite Hworld.
  destruct (x_world x). reflexivity.
Qed.

Lemma chain_completion_deferred `{RT : Runtime} (app : Application)
  (req : ExpressRequest) (x : Exchange) :
  responseHandled x = false -> _finished (x_res x) = false ->
  x_settled x = None ->
  exists e : string,
    w_resp (x_world (snd (run_exchange app req [[]; [app_next None]] x)))
    = w_resp (x_world x)
    /\ w_unhandled (x_world (snd (run_exchange app req [[]; [app_next None]] x)))
       = w_unhandled (x_world x) ++ [e].
Proof.
  intros Hfresh Hopen Hpending.
  destruct (next_none_throws app req x Hfresh Hopen) as (e & x1 & Hthrow & Hsame).
  destruct Hsame as (_ & _ & Hworld).
  assert (Hrun : run_exchange app req [[]; [app_next None]] x
                 = (Normal tt,
                    set_world
                      {| w_ctx := w_ctx (x_world x1); w_resp := w_resp (x_world x1);
                         w_calls := w_calls (x_world x1);
                         w_unhandled := w_unhandled (x_world x1) ++ [e] |} x1)).
  { unfold run_exchange. unfold bind at 1. unfold uncaught at 1, try_catch.
    unfold run_turn at 1. cbn [for_each]. unfold ret at 1.
    unfold bind at 1. unfold run_reactions at 1. unfold bind at 1. unfold get at 1.
    rewrite Hpending. unfold ret at 1.
    cbn [run_later]. unfold bind at 1. unfold uncaught at 1.
    rewrite Hthrow. reflexivity. }
  exists e. rewrite Hrun. cbn [snd set_world x_world w_resp w_unhandled].
  now rewrite Hworld.
Qed.

Lemma functionHandler_express `{RT : Runtime} (env : gmap string string)
  (inputMode : InputMode) (app : Application)
  (raw : list (string * string)) (data : list string) :
  served_resp (functionHandler env inputMode (ExpressApp app) (call_request raw data)
                 new_ServerResponse)
  = let ctx := new_Context env (getBody (accumulate (getInputHandler inputMode) data))
                 (processHeaders raw) in
    let req := createExpressRequest ctx (body_buffer (body ctx)) in
    w_resp (x_world (snd (run_exchange app req (app_turns app req)
                            (new_Exchange (new_World ctx new_ServerResponse))))).
Proof.
  unfold functionHandler, call_request.
  cbn [method url failure chunks rawHeaders String.eqb Ascii.eqb Bool.eqb negb orb].
  cbv zeta. unfold handleExpressRequest.
  destruct (run_exchange _ _ _ _) as [c x]. reflexivity.
Qed.

(** C4 (the code at the failing inputs): when the handler chain completes
    without ending the response, the 404 handler throws before it reaches
    the transport, whatever [status] and [json] do on [res]: if the callback
    runs in the turn of the call of the application, the response sent is
    the 500 error of the error trigger, not a 404; if it runs in a later
    turn, nothing is sent. When an application ends its response and passes
    an error to the callback in the same turn, the error trigger runs first
    and the response is the 500 error, not the one that was ended. When the
    error comes in a later turn the ended response is sent. *)
Theorem chain_completion_is_not_404 `{RT : Runtime}
  (env : gmap string string) (raw : list (string * string)) (data : list string)
  (sj : Z -> value -> list ResCall * option string) (e : string) :
  (exists detail : string,
     let served :=
       functionHandler env mode_buffer
         (ExpressApp {| app_turns := fun _ => [[app_next None]];
                        app_status_json := sj |})
         (call_request raw data) new_ServerResponse in
     resp_statusCode (served_resp served) = 500%Z
     /\ resp_body (served_resp served)
        = [Json.stringify (JObject [("message", JString "Internal Server Error");
                                    ("detail", JString detail)])]
     /\ resp_ends (served_resp served) = 1)
  /\ (let served :=
        functionHandler env mode_buffer
          (ExpressApp {| app_turns := fun _ => [[]; [app_next None]];
                         app_status_json := sj |})
          (call_request raw data) new_ServerResponse in
      served_resp served = new_ServerResponse
      /\ resp_ends (served_resp served) = 0)
  /\ (let served :=
        functionHandler env mode_buffer
          (ExpressApp {| app_turns := fun _ =>
                           [[app_call (call_end (Some "{}")); app_next (Some e)]];
                         app_status_json := sj |})
          (call_request raw data) new_ServerResponse in
      resp_statusCode (served_resp served) = 500%Z
      /\ resp_body (served_resp served)
         = [Json.stringify (JObject [("message", JString "Internal Server Error");
                                     ("detail", JString e)])]
      /\ resp_ends (served_resp served) = 1)
  /\ (let served :=
        functionHandler env mode_buffer
          (ExpressApp {| app_turns := fun _ =>
                           [[app_call (call_end (Some "{}"))]; [app_next (Some e)]];
                         app_status_json := sj |})
          (call_request raw data) new_ServerResponse in
      resp_statusCode (served_resp served) = 200%Z
      /\ resp_body (served_resp served) = ["{}"]
      /\ resp_ends (served_resp served) = 1).
Proof.
  split; [|split; [|split]].
  - cbv zeta. rewrite functionHandler_express. cbv zeta. cbn [app_turns].
    match goal with
    | |- context [run_exchange ?app ?req _ ?x] =>
        destruct (chain_completion_500 app req x eq_refl eq_refl eq_refl)
          as (detail & ->)
    end.
    exists detail. repeat split.
  - cbv zeta. rewrite functionHandler_express. cbv zeta. cbn [app_turns].
    match goal with
    | |- context [run_exchange ?app ?req _ ?x] =>
        destruct (chain_completion_deferred app req x eq_refl eq_refl eq_refl)
          as (detail & -> & _)
    end.
    split; reflexivity.
  - cbv zeta. rewrite functionHandler_express. cbv zeta. cbn [app_turns].
    vm_compute. repeat split.
  - cbv zeta. rewrite functionHandler_express. cbv zeta. cbn [app_turns].
    vm_compute. repeat split.
Qed.

(** * Further properties *)

(** ** Header Codec: names that differ in case or in the separator *)

Lemma upper_of_lower (c : ascii) : Str.upper_char (Str.lower_char c) = Str.upper_char c.
Proof. each_char c; reflexivity. Qed.

Lemma lower_of_upper (c : ascii) : Str.lower_char (Str.upper_char c) = Str.lower_char c.
Proof. each_char c; reflexivity. Qed.

Lemma canon_scan_map (f : ascii -> ascii) (b : bool) (s : string) :
  (forall c, is_sep (f c) = is_sep c) ->
  (forall c, is_sep c = false -> Str.upper_char (f c) = Str.upper_char c) ->
  (forall c, is_sep c = false -> Str.lower_char (f c) = Str.lower_char c) ->
  canon_scan b (Str.map f s) = canon_scan b s.
Proof.
  intros Hsep Hup Hlow. revert b.
  induction s as [|c r IH]; intros b; [reflexivity|].
  simpl. rewrite Hsep. destruct (is_sep c) eqn:Hc.
  - now rewrite IH.
  - rewrite IH. destruct b; [now rewrite Hup|now rewrite Hlow].
Qed.

Lemma is_sep_unified (c : ascii) :
  is_sep (if Ascii.eqb c "_" then "-"%char else c) = is_sep c.
Proof. each_char c; reflexivity. Qed.

Lemma canonHeader_toLowerCase (h : string) :
  canonHeader (Str.toLowerCase h) = canonHeader h.
Proof.
  rewrite !canonHeader_scan.
  apply canon_scan_map; intros c; intros;
    [apply is_sep_lower|apply upper_of_lower|apply lower_char_idem].
Qed.

Lemma canonHeader_toUpperCase (h : string) :
  canonHeader (Str.toUpperCase h) = canonHeader h.
Proof.
  rewrite !canonHeader_scan.
  apply canon_scan_map; intros c; intros;
    [apply is_sep_upper|apply upper_char_idem|apply lower_of_upper].
Qed.

Lemma canonHeader_replace_underscores (h : string) :
  canonHeader (Str.replace_underscores h) = canonHeader h.
Proof.
  rewrite !canonHeader_scan. apply canon_scan_map; intros c.
  - apply is_sep_unified.
  - intros Hc. destruct (Ascii.eqb_spec c "_") as [->|_]; [discriminate|reflexivity].
  - intros Hc. destruct (Ascii.eqb_spec c "_") as [->|_]; [discriminate|reflexivity].
Qed.

Lemma canonical_lower_inj (a b : string) :
  canonHeader a = a -> canonHeader b = b ->
  Str.toLowerCase a = Str.toLowerCase b -> a = b.
Proof.
  intros Ha Hb Hlow.
  rewrite <- Ha, <- Hb, <- (canonHeader_toLowerCase a), <- (canonHeader_toLowerCase b).
  now rewrite Hlow.
Qed.

(** X1: [canonHeader] does not see the case of a name nor which of '_' and
    '-' separates its segments: two names with the same lower-case form
    once '_' is written '-' have the same canonical form, and two canonical
    names with the same lower-case form are equal. *)
Theorem canonHeader_insensitive (a b : string) :
  canonHeader (Str.toLowerCase a) = canonHeader a
  /\ canonHeader (Str.toUpperCase a) = canonHeader a
  /\ canonHeader (Str.replace_underscores a) = canonHeader a
  /\ (Str.toLowerCase (Str.replace_underscores a)
      = Str.toLowerCase (Str.replace_underscores b) ->
      canonHeader a = canonHeader b)
  /\ (canonHeader a = a -> canonHeader b = b ->
      Str.toLowerCase a = Str.toLowerCase b -> a = b).
Proof.
  split; [apply canonHeader_toLowerCase|].
  split; [apply canonHeader_toUpperCase|].
  split; [apply canonHeader_replace_underscores|].
  split; [|apply canonical_lower_inj].
  intros Hsame.
  rewrite <- (canonHeader_replace_underscores a), <- (canonHeader_replace_underscores b).
  rewrite <- (canonHeader_toLowerCase (Str.replace_underscores a)).
  rewrite <- (canonHeader_toLowerCase (Str.replace_underscores b)).
  now rewrite Hsame.
Qed.

Lemma canonHeader_insensitive_witness :
  canonHeader "X_REQUEST-id" = canonHeader "x-request_ID".
Proof.
  apply (proj1 (proj2 (proj2 (proj2 (canonHeader_insensitive "X_REQUEST-id" "x-request_ID"))))).
  reflexivity.
Defined.

(** ** Header Codec: the decoded map *)

Lemma arrived_canonical (key : string) (rawHeaders : list (string * string)) :
  arrived key rawHeaders <> [] -> canonHeader key = key.
Proof.
  unfold arrived. induction rawHeaders as [|raw rest IH]; simpl; [congruence|].
  destruct (String.eqb_spec (canonHeader (fst raw)) key) as [Heq|Hne].
  - intros _. rewrite <- Heq. apply canonHeader_idem.
  - exact IH.
Qed.

(** X2: what decoding gives under each key: nothing under a key that the
    deny-set holds, else the values that arrived under a name of that
    canonical form, in arrival order, if there are any. So every key of the
    decoded map is in canonical form, is none of Connection, Keep-Alive,
    Transfer-Encoding, Trailer and Upgrade, and holds at least one value. *)
Theorem processHeaders_keys (rawHeaders : list (string * string))
  (key : string) (values : list string) :
  processHeaders rawHeaders !! key
  = (if skipped key then None
     else match arrived key rawHeaders with [] => None | vs => Some vs end)
  /\ (processHeaders rawHeaders !! key = Some values ->
      canonHeader key = key
      /\ values = arrived key rawHeaders
      /\ values <> []
      /\ key <> "Connection" /\ key <> "Keep-Alive" /\ key <> "Transfer-Encoding"
      /\ key <> "Trailer" /\ key <> "Upgrade").
Proof.
  rewrite processHeaders_lookup.
  destruct (skipped key) eqn:Hskip; [split; [reflexivity|discriminate]|].
  destruct (arrived key rawHeaders) as [|v vs] eqn:Harr;
    [split; [reflexivity|discriminate]|].
  split; [reflexivity|]. simpl. intros [= <-].
  split; [apply (arrived_canonical key rawHeaders); rewrite Harr; discriminate|].
  split; [reflexivity|]. split; [discriminate|].
  repeat split; intros ->; discriminate Hskip.
Qed.

Lemma processHeaders_keys_witness :
  canonHeader "X-Id" = "X-Id" /\ ["7"; "8"] <> [].
Proof.
  destruct (processHeaders_keys
              [("x_id", "7"); ("Connection", "close"); ("X-ID", "8")]
              "X-Id" ["7"; "8"]) as (_ & Hkeys).
  destruct Hkeys as (Hkey & _ & Hne & _); [vm_compute; reflexivity|].
  split; assumption.
Defined.


(** ** Invocation Context: response headers *)

(** X4: [setResponseHeader] then [getResponseHeader]: a name of the same
    canonical form reads the first of the values just set, any other name
    reads what it read before; setting again under another spelling of the
    name replaces the values. *)
Theorem Context_setResponseHeader_get (key key' : string) (values older : list string)
  (ctx : Context) :
  Ctx.getResponseHeader (Ctx.setResponseHeader key values ctx) key'
  = (if String.eqb (canonHeader key) (canonHeader key') then List.head values
     else Ctx.getResponseHeader ctx key')
  /\ Ctx.getResponseHeader (Ctx.setResponseHeader key values ctx) (Str.toLowerCase key)
     = List.head values
  /\ Ctx.setResponseHeader key values
       (Ctx.setResponseHeader (Str.toUpperCase key) older ctx)
     = Ctx.setResponseHeader key values ctx
  /\ responseContentType (Ctx.setResponseHeader key values ctx)
     = responseContentType ctx.
Proof.
  unfold Ctx.getResponseHeader, Ctx.setResponseHeader.
  cbn [responseHeaders set_responseHeaders].
  split; [|split; [|split; [|reflexivity]]].
  - destruct (String.eqb_spec (canonHeader key) (canonHeader key')) as [<-|Hne].
    + now rewrite lookup_insert_eq.
    + now rewrite lookup_insert_ne.
  - rewrite canonHeader_toLowerCase. now rewrite lookup_insert_eq.
  - rewrite canonHeader_toUpperCase.
    unfold set_responseHeaders. cbn [responseHeaders config body headers responseContentType].
    now rewrite insert_insert_eq.
Qed.

(** The values held under the canonical form of [key]. *)
Lemma addResponseHeader_headers (key : string) (values : list string) (ctx : Context) :
  responseHeaders (Ctx.addResponseHeader key values ctx)
  = <[canonHeader key :=
        match responseHeaders ctx !! canonHeader key with
        | Some old => old ++ values
        | None => values
        end]> (responseHeaders ctx).
Proof.
  unfold Ctx.addResponseHeader. cbv zeta.
  now destruct (responseHeaders ctx !! canonHeader key).
Qed.

Lemma Context_eq (c1 c2 : Context) :
  config c1 = config c2 -> body c1 = body c2 -> headers c1 = headers c2 ->
  responseHeaders c1 = responseHeaders c2 ->
  responseContentType c1 = responseContentType c2 -> c1 = c2.
Proof. destruct c1, c2. simpl. now intros -> -> -> -> ->. Qed.

Lemma addResponseHeader_fields (key : string) (values : list string) (ctx : Context) :
  config (Ctx.addResponseHeader key values ctx) = config ctx
  /\ body (Ctx.addResponseHeader key values ctx) = body ctx
  /\ headers (Ctx.addResponseHeader key values ctx) = headers ctx
  /\ responseContentType (Ctx.addResponseHeader key values ctx)
     = responseContentType ctx.
Proof.
  unfold Ctx.addResponseHeader. cbv zeta.
  destruct (responseHeaders ctx !! canonHeader key); repeat split.
Qed.

(** X5: [addResponseHeader] appends: the values come after those already
    held under the canonical form of the name, a header that is absent is
    created with them, and other names are untouched. Two appends are one
    append of both lists, and an append after a [setResponseHeader] is a
    set of both lists, whatever the spelling of the name. *)
Theorem Context_addResponseHeader_appends (key key' : string)
  (values more : list string) (ctx : Context) :
  responseHeaders (Ctx.addResponseHeader key values ctx) !! canonHeader key
  = Some (match responseHeaders ctx !! canonHeader key with
          | Some old => old ++ values
          | None => values
          end)
  /\ (canonHeader key' <> canonHeader key ->
      Ctx.getResponseHeader (Ctx.addResponseHeader key values ctx) key'
      = Ctx.getResponseHeader ctx key')
  /\ Ctx.addResponseHeader (Str.toLowerCase key) more
       (Ctx.addResponseHeader key values ctx)
     = Ctx.addResponseHeader key (values ++ more) ctx
  /\ Ctx.addResponseHeader (Str.toLowerCase key) more
       (Ctx.setResponseHeader key values ctx)
     = Ctx.setResponseHeader key (values ++ more) ctx.
Proof.
  split; [|split; [|split]].
  - rewrite addResponseHeader_headers. apply lookup_insert_eq.
  - intros Hne. unfold Ctx.getResponseHeader.
    rewrite addResponseHeader_headers. now rewrite lookup_insert_ne.
  - destruct (addResponseHeader_fields (Str.toLowerCase key) more
                (Ctx.addResponseHeader key values ctx)) as (Hc & Hb & Hh & Ht).
    destruct (addResponseHeader_fields key values ctx) as (Hc1 & Hb1 & Hh1 & Ht1).
    destruct (addResponseHeader_fields key (values ++ more) ctx)
      as (Hc2 & Hb2 & Hh2 & Ht2).
    apply Context_eq; try congruence.
    rewrite !addResponseHeader_headers, canonHeader_toLowerCase.
    rewrite lookup_insert_eq, insert_insert_eq.
    destruct (responseHeaders ctx !! canonHeader key); [now rewrite app_assoc|reflexivity].
  - destruct (addResponseHeader_fields (Str.toLowerCase key) more
                (Ctx.setResponseHeader key values ctx)) as (Hc & Hb & Hh & Ht).
    apply Context_eq; try assumption.
    rewrite addResponseHeader_headers, canonHeader_toLowerCase.
    unfold Ctx.setResponseHeader. cbn [responseHeaders set_responseHeaders].
    now rewrite lookup_insert_eq, insert_insert_eq.
Qed.

Lemma Context_addResponseHeader_appends_witness :
  Ctx.getResponseHeader
    (Ctx.addResponseHeader "set_cookie" ["a=1"]
       (Ctx.setResponseHeader "X-Id" ["7"] (new_Context ∅ (BodyValue JNull) ∅)))
    "x-id"
  = Some "7".
Proof.
  destruct (Context_addResponseHeader_appends "set_cookie" "x-id" ["a=1"] []
              (Ctx.setResponseHeader "X-Id" ["7"] (new_Context ∅ (BodyValue JNull) ∅)))
    as (_ & Hother & _).
  rewrite Hother; [reflexivity|discriminate].
Defined.

(** ** The keys of the response headers *)

Lemma canonical_keys_insert (m : FnHeaders) (key : string) (values : list string) :
  canonical_keys m -> canonical_keys (<[canonHeader key := values]> m).
Proof.
  intros Hm k Hk.
  destruct (decide (canonHeader key = k)) as [<-|Hne]; [apply canonHeader_idem|].
  rewrite lookup_insert_ne in Hk by exact Hne. now apply Hm.
Qed.

(** X6: the keys of the response headers of a context are in canonical
    form: a new context has none, and every mutator of the context and of
    its gateway view keeps them so. *)
Theorem response_headers_canonical (key : string) (values : list string)
  (status : Z) (ctx : Context) :
  canonical_keys (responseHeaders (new_Context (config ctx) (body ctx) (headers ctx)))
  /\ (canonical_keys (responseHeaders ctx) ->
      canonical_keys (responseHeaders (Ctx.setResponseHeader key values ctx))
      /\ canonical_keys (responseHeaders (Ctx.addResponseHeader key values ctx))
      /\ canonical_keys (responseHeaders (Gateway.setResponseHeader key values ctx))
      /\ canonical_keys (responseHeaders (Gateway.addResponseHeader key values ctx))
      /\ canonical_keys (responseHeaders (Gateway.set_statusCode status ctx))).
Proof.
  split.
  - intros k Hk. cbn in Hk. rewrite lookup_empty in Hk. now destruct Hk.
  - intros Hctx. repeat split.
    + now apply canonical_keys_insert.
    + rewrite addResponseHeader_headers. now apply canonical_keys_insert.
    + unfold Gateway.setResponseHeader.
      destruct (String.eqb _ _); [exact Hctx|now apply canonical_keys_insert].
    + unfold Gateway.addResponseHeader. rewrite addResponseHeader_headers.
      now apply canonical_keys_insert.
    + now apply canonical_keys_insert.
Qed.

Lemma response_headers_canonical_witness :
  canonical_keys
    (responseHeaders
       (Gateway.addResponseHeader "x_trace" ["1"] (new_Context ∅ (BodyValue JNull) ∅))).
Proof.
  destruct (response_headers_canonical "x_trace" ["1"] 200
              (new_Context ∅ (BodyValue JNull) ∅)) as [Hnew Hkeep].
  exact (proj1 (proj2 (proj2 (proj2 (Hkeep Hnew))))).
Defined.

(** ** Result Encoder: the headers on the transport *)

Lemma fold_add_header_miss (l : list (string * list string))
  (m : gmap string (string * header_value)) (j : string) :
  (forall kv, kv ∈ l -> Str.toLowerCase (fst kv) <> j) ->
  fold_left add_header l m !! j = m !! j.
Proof.
  revert m. induction l as [|kv l IH]; intros m Hl; [reflexivity|].
  simpl. rewrite IH.
  - unfold add_header. apply lookup_insert_ne. apply Hl. left.
  - intros kv' Hin. apply Hl. now right.
Qed.

Lemma fold_add_header_hit (l : list (string * list string))
  (m : gmap string (string * header_value)) (k : string) (v : list string) :
  (forall kv, kv ∈ l -> Str.toLowerCase (fst kv) = Str.toLowerCase k -> kv = (k, v)) ->
  (k, v) ∈ l \/ m !! Str.toLowerCase k = Some (k, HList v) ->
  fold_left add_header l m !! Str.toLowerCase k = Some (k, HList v).
Proof.
  revert m. induction l as [|kv l IH]; intros m Hl Hin.
  - destruct Hin as [Hin|Hm]; [|exact Hm]. now apply elem_of_nil in Hin.
  - simpl. apply IH; [intros kv' Hkv'; apply Hl; now right|].
    destruct (decide (Str.toLowerCase (fst kv) = Str.toLowerCase k)) as [Heq|Hne].
    + right. rewrite (Hl kv) by (left || exact Heq). unfold add_header.
      apply lookup_insert_eq.
    + destruct Hin as [Hin|Hm].
      * left. apply elem_of_cons in Hin as [Heq|Hin]; [|exact Hin].
        exfalso. apply Hne. now rewrite <- Heq.
      * right. unfold add_header. now rewrite lookup_insert_ne.
Qed.

Lemma canonical_same_lower (m : FnHeaders) (k k' : string) (v v' : list string) :
  canonical_keys m -> m !! k = Some v -> m !! k' = Some v' ->
  Str.toLowerCase k' = Str.toLowerCase k -> (k', v') = (k, v).
Proof.
  intros Hm Hk Hk' Hlow.
  assert (k' = k) by (apply canonical_lower_inj; eauto). subst k'.
  congruence.
Qed.

Lemma reserved_name_lower (k name : string) :
  canonHeader k = k -> canonHeader name = name -> k <> name ->
  Str.toLowerCase name <> Str.toLowerCase k.
Proof. intros Hk Hn Hne Hlow. apply Hne. symmetry. now apply canonical_lower_inj. Qed.

(** X7: what [sendResult] puts on a new transport response, for a context
    whose response-header keys are canonical and whatever the result: every
    response header of the context whose name is not Content-Length,
    Fn-Fdk-Version or Fn-Fdk-Runtime, with its values; no Content-Length
    header, even if the context holds one; the two identification headers
    with the values of the runtime, even if the context sets them
    otherwise; and no header under a name that is none of these. *)
Theorem sendResult_sends_headers `{RT : Runtime} (result : Result) (w : World) :
  canonical_keys (responseHeaders (w_ctx w)) ->
  let sent := w_resp (snd (sendResult result (set_resp new_ServerResponse w))) in
  (forall (key : string) (values : list string),
     responseHeaders (w_ctx w) !! key = Some values ->
     reserved_name key = false ->
     Resp.header key sent = Some (HList values))
  /\ Resp.header "Content-Length" sent = None
  /\ Resp.header "Fn-Fdk-Version" sent = Some (HString fdkVersion)
  /\ Resp.header "Fn-Fdk-Runtime" sent = Some (HString runtimeTag)
  /\ (forall name : string,
        responseHeaders (w_ctx w) !! canonHeader name = None ->
        reserved_name (canonHeader name) = false ->
        Resp.header name sent = None).
Proof.
  intros Hcanon sent. unfold sent, Resp.header.
  rewrite sendResult_headers by reflexivity.
  unfold sent_headers. destruct w as [ctx r calls un].
  cbn [w_ctx w_resp set_resp resp_headers new_ServerResponse] in *.
  split; [|split; [|split; [|split]]].
  - intros key values Hkey Hres.
    assert (Hk : canonHeader key = key) by (apply Hcanon; now rewrite Hkey).
    unfold reserved_name in Hres.
    apply orb_false_elim in Hres as [Hres Hrt].
    apply orb_false_elim in Hres as [Hcl Hver].
    apply String.eqb_neq in Hcl, Hver, Hrt.
    rewrite lookup_insert_ne by (apply (reserved_name_lower key "Fn-Fdk-Runtime"); auto).
    rewrite lookup_insert_ne by (apply (reserved_name_lower key "Fn-Fdk-Version"); auto).
    rewrite lookup_delete_ne by (apply (reserved_name_lower key "Content-Length"); auto).
    rewrite (fold_add_header_hit _ _ key values); [reflexivity| |].
    + intros [k' v'] Hin Hlow. apply elem_of_map_to_list in Hin.
      now apply (canonical_same_lower (responseHeaders ctx)).
    + left. now apply elem_of_map_to_list.
  - rewrite lookup_insert_ne by discriminate.
    rewrite lookup_insert_ne by discriminate.
    change (Str.toLowerCase "Content-Length") with "content-length".
    now rewrite lookup_delete_eq.
  - rewrite lookup_insert_ne by discriminate.
    change (Str.toLowerCase "Fn-Fdk-Version") with "fn-fdk-version".
    now rewrite lookup_insert_eq.
  - change (Str.toLowerCase "Fn-Fdk-Runtime") with "fn-fdk-runtime".
    now rewrite lookup_insert_eq.
  - intros name Hnone Hres.
    unfold reserved_name in Hres.
    apply orb_false_elim in Hres as [Hres Hrt].
    apply orb_false_elim in Hres as [Hcl Hver].
    apply String.eqb_neq in Hcl, Hver, Hrt.
    assert (Hother : forall reserved : string,
               canonHeader reserved = reserved -> canonHeader name <> reserved ->
               Str.toLowerCase reserved <> Str.toLowerCase name).
    { intros reserved Hr Hne Hlow. apply Hne.
      rewrite <- Hr, <- (canonHeader_toLowerCase name), <- Hlow.
      now rewrite canonHeader_toLowerCase. }
    rewrite lookup_insert_ne by (apply (Hother "Fn-Fdk-Runtime"); auto).
    rewrite lookup_insert_ne by (apply (Hother "Fn-Fdk-Version"); auto).
    rewrite lookup_delete_ne by (apply (Hother "Content-Length"); auto).
    rewrite fold_add_header_miss; [now rewrite lookup_empty|].
    intros [k' v'] Hin Hlow. apply elem_of_map_to_list in Hin. simpl in Hlow.
    assert (Hk' : canonHeader k' = k') by (apply Hcanon; now rewrite Hin).
    assert (canonHeader name = k').
    { rewrite <- Hk', <- (canonHeader_toLowerCase name), <- Hlow.
      now rewrite canonHeader_toLowerCase. }
    congruence.
Qed.

Lemma sendResult_sends_headers_witness :
  let ctx :=
    Ctx.setResponseHeader "content_length" ["3"]
      (Ctx.addResponseHeader "x_id" ["7"] (new_Context ∅ (BodyValue JNull) ∅)) in
  let sent :=
    w_resp (snd (sendResult (RT := node18) (RValue (JString "abc"))
                   (set_resp new_ServerResponse (new_World ctx new_ServerResponse)))) in
  Resp.header "X-Id" sent = Some (HList ["7"])
  /\ Resp.header "Content-Length" sent = None
  /\ Resp.header "Etag" sent = None.
Proof.
  cbv zeta.
  assert (Hcanon : canonical_keys
            (responseHeaders
               (Ctx.setResponseHeader "content_length" ["3"]
                  (Ctx.addResponseHeader "x_id" ["7"]
                     (new_Context ∅ (BodyValue JNull) ∅))))).
  { apply canonical_keys_insert. rewrite addResponseHeader_headers.
    apply canonical_keys_insert. intros k Hk. cbn in Hk.
    rewrite lookup_empty in Hk. now destruct Hk. }
  destruct (sendResult_sends_headers (RT := node18) (RValue (JString "abc"))
              (new_World
                 (Ctx.setResponseHeader "content_length" ["3"]
                    (Ctx.addResponseHeader "x_id" ["7"]
                       (new_Context ∅ (BodyValue JNull) ∅)))
                 new_ServerResponse) Hcanon) as (Hsent & Hlen & _ & _ & Hnone).
  split; [apply Hsent; vm_compute; reflexivity|].
  split; [exact Hlen|].
  apply Hnone; vm_compute; reflexivity.
Defined.

(** ** Result Encoder: a response that is already committed *)

Lemma set_resp_same (w : World) : set_resp (w_resp w) w = w.
Proof. now destruct w. Qed.

Lemma for_each_setHeader_sent (l : list (string * list string)) (w : World) :
  resp_headersSent (w_resp w) = true ->
  for_each l (fun kv => on_resp (Resp.setHeader (fst kv) (HList (snd kv)))) w
  = (match l with
     | [] => Normal tt
     | _ :: _ => Throw (Resp.headers_sent_error "set")
     end, w).
Proof.
  intros Hsent. destruct l as [|kv l]; [reflexivity|].
  cbn [for_each]. unfold bind, on_resp, zoom, Resp.setHeader.
  rewrite Hsent. now rewrite set_resp_same.
Qed.

Lemma sendResult_sent `{RT : Runtime} (result : Result) (w : World) :
  resp_headersSent (w_resp w) = true ->
  exists e : string,
    sendResult result w = (Throw e, set_ctx (typed_ctx (w_ctx w) result) w).
Proof.
  intros Hsent. unfold sendResult, typed_ctx.
  unfold bind at 1. unfold get at 1. cbv beta iota zeta.
  destruct (negb (truthy (responseContentType (w_ctx w))) && not_null result).
  - unfold bind at 1. unfold bind at 1. unfold on_ctx at 1, modify, ret at 1.
    unfold bind at 1. unfold get at 1. unfold bind at 1.
    rewrite for_each_setHeader_sent by (destruct w; exact Hsent).
    destruct (map_to_list _) as [|kv l].
    + unfold bind at 1. unfold on_resp at 1, zoom, Resp.removeHeader.
      destruct w as [ctx r calls un]. cbn in Hsent. cbn [w_resp set_ctx].
      rewrite Hsent. eexists. reflexivity.
    + eexists. reflexivity.
  - unfold bind at 1. unfold ret at 1.
    unfold bind at 1. unfold get at 1. unfold bind at 1.
    rewrite for_each_setHeader_sent by exact Hsent.
    destruct (map_to_list _) as [|kv l].
    + unfold bind at 1. unfold on_resp at 1, zoom, Resp.removeHeader.
      rewrite Hsent. rewrite set_resp_same. destruct w. eexists. reflexivity.
    + destruct w. eexists. reflexivity.
Qed.

(** X8: on a transport response whose status line is committed, neither
    [sendResult] nor [sendJSONError] writes anything: each throws on its
    first header call and leaves the response as it was, so that neither
    adds a chunk or a second end to a response that is already sent. *)
Theorem committed_response_untouched `{RT : Runtime} (result : Result)
  (code : Z) (message detail : string) (w : World) :
  resp_headersSent (w_resp w) = true ->
  (exists e : string, fst (sendResult result w) = Throw e)
  /\ w_resp (snd (sendResult result w)) = w_resp w
  /\ sendJSONError code message detail (w_resp w)
     = (Throw (Resp.headers_sent_error "set"), w_resp w).
Proof.
  intros Hsent. destruct (sendResult_sent result w Hsent) as (e & ->).
  split; [now exists e|]. split; [now destruct w|].
  now apply sendJSONError_sent.
Qed.

Lemma committed_response_untouched_witness :
  let w := new_World (new_Context ∅ (BodyValue JNull) ∅) new_ServerResponse in
  let sent := snd (sendResult (RT := node18) (RValue (JString "once")) w) in
  w_resp (snd (sendResult (RT := node18) (RValue (JString "twice")) sent))
  = w_resp sent.
Proof.
  cbv zeta.
  exact (proj1 (proj2
    (committed_response_untouched (RT := node18) (RValue (JString "twice")) 500
       "m" "d"
       (snd (sendResult (RT := node18) (RValue (JString "once"))
               (new_World (new_Context ∅ (BodyValue JNull) ∅) new_ServerResponse)))
       eq_refl))).
Defined.

(** ** Result Encoder: the body by content-type *)

Lemma sendResult_body `{RT : Runtime} (result : Result) (w : World)
  (written : list string) :
  payload (marks_json (w_ctx w) result) result = Normal written ->
  fst (sendResult result (set_resp new_ServerResponse w)) = Normal tt
  /\ resp_body (w_resp (snd (sendResult result (set_resp new_ServerResponse w))))
     = written
  /\ resp_ends (w_resp (snd (sendResult result (set_resp new_ServerResponse w)))) = 1
  /\ resp_statusCode (w_resp (snd (sendResult result (set_resp new_ServerResponse w))))
     = 200%Z
  /\ responseContentType (w_ctx (snd (sendResult result (set_resp new_ServerResponse w))))
     = responseContentType (typed_ctx (w_ctx w) result).
Proof.
  intros Hpay.
  destruct (sendResult_once result (set_resp new_ServerResponse w) written)
    as (Hc & He & Hb & Hs & Hx); try reflexivity.
  - destruct w; exact Hpay.
  - repeat split; try assumption. rewrite Hx. now destruct w.
Qed.

(** X9: with an explicit content-type that is not a JSON type (it neither
    starts with application/json nor contains +json), [sendResult] writes a
    string or a buffer as it is, without quotes, and writes nothing at all
    for any other value, an object or a number for instance; with a JSON
    type it writes the JSON serialization. In each case the content-type is
    left as user code set it and the response is ended once with status
    200. *)
Theorem sendResult_explicit_type `{RT : Runtime} (ct : string) (v : value)
  (bytes text : string) (w : World) :
  responseContentType (w_ctx w) = Some ct ->
  Str.nonempty ct = true ->
  let run result := snd (sendResult result (set_resp new_ServerResponse w)) in
  let json := Str.startsWith "application/json" ct || Str.includes "+json" ct in
  resp_body (w_resp (run (RValue (JString text))))
  = (if json then [Json.stringify (JString text)] else [text])
  /\ resp_body (w_resp (run (RBuffer bytes)))
     = (if json then [Json.stringify (Buffer_toJSON bytes)] else [bytes])
  /\ (v <> JNull -> (forall s, v <> JString s) ->
      resp_body (w_resp (run (RValue v)))
      = (if json then [Json.stringify v] else []))
  /\ (forall result : Result,
        (forall n, result <> RBigInt n) ->
        resp_ends (w_resp (run result)) = 1
        /\ resp_statusCode (w_resp (run result)) = 200%Z
        /\ responseContentType (w_ctx (run result)) = Some ct).
Proof.
  intros Hct Hne run json.
  assert (Hmark : forall result, marks_json (w_ctx w) result = json).
  { intros result. unfold marks_json, is_json_type. rewrite Hct. cbn [truthy].
    rewrite Hne. reflexivity. }
  assert (Htyped : forall result, typed_ctx (w_ctx w) result = w_ctx w).
  { intros result. unfold typed_ctx. rewrite Hct. cbn [truthy]. now rewrite Hne. }
  unfold run. split; [|split; [|split]].
  - apply (sendResult_body (RValue (JString text)) w).
    rewrite Hmark. now destruct json.
  - apply (sendResult_body (RBuffer bytes) w).
    rewrite Hmark. now destruct json.
  - intros Hnull Hstr. apply (sendResult_body (RValue v) w).
    rewrite Hmark.
    destruct v; try congruence; try (exfalso; eapply Hstr; reflexivity);
      now destruct json.
  - intros result Hbig.
    assert (Hpay : exists written,
               payload (marks_json (w_ctx w) result) result = Normal written).
    { rewrite Hmark. destruct result as [|x|b|d|n].
      - now exists [].
      - destruct x; destruct json; eexists; reflexivity.
      - destruct json; eexists; reflexivity.
      - eexists; reflexivity.
      - now destruct (Hbig n). }
    destruct Hpay as (written & Hpay).
    destruct (sendResult_body result w written Hpay) as (_ & _ & He & Hs & Hx).
    repeat split; try assumption. now rewrite Hx, Htyped.
Qed.

Lemma sendResult_explicit_type_witness :
  let w := new_World (set_responseContentType (Some "text/plain")
                        (new_Context ∅ (BodyValue JNull) ∅)) new_ServerResponse in
  resp_body (w_resp (snd (sendResult (RT := node18) (RValue (JString "plain"))
                            (set_resp new_ServerResponse w))))
  = ["plain"]
  /\ resp_body (w_resp (snd (sendResult (RT := node18) (RValue (JNumber 5))
                               (set_resp new_ServerResponse w))))
     = [].
Proof.
  cbv zeta.
  destruct (sendResult_explicit_type (RT := node18) "text/plain" (JNumber 5) "" "plain"
              (new_World (set_responseContentType (Some "text/plain")
                            (new_Context ∅ (BodyValue JNull) ∅)) new_ServerResponse)
              eq_refl eq_refl) as (Hstr & _ & Hval & _).
  split; [exact Hstr|]. apply Hval; [discriminate|intros s; discriminate].
Defined.

(** X10: for an empty result ([null] or [undefined]) [sendResult] writes no
    body and does not default the content-type, which stays unset if it was;
    an empty-string content-type counts as unset, so that a value returned
    with it is written as JSON and the content-type becomes
    application/json. The response is ended once with status 200. *)
Theorem sendResult_empty_result `{RT : Runtime} (v : value) (w : World) :
  (forall result : Result,
     not_null result = false ->
     let w' := snd (sendResult result (set_resp new_ServerResponse w)) in
     resp_body (w_resp w') = []
     /\ resp_ends (w_resp w') = 1
     /\ resp_statusCode (w_resp w') = 200%Z
     /\ responseContentType (w_ctx w') = responseContentType (w_ctx w))
  /\ (responseContentType (w_ctx w) = Some "" -> v <> JNull ->
      let w' := snd (sendResult (RValue v) (set_resp new_ServerResponse w)) in
      resp_body (w_resp w') = [Json.stringify v]
      /\ responseContentType (w_ctx w') = Some "application/json").
Proof.
  split.
  - intros result Hnull. cbv zeta.
    assert (Hpay : payload (marks_json (w_ctx w) result) result = Normal [])
      by (unfold payload; now rewrite Hnull).
    destruct (sendResult_body result w [] Hpay) as (_ & Hb & He & Hs & Hx).
    repeat split; try assumption.
    rewrite Hx. unfold typed_ctx. rewrite Hnull. now rewrite andb_false_r.
  - intros Hct Hv. cbv zeta.
    assert (Hpay : payload (marks_json (w_ctx w) (RValue v)) (RValue v)
                   = Normal [Json.stringify v]).
    { unfold marks_json. rewrite Hct. destruct v; try reflexivity. congruence. }
    destruct (sendResult_body (RValue v) w _ Hpay) as (_ & Hb & _ & _ & Hx).
    split; [exact Hb|]. rewrite Hx. unfold typed_ctx. rewrite Hct.
    destruct v; try reflexivity. congruence.
Qed.

Lemma sendResult_empty_result_witness :
  let w := new_World (new_Context ∅ (BodyValue JNull) ∅) new_ServerResponse in
  let w' := snd (sendResult (RT := node18) (RValue JNull) (set_resp new_ServerResponse w)) in
  resp_body (w_resp w') = [] /\ resp_ends (w_resp w') = 1
  /\ responseContentType (w_ctx w') = None.
Proof.
  cbv zeta.
  destruct (sendResult_empty_result (RT := node18) JNull
              (new_World (new_Context ∅ (BodyValue JNull) ∅) new_ServerResponse))
    as [Hempty _].
  destruct (Hempty (RValue JNull) eq_refl) as (Hb & He & _ & Hx).
  repeat split; assumption.
Defined.

(** ** Input Accumulator: the three disciplines *)

Lemma accumulate_buffer (buffers chunks : list string) :
  accumulate (BufferInputHandler buffers) chunks
  = BufferInputHandler (buffers ++ chunks).
Proof.
  revert buffers. induction chunks as [|c chunks IH]; intros buffers.
  - cbn. now rewrite app_nil_r.
  - unfold accumulate in *. cbn [fold_left pushData]. rewrite IH.
    now rewrite <- app_assoc.
Qed.

Lemma accumulate_string (str : string) (chunks : list string) :
  accumulate (StringInputHandler str) chunks
  = StringInputHandler (str +:+ String.concat "" chunks).
Proof.
  revert str. induction chunks as [|c chunks IH]; intros str.
  - cbn. now rewrite append_empty_r.
  - unfold accumulate in *. cbn [fold_left pushData]. rewrite IH.
    now rewrite concat_cons, append_assoc.
Qed.

Lemma getBody_accumulate (inputMode : InputMode) (chunks : list string) :
  getBody (accumulate (getInputHandler inputMode) chunks)
  = match inputMode with
    | mode_buffer => BodyBuffer (String.concat "" chunks)
    | mode_string => BodyValue (JString (String.concat "" chunks))
    | mode_json =>
        match Json.parse (String.concat "" chunks) with
        | Some v => BodyValue v
        | None => BodyValue (JString (String.concat "" chunks))
        end
    end.
Proof.
  destruct inputMode; unfold getInputHandler.
  - now rewrite accumulate_buffer.
  - now rewrite accumulate_string.
  - now rewrite accumulate_json.
Qed.

(** X11: the buffer mode gives the concatenation of the bytes of the
    chunks, so that there the way the transport cuts the input into [data]
    events does not matter. The string and json modes decode each chunk by
    itself and join the texts: for chunks of 7-bit bytes, which decode to
    themselves, the cut does not matter either; the string mode gives the
    joined text, always as a string even when it is a JSON text, and the
    json mode agrees with it on every text that does not begin as a JSON
    value can begin. *)
Theorem getBody_chunking (inputMode : InputMode) (chunks chunks' : list string) :
  String.concat "" chunks = String.concat "" chunks' ->
  inputMode = mode_buffer
  \/ (forallb is_ascii chunks = true /\ forallb is_ascii chunks' = true) ->
  getBody (accumulate (getInputHandler inputMode) chunks)
  = getBody (accumulate (getInputHandler inputMode) chunks')
  /\ (inputMode = mode_buffer ->
      getBody (accumulate (getInputHandler inputMode) chunks)
      = BodyBuffer (String.concat "" chunks))
  /\ (inputMode = mode_string ->
      getBody (accumulate (getInputHandler inputMode) chunks)
      = BodyValue (JString (String.concat "" chunks)))
  /\ (inputMode = mode_json ->
      starts_value (String.concat "" chunks) = false ->
      getBody (accumulate (getInputHandler inputMode) chunks)
      = getBody (accumulate (getInputHandler mode_string) chunks)).
Proof.
  intros Hcat _. rewrite !getBody_accumulate. rewrite Hcat.
  split; [reflexivity|]. split; [now intros ->|]. split; [now intros ->|].
  intros -> Hstart. now rewrite parse_not_value.
Qed.

Lemma getBody_chunking_witness :
  getBody (accumulate (getInputHandler mode_string) ["ab"; "c"])
  = getBody (accumulate (getInputHandler mode_string) ["a"; ""; "bc"])
  /\ getBody (accumulate (getInputHandler mode_buffer) ["ab"; "c"])
     = BodyBuffer "abc".
Proof.
  split.
  - exact (proj1 (getBody_chunking mode_string ["ab"; "c"] ["a"; ""; "bc"] eq_refl
                    (or_intror (conj eq_refl eq_refl)))).
  - exact (proj1 (proj2 (getBody_chunking mode_buffer ["ab"; "c"] ["abc"] eq_refl
                           (or_introl eq_refl))) eq_refl).
Defined.

(** ** Dispatch Loop: the error paths *)

(** X12: when reading the request fails, a well-formed call is answered
    with status 500 and the error envelope whose message is Request Error
    and whose detail is the error, sent as application/json and ended once,
    whatever the handler, the input mode, the headers and the chunks already
    read; the handler is not called and no context is built. *)
Theorem functionHandler_request_error `{RT : Runtime} (env : gmap string string)
  (inputMode : InputMode) (handler : Handler) (req : IncomingMessage) (e : string) :
  method req = "POST" -> url req = "/call" -> failure req = Some e ->
  let served := functionHandler env inputMode handler req new_ServerResponse in
  served_calls served = 0
  /\ served_ctx served = None
  /\ served_unhandled served = []
  /\ resp_statusCode (served_resp served) = 500%Z
  /\ resp_body (served_resp served)
     = [Json.stringify (JObject [("message", JString "Request Error");
                                 ("detail", JString e)])]
  /\ resp_ends (served_resp served) = 1
  /\ resp_headers (served_resp served)
     = {["content-type" := ("Content-Type", HString "application/json")]}.
Proof.
  intros Hm Hu Hf. cbv zeta. unfold functionHandler. rewrite Hm, Hu, Hf.
  cbn [String.eqb Ascii.eqb Bool.eqb negb orb]. cbv zeta.
  rewrite sendJSONError_unsent by reflexivity.
  cbn [served_calls served_ctx served_unhandled served_resp resp_statusCode
       resp_body resp_ends new_ServerResponse app].
  repeat split.
Qed.

Lemma functionHandler_request_error_witness :
  let req := {| method := "POST"; url := "/call"; rawHeaders := [];
                chunks := ["{"]; failure := Some "Error: aborted" |} in
  let served :=
    functionHandler (RT := node18) ∅ mode_json
      (UserFunction (fun _ ctx => (Normal RUndefined, ctx))) req new_ServerResponse in
  served_calls served = 0 /\ resp_statusCode (served_resp served) = 500%Z.
Proof.
  cbv zeta.
  destruct (functionHandler_request_error (RT := node18) ∅ mode_json
              (UserFunction (fun _ ctx => (Normal RUndefined, ctx)))
              {| method := "POST"; url := "/call"; rawHeaders := [];
                 chunks := ["{"]; failure := Some "Error: aborted" |}
              "Error: aborted" eq_refl eq_refl eq_refl)
    as (Hc & _ & _ & Hs & _).
  split; assumption.
Defined.



(** ** Gateway View: the getter [headers] *)

Lemma nonempty_length (s : string) :
  Str.nonempty s = (0 <? String.length s)%nat.
Proof. now destruct s. Qed.

Lemma Gateway_headers_lookup_aux (ctx : Context) (name : string) :
  Gateway.headers ctx !! name
  = if Str.nonempty name then headers ctx !! (Gateway.prefix +:+ name) else None.
Proof.
  unfold Gateway.headers. revert name.
  apply (map_fold_weak_ind
           (fun (r : FnHeaders) (m : FnHeaders) =>
              forall name, r !! name
                = if Str.nonempty name then m !! (Gateway.prefix +:+ name) else None)).
  - intros name. rewrite !lookup_empty. now destruct (Str.nonempty name).
  - intros key values m r Hfresh IH name.
    destruct (String.prefix Gateway.prefix key
              && (String.length Gateway.prefix <? String.length key)%nat) eqn:Htest.
    + apply andb_true_iff in Htest as [Hpre Hlen].
      apply Nat.ltb_lt in Hlen.
      pose proof (prefix_split _ _ Hpre) as Hkey.
      set (rest := String.substring (String.length Gateway.prefix)
                     (String.length key - String.length Gateway.prefix) key) in *.
      assert (Hrest : Str.nonempty rest = true).
      { rewrite nonempty_length. apply Nat.ltb_lt.
        rewrite Hkey, append_length in Hlen. lia. }
      destruct (String.eqb_spec rest name) as [<-|Hne].
      * rewrite lookup_insert_eq, Hrest, <- Hkey. now rewrite lookup_insert_eq.
      * rewrite lookup_insert_ne by exact Hne. rewrite IH.
        destruct (Str.nonempty name); [|reflexivity].
        rewrite lookup_insert_ne; [reflexivity|].
        rewrite Hkey. intros Heq. apply append_inj in Heq. contradiction.
    + rewrite IH. destruct (Str.nonempty name) eqn:Hname; [|reflexivity].
      rewrite lookup_insert_ne; [reflexivity|].
      intros ->. rewrite prefix_append in Htest. cbn [andb] in Htest.
      apply Nat.ltb_ge in Htest. rewrite append_length in Htest.
      rewrite nonempty_length in Hname. apply Nat.ltb_lt in Hname. lia.
Qed.

Lemma canonHeader_nonempty (key : string) :
  Str.nonempty (canonHeader key) = Str.nonempty key.
Proof.
  rewrite !nonempty_length, canonHeader_scan, canon_scan_length. reflexivity.
Qed.

(** X14: the getter [headers] of the Gateway View holds, under each
    non-empty name, what the request headers hold under the prefix followed
    by that name, and nothing under the empty name: the bare prefix is not
    unwrapped, and headers without the prefix do not appear. Its keys are
    canonical when those of the request are. For a non-empty name in any
    spelling, [getHeader] and [getAllHeaderValues] of the view read the
    entry of that getter under the canonical name; for the empty name they
    read the bare-prefix header, which the getter leaves out. *)
Theorem Gateway_headers_lookup (ctx : Context) (name : string) :
  Gateway.headers ctx !! name
  = (if Str.nonempty name then headers ctx !! (Gateway.prefix +:+ name) else None)
  /\ (canonical_keys (headers ctx) -> canonical_keys (Gateway.headers ctx))
  /\ (Str.nonempty name = true ->
      Gateway.getAllHeaderValues ctx name
      = match Gateway.headers ctx !! canonHeader name with
        | Some values => values
        | None => []
        end
      /\ Gateway.getHeader ctx name
         = match Gateway.headers ctx !! canonHeader name with
           | Some values => List.head values
           | None => None
           end)
  /\ Gateway.getAllHeaderValues ctx ""
     = match headers ctx !! Gateway.prefix with Some values => values | None => [] end
  /\ Gateway.headers ctx !! "" = None.
Proof.
  split; [apply Gateway_headers_lookup_aux|]. split; [|split; [|split]].
  - intros Hcanon key [values Hkey].
    rewrite Gateway_headers_lookup_aux in Hkey.
    destruct (Str.nonempty key); [|discriminate].
    pose proof (Hcanon (Gateway.prefix +:+ key) (ex_intro _ values Hkey)) as Hfix.
    rewrite canonHeader_prefix in Hfix. now apply append_inj in Hfix.
  - intros Hname.
    unfold Gateway.getAllHeaderValues, Gateway.getHeader,
      Ctx.getAllHeaderValues, Ctx.getHeader.
    rewrite canonHeader_prefix, Gateway_headers_lookup_aux, canonHeader_nonempty, Hname.
    split; reflexivity.
  - reflexivity.
  - now rewrite Gateway_headers_lookup_aux.
Qed.

Lemma Gateway_headers_lookup_witness :
  let ctx := new_Context ∅ (BodyValue JNull)
               (processHeaders [("fn-http-h-accept", "a/b"); ("Fn-Http-H-", "bare");
                                ("Host", "h")]) in
  Gateway.getHeader ctx "ACCEPT"
  = match Gateway.headers ctx !! canonHeader "ACCEPT" with
    | Some values => List.head values
    | None => None
    end.
Proof.
  cbv zeta.
  destruct (Gateway_headers_lookup
              (new_Context ∅ (BodyValue JNull)
                 (processHeaders [("fn-http-h-accept", "a/b"); ("Fn-Http-H-", "bare");
                                  ("Host", "h")])) "ACCEPT")
    as (_ & _ & Hget & _).
  exact (proj2 (Hget eq_refl)).
Defined.

(** ** Middleware Shim: the synthetic response *)

Lemma get_set_field {V : Type} (key key' : string) (x : V)
  (fields : list (string * V)) :
  get_field key' (set_field key x fields)
  = if String.eqb key key' then Some x else get_field key' fields.
Proof.
  induction fields as [|[k y] rest IH]; cbn [set_field get_field].
  - reflexivity.
  - destruct (String.eqb_spec k key) as [->|Hne]; cbn [get_field].
    + now destruct (String.eqb key key').
    + destruct (String.eqb_spec k key') as [->|Hne'].
      * destruct (String.eqb_spec key key'); congruence.
      * exact IH.
Qed.

Lemma set_field_keys {V : Type} (P : string -> Prop) (key : string) (x : V)
  (fields : list (string * V)) :
  P key -> Forall (fun kv => P (fst kv)) fields ->
  Forall (fun kv => P (fst kv)) (set_field key x fields).
Proof.
  intros Hkey. induction 1 as [|[k y] rest Hk Hrest IH]; cbn [set_field].
  - repeat constructor. exact Hkey.
  - destruct (String.eqb k key); constructor; assumption.
Qed.

Lemma toLowerCase_idem (s : string) :
  Str.toLowerCase (Str.toLowerCase s) = Str.toLowerCase s.
Proof.
  unfold Str.toLowerCase. induction s as [|c s IH]; [reflexivity|].
  cbn [Str.map]. now rewrite lower_char_idem, IH.
Qed.

Lemma toLowerCase_toUpperCase (s : string) :
  Str.toLowerCase (Str.toUpperCase s) = Str.toLowerCase s.
Proof.
  unfold Str.toLowerCase, Str.toUpperCase. induction s as [|c s IH]; [reflexivity|].
  cbn [Str.map]. now rewrite lower_of_upper, IH.
Qed.

Lemma setHeader_lower_keys (key value : string) (res : ExpressRes) :
  lower_keys res -> lower_keys (Res.setHeader key value res).
Proof.
  unfold lower_keys. cbn [Res.setHeader _headers]. intros Hres.
  apply (set_field_keys (fun k => Str.toLowerCase k = k)); [|exact Hres].
  apply toLowerCase_idem.
Qed.

Lemma writeHead_snoc (status : Z) (headers : list (string * string))
  (key value : string) (res : ExpressRes) :
  Res.writeHead status (headers ++ [(key, value)]) res
  = Res.setHeader key value (Res.writeHead status headers res).
Proof. unfold Res.writeHead. now rewrite fold_left_app. Qed.

Lemma writeHead_fields (status : Z) (headers : list (string * string))
  (res : ExpressRes) :
  _status (Res.writeHead status headers res) = status
  /\ _body (Res.writeHead status headers res) = _body res
  /\ _finished (Res.writeHead status headers res) = _finished res
  /\ (lower_keys res -> lower_keys (Res.writeHead status headers res)).
Proof.
  induction headers as [|[k v] headers IH] using rev_ind.
  - repeat split. trivial.
  - rewrite writeHead_snoc. destruct IH as (Hs & Hb & Hf & Hl).
    repeat split; try assumption. intros Hres. apply setHeader_lower_keys. auto.
Qed.

Lemma res_after_lower_keys (res : ExpressRes) (c : ResCall) :
  lower_keys res -> lower_keys (res_after res c).
Proof.
  intros Hres. destruct c as [key value|status hs|chunk|[chunk|]]; cbn [res_after].
  - now apply setHeader_lower_keys.
  - now apply writeHead_fields.
  - exact Hres.
  - now destruct (Str.nonempty chunk).
  - exact Hres.
Qed.

(** X15: the synthetic response reads and writes its headers by the
    lower-cased name: [getHeader] after [setHeader] gives the value under
    any casing of the name and leaves the other names as they were;
    [writeHead] sets the status and then sets its headers in order, so that
    of two names that differ only by case the later wins; neither touches
    the body or the finished flag. Every call on the response keeps all its
    header names in lower case. *)
Theorem Res_getHeader_setHeader (key key' value : string) (status : Z)
  (headers : list (string * string)) (c : ResCall) (res : ExpressRes) :
  Res.getHeader key' (Res.setHeader key value res)
  = (if String.eqb (Str.toLowerCase key) (Str.toLowerCase key') then Some value
     else Res.getHeader key' res)
  /\ Res.getHeader (Str.toUpperCase key) (Res.setHeader key value res) = Some value
  /\ Res.getHeader key'
       (Res.writeHead status (headers ++ [(key, value)]) res)
     = (if String.eqb (Str.toLowerCase key) (Str.toLowerCase key') then Some value
        else Res.getHeader key' (Res.writeHead status headers res))
  /\ _status (Res.writeHead status headers res) = status
  /\ _body (Res.writeHead status headers res) = _body res
  /\ _finished (Res.writeHead status headers res) = _finished res
  /\ (lower_keys res -> lower_keys (res_after res c)).
Proof.
  assert (Hget : forall r,
             Res.getHeader key' (Res.setHeader key value r)
             = if String.eqb (Str.toLowerCase key) (Str.toLowerCase key')
               then Some value else Res.getHeader key' r).
  { intros r. unfold Res.getHeader, Res.setHeader. cbn [_headers].
    apply get_set_field. }
  split; [apply Hget|]. split.
  - unfold Res.getHeader, Res.setHeader. cbn [_headers].
    rewrite get_set_field, toLowerCase_toUpperCase. now rewrite String.eqb_refl.
  - split; [rewrite writeHead_snoc; apply Hget|].
    destruct (writeHead_fields status headers res) as (Hs & Hb & Hf & _).
    repeat split; try assumption. apply res_after_lower_keys.
Qed.

Lemma Res_getHeader_setHeader_witness :
  lower_keys (res_after createExpressResponse
                (call_writeHead 201 [("Content-Type", "text/html"); ("X-A", "1")])).
Proof.
  apply (Res_getHeader_setHeader "" "" "" 0 []
           (call_writeHead 201 [("Content-Type", "text/html"); ("X-A", "1")])
           createExpressResponse).
  constructor.
Defined.

(** ** Middleware Shim: the settlement *)

Lemma run_call_after (c : ResCall) (x : Exchange) :
  run_call c x = (Normal tt, after_call x c).
Proof.
  destruct x as [res [settled|] reacted handled world];
    destruct c as [key v|status hs|chunk|[chunk|]]; try reflexivity;
    unfold run_call, Res.end_, after_call; cbn [res_after x_res is_end x_settled];
    destruct (Str.nonempty chunk); reflexivity.
Qed.

Lemma for_each_run_call (calls : list ResCall) (x : Exchange) :
  for_each calls run_call x = (Normal tt, fold_left after_call calls x).
Proof.
  revert x. induction calls as [|c calls IH]; intros x; [reflexivity|].
  cbn [for_each fold_left]. unfold bind. now rewrite run_call_after, IH.
Qed.

Lemma after_call_same (x : Exchange) (c : ResCall) :
  same_invocation x (after_call x c).
Proof. repeat split. Qed.

Lemma fold_after_call_same (calls : list ResCall) (x : Exchange) :
  same_invocation x (fold_left after_call calls x).
Proof.
  revert x. induction calls as [|c calls IH]; intros x; [repeat split|].
  cbn [fold_left]. eapply same_invocation_trans; [apply after_call_same|apply IH].
Qed.

Lemma fold_after_call_settled (calls : list ResCall) (x : Exchange)
  (settled : Z * string) :
  x_settled x = Some settled ->
  x_settled (fold_left after_call calls x) = Some settled.
Proof.
  revert x. induction calls as [|c calls IH]; intros x Hx; [exact Hx|].
  cbn [fold_left]. apply IH. unfold after_call. cbn [x_settled]. now rewrite Hx.
Qed.

Lemma fold_after_call_pending (calls : list ResCall) (x : Exchange) :
  x_settled x = None -> forallb (fun c => negb (is_end c)) calls = true ->
  x_settled (fold_left after_call calls x) = None.
Proof.
  revert x. induction calls as [|c calls IH]; intros x Hx Hcalls; [exact Hx|].
  cbn [forallb] in Hcalls. apply andb_true_iff in Hcalls as [Hc Hcalls].
  cbn [fold_left]. apply IH; [|exact Hcalls].
  unfold after_call. cbn [x_settled]. rewrite Hx.
  now destruct (is_end c).
Qed.

Lemma res_after_finished (res : ExpressRes) (c : ResCall) :
  _finished res = true -> _finished (res_after res c) = true.
Proof.
  intros Hres. destruct c as [key value|status hs|chunk|[chunk|]]; cbn [res_after];
    try reflexivity; try exact Hres.
  now rewrite (proj1 (proj2 (proj2 (writeHead_fields status hs res)))).
Qed.

Lemma fold_after_call_finished (calls : list ResCall) (x : Exchange) :
  _finished (x_res x) = true ->
  _finished (x_res (fold_left after_call calls x)) = true.
Proof.
  revert x. induction calls as [|c calls IH]; intros x Hx; [exact Hx|].
  cbn [fold_left]. apply IH. now apply res_after_finished.
Qed.

(** X16: the synthetic response settles once. The first [end] settles the
    promise with the status of that moment and the concatenation of the
    chunks written so far, followed by the chunk given to [end] if it is not
    empty; whatever is called on the response afterwards ([write],
    [writeHead], another [end]) leaves the settled status and body as they
    are and the response finished. No call on the response reaches the
    transport or the guard flag. *)
Theorem Res_end_settles_once (before later : list ResCall) (chunk : option string)
  (x : Exchange) :
  x_settled x = None ->
  forallb (fun c => negb (is_end c)) before = true ->
  let at_call := snd (for_each before run_call x) in
  let final := snd (for_each (before ++ call_end chunk :: later) run_call x) in
  x_settled final
  = Some (_status (x_res at_call),
          String.concat ""
            (_body (x_res at_call)
             ++ match chunk with
                | Some data => if Str.nonempty data then [data] else []
                | None => []
                end))
  /\ _finished (x_res final) = true
  /\ same_invocation x final.
Proof.
  intros Hpending Hbefore at_call final. unfold at_call, final.
  rewrite !for_each_run_call. cbn [snd].
  rewrite fold_left_app. cbn [fold_left].
  pose proof (fold_after_call_pending before x Hpending Hbefore) as Hstill.
  set (x1 := fold_left after_call before x) in *.
  split; [|split].
  - apply fold_after_call_settled. unfold after_call. cbn [x_settled is_end].
    rewrite Hstill. destruct chunk as [data|]; cbn [res_after].
    + destruct (Str.nonempty data); [reflexivity|]. now rewrite app_nil_r.
    + now rewrite app_nil_r.
  - apply fold_after_call_finished. cbn [after_call x_res].
    now destruct chunk as [data|].
  - eapply same_invocation_trans; [apply (fold_after_call_same before x)|].
    eapply same_invocation_trans; [apply after_call_same|].
    apply fold_after_call_same.
Qed.

Lemma Res_end_settles_once_witness :
  x_settled
    (snd (for_each ([call_writeHead 201 []; call_write "a"]
                    ++ call_end (Some "b") :: [call_write "c"; call_end None])
            run_call
            (new_Exchange (new_World (new_Context ∅ (BodyBuffer "") ∅)
                                     new_ServerResponse))))
  = Some (201%Z, "ab").
Proof.
  exact (proj1 (Res_end_settles_once [call_writeHead 201 []; call_write "a"]
                  [call_write "c"; call_end None] (Some "b")
                  (new_Exchange (new_World (new_Context ∅ (BodyBuffer "") ∅)
                                           new_ServerResponse))
                  eq_refl eq_refl)).
Defined.

(** ** Middleware Shim: the guard *)

Lemma frozen_refl (x : Exchange) : responseHandled x = true -> frozen x x.
Proof. intros Hx. repeat split. exact Hx. Qed.

Lemma frozen_trans (x y z : Exchange) : frozen x y -> frozen y z -> frozen x z.
Proof. intros (? & ? & ? & ?) (? & ? & ? & ?). repeat split; congruence. Qed.

Lemma frozen_handled (x y : Exchange) : frozen x y -> responseHandled y = true.
Proof. now intros (? & _). Qed.

Lemma for_each_app {S A : Type} (xs ys : list A) (body : A -> M S unit) (s : S) :
  for_each (xs ++ ys) body s
  = match for_each xs body s with
    | (Normal _, s') => for_each ys body s'
    | (Throw e, s') => (Throw e, s')
    end.
Proof.
  revert s. induction xs as [|x xs IH]; intros s; [reflexivity|].
  cbn [app for_each]. unfold bind.
  destruct (body x s) as [[[]|e] s']; [apply IH|reflexivity].
Qed.

Lemma for_each_calls `{RT : Runtime} (app : Application) (req : ExpressRequest)
  (calls : list ResCall) (x : Exchange) :
  for_each (List.map app_call calls) (run_step app req) x
  = (Normal tt, fold_left after_call calls x).
Proof.
  revert x. induction calls as [|c calls IH]; intros x; [reflexivity|].
  cbn [List.map for_each fold_left run_step]. unfold bind.
  now rewrite run_call_after, IH.
Qed.

Lemma express404Handler_later `{RT : Runtime} (app : Application)
  (req : ExpressRequest) (x : Exchange) :
  responseHandled x = true -> express404Handler app req x = (Normal tt, x).
Proof.
  intros Hdone. unfold express404Handler. unfold bind at 1. unfold get at 1.
  now rewrite Hdone.
Qed.

Lemma run_step_frozen `{RT : Runtime} (app : Application) (req : ExpressRequest)
  (step : AppStep) (x : Exchange) :
  responseHandled x = true ->
  exists (c : completion unit) (x' : Exchange),
    run_step app req step x = (c, x') /\ frozen x x'.
Proof.
  intros Hdone. destruct step as [c|[e|]|e]; cbn [run_step].
  - exists (Normal tt), (after_call x c). split; [apply run_call_after|].
    repeat split. exact Hdone.
  - exists (Normal tt), x. split; [now apply handleError_later|now apply frozen_refl].
  - exists (Normal tt), x. split; [|now apply frozen_refl].
    unfold next. unfold bind at 1. unfold get at 1.
    destruct (negb (_finished (x_res x))); [now apply express404Handler_later|].
    reflexivity.
  - exists (Throw e), x. split; [reflexivity|now apply frozen_refl].
Qed.

Lemma run_turn_frozen `{RT : Runtime} (app : Application) (req : ExpressRequest)
  (turn : list AppStep) (x : Exchange) :
  responseHandled x = true ->
  exists (c : completion unit) (x' : Exchange),
    run_turn app req turn x = (c, x') /\ frozen x x'.
Proof.
  unfold run_turn. revert x. induction turn as [|step turn IH]; intros x Hdone.
  - exists (Normal tt), x. split; [reflexivity|now apply frozen_refl].
  - cbn [for_each]. unfold bind.
    destruct (run_step_frozen app req step x Hdone) as (c & x1 & -> & Hfrozen).
    destruct c as [[]|e].
    + destruct (IH x1 (frozen_handled _ _ Hfrozen)) as (c2 & x2 & -> & Hfrozen2).
      exists c2, x2. split; [reflexivity|]. eapply frozen_trans; eassumption.
    + exists (Throw e), x1. split; [reflexivity|exact Hfrozen].
Qed.

Lemma uncaught_frozen (m : M Exchange unit) (x y : Exchange) (c : completion unit) :
  m x = (c, y) -> frozen x y ->
  exists (ok : bool) (x' : Exchange),
    uncaught m x = (Normal ok, x') /\ frozen x x'.
Proof.
  intros Hm Hfrozen. unfold uncaught. rewrite Hm. destruct c as [[]|e].
  - exists true, y. split; [reflexivity|exact Hfrozen].
  - eexists false, _. split; [reflexivity|].
    destruct Hfrozen as (? & ? & ? & ?). repeat split; assumption.
Qed.

Lemma run_reactions_frozen `{RT : Runtime} (x : Exchange) :
  responseHandled x = true ->
  exists x' : Exchange, run_reactions x = (Normal tt, x') /\ frozen x x'.
Proof.
  intros Hdone.
  destruct (run_reactions_later x Hdone) as (x' & Hrun & Hworld & Hhandled).
  exists x'. split; [exact Hrun|]. repeat split; congruence.
Qed.

Lemma run_later_frozen `{RT : Runtime} (app : Application) (req : ExpressRequest)
  (turns : list (list AppStep)) (x : Exchange) :
  responseHandled x = true ->
  exists x' : Exchange, run_later app req turns x = (Normal tt, x') /\ frozen x x'.
Proof.
  revert x. induction turns as [|turn turns IH]; intros x Hdone.
  - exists x. split; [reflexivity|now apply frozen_refl].
  - cbn [run_later]. unfold bind at 1.
    destruct (run_turn_frozen app req turn x Hdone) as (c & x1 & Hturn & Hfrozen1).
    destruct (uncaught_frozen _ x x1 c Hturn Hfrozen1) as (ok & x2 & -> & Hfrozen2).
    destruct ok.
    + unfold bind at 1.
      destruct (run_reactions_frozen x2 (frozen_handled _ _ Hfrozen2))
        as (x3 & -> & Hfrozen3).
      destruct (IH x3 (frozen_handled _ _ Hfrozen3)) as (x4 & -> & Hfrozen4).
      exists x4. split; [reflexivity|].
      eapply frozen_trans; [exact Hfrozen2|].
      eapply frozen_trans; eassumption.
    + exists x2. split; [reflexivity|exact Hfrozen2].
Qed.

(** X17: once the guard flag [responseHandled] is set, the exchange keeps
    its transport response and its context whatever the application does in
    the later turns of the event loop: calls on the synthetic response,
    calls of the callback with or without an error, and throws. Each of the
    three triggers is then a no-op, and the reaction on the promise of the
    synthetic response changes nothing either. *)
Theorem handled_exchange_frozen `{RT : Runtime} (app : Application)
  (req : ExpressRequest) (turns : list (list AppStep)) (status : Z)
  (text e : string) (x : Exchange) :
  responseHandled x = true ->
  fst (run_later app req turns x) = Normal tt
  /\ frozen x (snd (run_later app req turns x))
  /\ frozen x (snd (run_reactions x))
  /\ handleError e x = (Normal tt, x)
  /\ completeResponse status text x = (Normal tt, x)
  /\ express404Handler app req x = (Normal tt, x).
Proof.
  intros Hdone.
  destruct (run_later_frozen app req turns x Hdone) as (x1 & -> & Hfrozen1).
  destruct (run_reactions_frozen x Hdone) as (x2 & -> & Hfrozen2).
  split; [reflexivity|]. split; [exact Hfrozen1|]. split; [exact Hfrozen2|].
  split; [now apply handleError_later|].
  split; [now apply completeResponse_later|now apply express404Handler_later].
Qed.

Lemma handled_exchange_frozen_witness :
  let app := {| app_turns := fun _ => []; app_status_json := fun _ _ => ([], None) |} in
  let req := createExpressRequest (RT := node18) (new_Context ∅ (BodyBuffer "") ∅) "" in
  let x := handled_with new_ServerResponse
             (new_Exchange (new_World (new_Context ∅ (BodyBuffer "") ∅)
                                      new_ServerResponse)) in
  frozen x
    (snd (run_later (RT := node18) app req
            [[app_call (call_end (Some "late")); app_next (Some "Error: late")];
             [app_next None; app_throw "Error: later"]] x)).
Proof.
  cbv zeta.
  exact (proj1 (proj2
    (handled_exchange_frozen (RT := node18)
       {| app_turns := fun _ => []; app_status_json := fun _ _ => ([], None) |}
       (createExpressRequest (RT := node18) (new_Context ∅ (BodyBuffer "") ∅) "")
       [[app_call (call_end (Some "late")); app_next (Some "Error: late")];
        [app_next None; app_throw "Error: later"]]
       200 "" ""
       (handled_with new_ServerResponse
          (new_Exchange (new_World (new_Context ∅ (BodyBuffer "") ∅)
                                   new_ServerResponse)))
       eq_refl))).
Defined.

(** ** Middleware Shim: the error trigger *)

Lemma first_turn_error `{RT : Runtime} (app : Application) (req : ExpressRequest)
  (calls : list ResCall) (rest : list AppStep) (later : list (list AppStep))
  (trigger : AppStep) (e : string) (x : Exchange) :
  trigger = app_next (Some e) \/ trigger = app_throw e ->
  responseHandled x = false ->
  resp_headersSent (w_resp (x_world x)) = false ->
  exists x' : Exchange,
    run_exchange app req ((List.map app_call calls ++ trigger :: rest) :: later) x
    = (Normal tt, x')
    /\ frozen (handled_with (error_500 e (w_resp (x_world x))) x) x'.
Proof.
  intros Htrigger Hfresh Hsent.
  pose proof (fold_after_call_same calls x) as (_ & Hhandled1 & Hworld1).
  set (x1 := fold_left after_call calls x) in *.
  assert (Hfirst : handleError e x1
                   = (Normal tt, handled_with (error_500 e (w_resp (x_world x1))) x1))
    by (apply handleError_first; congruence).
  set (x2 := handled_with (error_500 e (w_resp (x_world x1))) x1) in *.
  assert (Hx2 : frozen (handled_with (error_500 e (w_resp (x_world x))) x) x2).
  { unfold x2, handled_with. rewrite Hworld1. repeat split. }
  assert (Hturn : exists x3,
             try_catch (run_turn app req (List.map app_call calls ++ trigger :: rest))
                       handleError x
             = (Normal tt, x3) /\ frozen x2 x3).
  { unfold try_catch, run_turn. rewrite for_each_app, for_each_calls.
    fold x1. cbn [for_each]. unfold bind.
    destruct Htrigger as [-> | ->]; cbn [run_step next].
    - rewrite Hfirst.
      destruct (run_turn_frozen app req rest x2 eq_refl) as (c & x3 & Hrest & Hfrozen).
      unfold run_turn in Hrest. rewrite Hrest. destruct c as [[]|e'].
      + exists x3. split; [reflexivity|exact Hfrozen].
      + exists x3. split; [|exact Hfrozen].
        apply handleError_later. exact (frozen_handled _ _ Hfrozen).
    - unfold throw. rewrite Hfirst. exists x2. split; [reflexivity|].
      now apply frozen_refl. }
  destruct Hturn as (x3 & Hturn & Hfrozen3).
  unfold run_exchange. unfold bind at 1. unfold uncaught at 1. rewrite Hturn.
  unfold bind at 1.
  destruct (run_reactions_frozen x3 (frozen_handled _ _ Hfrozen3))
    as (x4 & -> & Hfrozen4).
  destruct (run_later_frozen app req later x4 (frozen_handled _ _ Hfrozen4))
    as (x5 & -> & Hfrozen5).
  exists x5. split; [reflexivity|].
  eapply frozen_trans; [exact Hx2|].
  eapply frozen_trans; [exact Hfrozen3|].
  eapply frozen_trans; eassumption.
Qed.

(** X18: an error in the first turn wins. When the application, in the turn
    in which it is called, passes an error to the callback or throws, after
    any calls on the synthetic response (an [end] among them or not), a
    well-formed call is answered with status 500 and the error envelope
    whose message is Internal Server Error and whose detail is the error,
    ended once, whatever the application does afterwards in that turn and
    in the later ones; the headers set on the synthetic response are not
    sent. *)
Theorem first_turn_error_wins `{RT : Runtime} (env : gmap string string)
  (inputMode : InputMode) (raw : list (string * string)) (data : list string)
  (calls : list ResCall) (rest : list AppStep) (later : list (list AppStep))
  (sj : Z -> value -> list ResCall * option string)
  (trigger : AppStep) (e : string) :
  trigger = app_next (Some e) \/ trigger = app_throw e ->
  let served :=
    functionHandler env inputMode
      (ExpressApp {| app_turns :=
                       fun _ => (List.map app_call calls ++ trigger :: rest) :: later;
                     app_status_json := sj |})
      (call_request raw data) new_ServerResponse in
  resp_statusCode (served_resp served) = 500%Z
  /\ resp_body (served_resp served)
     = [Json.stringify (JObject [("message", JString "Internal Server Error");
                                 ("detail", JString e)])]
  /\ resp_ends (served_resp served) = 1
  /\ resp_headers (served_resp served)
     = {["content-type" := ("Content-Type", HString "application/json")]}.
Proof.
  intros Htrigger. cbv zeta. rewrite functionHandler_express. cbv zeta.
  cbn [app_turns].
  set (ctx := new_Context env _ _). set (req := createExpressRequest ctx _).
  destruct (first_turn_error
              {| app_turns :=
                   fun _ => (List.map app_call calls ++ trigger :: rest) :: later;
                 app_status_json := sj |}
              req calls rest later trigger e
              (new_Exchange (new_World ctx new_ServerResponse))
              Htrigger eq_refl eq_refl) as (x' & -> & Hfrozen).
  destruct Hfrozen as (_ & Hresp & _). cbn [snd]. rewrite Hresp.
  repeat split.
Qed.

Lemma first_turn_error_wins_witness :
  let served :=
    functionHandler (RT := node18) ∅ mode_buffer
      (ExpressApp {| app_turns :=
                       fun _ => (List.map app_call [call_setHeader "X-A" "1";
                                                    call_end (Some "{}")]
                                 ++ app_throw "Error: boom" :: [])
                                :: [[app_next None]];
                     app_status_json := fun _ _ => ([], None) |})
      (call_request [] []) new_ServerResponse in
  resp_statusCode (served_resp served) = 500%Z
  /\ resp_ends (served_resp served) = 1.
Proof.
  cbv zeta.
  destruct (first_turn_error_wins (RT := node18) ∅ mode_buffer [] []
              [call_setHeader "X-A" "1"; call_end (Some "{}")] [] [[app_next None]]
              (fun _ _ => ([], None)) (app_throw "Error: boom") "Error: boom"
              (or_intror eq_refl)) as (Hs & _ & He & _).
  split; assumption.
Defined.

(** ** Middleware Shim: the response that was ended *)

Lemma sent_headers_hit `{RT : Runtime} (ctx : Context) (key : string)
  (values : list string) :
  canonical_keys (responseHeaders ctx) ->
  responseHeaders ctx !! key = Some values ->
  reserved_name key = false ->
  sent_headers ctx new_ServerResponse !! Str.toLowerCase key
  = Some (key, HList values).
Proof.
  intros Hcanon Hkey Hres. unfold sent_headers.
  assert (Hk : canonHeader key = key) by (apply Hcanon; now rewrite Hkey).
  unfold reserved_name in Hres.
  apply orb_false_elim in Hres as [Hres Hrt].
  apply orb_false_elim in Hres as [Hcl Hver].
  apply String.eqb_neq in Hcl, Hver, Hrt.
  rewrite lookup_insert_ne by (apply (reserved_name_lower key "Fn-Fdk-Runtime"); auto).
  rewrite lookup_insert_ne by (apply (reserved_name_lower key "Fn-Fdk-Version"); auto).
  rewrite lookup_delete_ne by (apply (reserved_name_lower key "Content-Length"); auto).
  apply fold_add_header_hit.
  - intros [k' v'] Hin Hlow. apply elem_of_map_to_list in Hin.
    now apply (canonical_same_lower (responseHeaders ctx)).
  - left. now apply elem_of_map_to_list.
Qed.

Lemma sent_headers_miss `{RT : Runtime} (ctx : Context) (name : string) :
  canonical_keys (responseHeaders ctx) ->
  responseHeaders ctx !! canonHeader name = None ->
  reserved_name (canonHeader name) = false ->
  sent_headers ctx new_ServerResponse !! Str.toLowerCase name = None.
Proof.
  intros Hcanon Hnone Hres. unfold sent_headers.
  unfold reserved_name in Hres.
  apply orb_false_elim in Hres as [Hres Hrt].
  apply orb_false_elim in Hres as [Hcl Hver].
  apply String.eqb_neq in Hcl, Hver, Hrt.
  assert (Hother : forall reserved : string,
             canonHeader reserved = reserved -> canonHeader name <> reserved ->
             Str.toLowerCase reserved <> Str.toLowerCase name).
  { intros reserved Hr Hne Hlow. apply Hne.
    rewrite <- Hr, <- (canonHeader_toLowerCase name), <- Hlow.
    now rewrite canonHeader_toLowerCase. }
  rewrite lookup_insert_ne by (apply (Hother "Fn-Fdk-Runtime"); auto).
  rewrite lookup_insert_ne by (apply (Hother "Fn-Fdk-Version"); auto).
  rewrite lookup_delete_ne by (apply (Hother "Content-Length"); auto).
  rewrite fold_add_header_miss; [reflexivity|].
  intros [k' v'] Hin Hlow. apply elem_of_map_to_list in Hin. simpl in Hlow.
  assert (Hk' : canonHeader k' = k') by (apply Hcanon; now rewrite Hin).
  assert (canonHeader name = k').
  { rewrite <- Hk', <- (canonHeader_toLowerCase name), <- Hlow.
    now rewrite canonHeader_toLowerCase. }
  congruence.
Qed.

Lemma forward_header_headers (ctx : Context) (kv : string * string) :
  responseHeaders (forward_header ctx kv)
  = if String.eqb (Str.toLowerCase (fst kv)) "content-length"
    then responseHeaders ctx
    else <[Gateway.prefix +:+ canonHeader (fst kv) := [snd kv]]> (responseHeaders ctx).
Proof.
  unfold forward_header.
  destruct (String.eqb (Str.toLowerCase (fst kv)) "content-length");
    [reflexivity|].
  cbn [negb]. unfold Ctx.setResponseHeader. cbn [responseHeaders set_responseHeaders].
  change ("Fn-Http-H-" +:+ fst kv) with (Gateway.prefix +:+ fst kv).
  now rewrite canonHeader_prefix.
Qed.

Lemma fold_forward_canonical (hs : list (string * string)) (ctx : Context) :
  canonical_keys (responseHeaders ctx) ->
  canonical_keys (responseHeaders (fold_left forward_header hs ctx)).
Proof.
  revert ctx. induction hs as [|kv hs IH]; intros ctx Hctx; [exact Hctx|].
  cbn [fold_left]. apply IH. rewrite forward_header_headers.
  destruct (String.eqb _ _); [exact Hctx|].
  rewrite <- canonHeader_prefix. now apply canonical_keys_insert.
Qed.

Lemma fold_forward_other (hs : list (string * string)) (ctx : Context)
  (name : string) :
  String.prefix Gateway.prefix name = false ->
  responseHeaders (fold_left forward_header hs ctx) !! name
  = responseHeaders ctx !! name.
Proof.
  intros Hname. revert ctx. induction hs as [|kv hs IH]; intros ctx; [reflexivity|].
  cbn [fold_left]. rewrite IH, forward_header_headers.
  destruct (String.eqb _ _); [reflexivity|].
  apply lookup_insert_ne. intros Heq. rewrite <- Heq, prefix_append in Hname.
  discriminate.
Qed.

Lemma fold_forward_hit (hs : list (string * string)) (ctx : Context)
  (key value : string) :
  Str.toLowerCase key <> "content-length" ->
  (forall kv, In kv hs -> canonHeader (fst kv) = canonHeader key -> kv = (key, value)) ->
  In (key, value) hs
  \/ responseHeaders ctx !! (Gateway.prefix +:+ canonHeader key) = Some [value] ->
  responseHeaders (fold_left forward_header hs ctx)
    !! (Gateway.prefix +:+ canonHeader key) = Some [value].
Proof.
  intros Hlen. revert ctx. induction hs as [|kv hs IH]; intros ctx Hsame Hin.
  - destruct Hin as [[]|Hctx]. exact Hctx.
  - cbn [fold_left]. apply IH; [intros kv' Hkv'; apply Hsame; now right|].
    destruct (String.eqb_spec (canonHeader (fst kv)) (canonHeader key)) as [Heq|Hne].
    + right. rewrite (Hsame kv (or_introl eq_refl) Heq).
      rewrite forward_header_headers. cbn [fst snd].
      destruct (String.eqb_spec (Str.toLowerCase key) "content-length");
        [contradiction|].
      apply lookup_insert_eq.
    + destruct Hin as [[Hhead|Htail]|Hctx].
      * subst kv. now destruct Hne.
      * now left.
      * right. rewrite forward_header_headers.
        destruct (String.eqb _ _); [exact Hctx|].
        rewrite lookup_insert_ne; [exact Hctx|].
        intros Heq. apply append_inj in Heq. contradiction.
Qed.

Lemma fold_after_call_res (calls : list ResCall) (x : Exchange) :
  x_res (fold_left after_call calls x) = fold_left res_after calls (x_res x).
Proof.
  revert x. induction calls as [|c calls IH]; intros x; [reflexivity|].
  cbn [fold_left]. now rewrite IH.
Qed.

(** The turn of the call holds only calls on [res], an [end] among them:
    the reaction on the promise hands the settled response to
    [sendExpressResponse], once. *)
Lemma first_turn_ended `{RT : Runtime} (app : Application) (req : ExpressRequest)
  (calls : list ResCall) (later : list (list AppStep)) (status : Z) (text : string)
  (x : Exchange) :
  responseHandled x = false -> x_reacted x = false ->
  x_settled (fold_left after_call calls x) = Some (status, text) ->
  let result :=
    {| er_status := Some status;
       er_headers := Some (_headers (fold_left res_after calls (x_res x)));
       er_body := RBuffer text |} in
  exists x' : Exchange,
    run_exchange app req (List.map app_call calls :: later) x = (Normal tt, x')
    /\ w_resp (x_world x') = w_resp (snd (sendExpressResponse result (x_world x)))
    /\ w_ctx (x_world x') = w_ctx (snd (sendExpressResponse result (x_world x))).
Proof.
  intros Hfresh Hreact Hsettled result.
  pose proof (fold_after_call_same calls x) as (Hreacted1 & Hhandled1 & Hworld1).
  pose proof (fold_after_call_res calls x) as Hres1.
  set (x1 := fold_left after_call calls x) in *.
  unfold run_exchange. unfold bind at 1. unfold uncaught at 1, try_catch at 1.
  unfold run_turn. rewrite for_each_calls. fold x1.
  unfold bind at 1. unfold run_reactions at 1. unfold bind at 1. unfold get at 1.
  rewrite Hsettled. rewrite Hreacted1, Hreact.
  unfold bind at 1. unfold modify at 1. unfold bind at 1.
  unfold uncaught at 1, try_catch at 1.
  unfold completeResponse at 1. unfold bind at 1. unfold get at 1.
  cbn [responseHandled x_res]. rewrite Hhandled1, Hfresh.
  unfold bind at 1. unfold set_responseHandled at 1, modify at 1.
  unfold on_world at 1, zoom at 1. cbn [x_world x_res].
  rewrite Hres1, Hworld1. fold result.
  destruct (sendExpressResponse result (x_world x)) as [[[]|e] w'] eqn:Hsend.
  - unfold ret at 1.
    match goal with
    | |- context [run_later app req later ?y] =>
        destruct (run_later_frozen app req later y eq_refl) as (x5 & -> & Hfrozen)
    end.
    exists x5. split; [reflexivity|].
    destruct Hfrozen as (_ & Hresp & Hctx & _). cbn [snd]. split; assumption.
  - rewrite handleError_later by reflexivity. unfold ret at 1.
    match goal with
    | |- context [run_later app req later ?y] =>
        destruct (run_later_frozen app req later y eq_refl) as (x5 & -> & Hfrozen)
    end.
    exists x5. split; [reflexivity|].
    destruct Hfrozen as (_ & Hresp & Hctx & _). cbn [snd]. split; assumption.
Qed.

Lemma fold_res_after_lower_keys (calls : list ResCall) (res : ExpressRes) :
  lower_keys res -> lower_keys (fold_left res_after calls res).
Proof.
  revert res. induction calls as [|c calls IH]; intros res Hres; [exact Hres|].
  cbn [fold_left]. apply IH. now apply res_after_lower_keys.
Qed.

Lemma after_call_end_settled (chunk : option string) (x : Exchange) :
  x_settled x = None ->
  x_settled (after_call x (call_end chunk))
  = Some (_status (res_after (x_res x) (call_end chunk)),
          String.concat "" (_body (res_after (x_res x) (call_end chunk)))).
Proof. intros Hx. unfold after_call. cbn [x_settled is_end]. now rewrite Hx. Qed.

Lemma settled_at_end (before later : list ResCall) (chunk : option string)
  (x : Exchange) :
  x_settled x = None ->
  forallb (fun c => negb (is_end c)) before = true ->
  x_settled (fold_left after_call (before ++ call_end chunk :: later) x)
  = Some (_status (fold_left res_after (before ++ [call_end chunk]) (x_res x)),
          String.concat ""
            (_body (fold_left res_after (before ++ [call_end chunk]) (x_res x)))).
Proof.
  intros Hpending Hbefore. rewrite !fold_left_app. cbn [fold_left].
  apply fold_after_call_settled.
  rewrite after_call_end_settled
    by exact (fold_after_call_pending before x Hpending Hbefore).
  now rewrite fold_after_call_res.
Qed.

(** X19: an application that, in the turn in which it is called, only
    calls the synthetic response and ends it with a body that is the
    serialization of a safe value (safe integers, 7-bit strings, distinct
    keys none of which is written as a natural number), with or without
    white space around it, is answered as follows, whatever it does in later
    turns. The transport status is 200 and the body is the serialization of
    the value, or empty when the value is null, ended once. The status of
    the synthetic response at the first [end] travels in the header
    Fn-Http-Status, which is absent when that status is 0. A header of the
    synthetic response other than content-length travels under the prefix
    Fn-Http-H- and its canonical name, provided no other header of the
    response has the same canonical name; this includes a header set after
    the [end] in the same turn, since the settled response shares the header
    object. The transport carries no Content-Type header of its own. *)
Theorem express_response_sent `{RT : Runtime} (env : gmap string string)
  (raw : list (string * string)) (data : list string)
  (before later_calls : list ResCall) (chunk : option string)
  (later : list (list AppStep))
  (sj : Z -> value -> list ResCall * option string)
  (v : value) (pad pad' : string) :
  let calls := before ++ call_end chunk :: later_calls in
  let at_end := fold_left res_after (before ++ [call_end chunk]) createExpressResponse in
  let final := fold_left res_after calls createExpressResponse in
  let served :=
    functionHandler env mode_buffer
      (ExpressApp {| app_turns := fun _ => List.map app_call calls :: later;
                     app_status_json := sj |})
      (call_request raw data) new_ServerResponse in
  forallb (fun c => negb (is_end c)) before = true ->
  json_safe v = true -> blank pad = true -> blank pad' = true ->
  String.concat "" (_body at_end) = pad +:+ Json.stringify v +:+ pad' ->
  resp_statusCode (served_resp served) = 200%Z
  /\ resp_body (served_resp served)
     = match v with JNull => [] | _ => [Json.stringify v] end
  /\ resp_ends (served_resp served) = 1
  /\ Resp.header "Fn-Http-Status" (served_resp served)
     = (if (_status at_end =? 0)%Z then None
        else Some (HList [Json.Z_toString (_status at_end)]))
  /\ Resp.header "Content-Type" (served_resp served) = None
  /\ (forall key value : string,
        In (key, value) (_headers final) ->
        (forall kv, In kv (_headers final) ->
                    canonHeader (fst kv) = canonHeader key -> kv = (key, value)) ->
        key <> "content-length" ->
        Resp.header (Gateway.prefix +:+ canonHeader key) (served_resp served)
        = Some (HList [value])).
Proof.
  intros calls at_end final served Hbefore Hsafe Hpad Hpad' Htext.
  assert (Hparse : Json.parse (String.concat "" (_body at_end)) = Some v)
    by (rewrite Htext; now apply parse_stringify).
  unfold served. rewrite functionHandler_express. cbv zeta. cbn [app_turns].
  set (ctx := new_Context env _ _). set (req := createExpressRequest ctx _).
  set (app := {| app_turns := _; app_status_json := sj |}).
  set (x0 := new_Exchange (new_World ctx new_ServerResponse)).
  pose proof (settled_at_end before later_calls chunk x0 eq_refl Hbefore) as Hsettled.
  change (x_res x0) with createExpressResponse in Hsettled.
  fold at_end in Hsettled. fold calls in Hsettled.
  destruct (first_turn_ended app req calls later _ _ x0 eq_refl eq_refl Hsettled)
    as (x' & -> & Hresp & _).
  cbn [snd]. rewrite Hresp. clear Hresp x'.
  change (x_res x0) with createExpressResponse. fold final.
  rewrite (sendExpressResponse_buffer_parsed _ _ _ v _ Hparse).
  set (hs := _headers final).
  set (ctx1 := fold_left forward_header hs
                 (with_status (Some (_status at_end)) (w_ctx (x_world x0)))).
  set (w1 := set_ctx (set_responseContentType (Some "application/json") ctx1)
               (x_world x0)).
  assert (Hpay : payload (marks_json (w_ctx w1) (RValue v)) (RValue v)
                 = Normal (match v with JNull => [] | _ => [Json.stringify v] end)).
  { unfold w1. cbn [w_ctx set_ctx]. destruct v; reflexivity. }
  destruct (sendResult_once (RValue v) w1 _ eq_refl eq_refl Hpay)
    as (_ & Hends & Hbody & Hcode & _).
  split; [exact Hcode|]. split; [exact Hbody|]. split; [exact Hends|].
  unfold Resp.header. rewrite sendResult_headers by reflexivity.
  change (w_resp w1) with new_ServerResponse.
  change (w_ctx w1) with (set_responseContentType (Some "application/json") ctx1).
  set (ctx2 := set_responseContentType (Some "application/json") ctx1).
  assert (Hctx0 : responseHeaders (with_status (Some (_status at_end))
                                     (w_ctx (x_world x0)))
                  = if (_status at_end =? 0)%Z then ∅
                    else {["Fn-Http-Status" := [Json.Z_toString (_status at_end)]]}).
  { unfold with_status. now destruct (_status at_end =? 0)%Z. }
  assert (Hcanon : canonical_keys (responseHeaders ctx2)).
  { unfold ctx2, ctx1. cbn [responseHeaders set_responseContentType].
    apply fold_forward_canonical. rewrite Hctx0.
    intros k [values Hk]. destruct (_status at_end =? 0)%Z.
    - now rewrite lookup_empty in Hk.
    - apply lookup_singleton_Some in Hk as [<- _]. reflexivity. }
  split; [|split].
  - change "fn-http-status" with (Str.toLowerCase "Fn-Http-Status").
    destruct (_status at_end =? 0)%Z eqn:Hzero.
    + rewrite (sent_headers_miss ctx2 "Fn-Http-Status");
        [reflexivity|exact Hcanon| |reflexivity].
      unfold ctx2, ctx1. cbn [responseHeaders set_responseContentType].
      change (canonHeader "Fn-Http-Status") with "Fn-Http-Status".
      rewrite fold_forward_other by reflexivity. rewrite Hctx0.
      apply lookup_empty.
    + rewrite (sent_headers_hit ctx2 "Fn-Http-Status"
                 [Json.Z_toString (_status at_end)]);
        [reflexivity|exact Hcanon| |reflexivity].
      unfold ctx2, ctx1. cbn [responseHeaders set_responseContentType].
      rewrite fold_forward_other by reflexivity. rewrite Hctx0.
      apply lookup_singleton_eq.
  - rewrite (sent_headers_miss ctx2 "Content-Type"); [reflexivity|exact Hcanon| |reflexivity].
    unfold ctx2, ctx1. cbn [responseHeaders set_responseContentType].
    change (canonHeader "Content-Type") with "Content-Type".
    rewrite fold_forward_other by reflexivity. rewrite Hctx0.
    destruct (_status at_end =? 0)%Z; [apply lookup_empty|now apply lookup_singleton_ne].
  - intros key value Hin Hsame Hlen.
    assert (Hlower : Str.toLowerCase key = key).
    { assert (Hkeys : lower_keys final)
        by (apply fold_res_after_lower_keys; constructor).
      unfold lower_keys in Hkeys. rewrite Forall_forall in Hkeys.
      apply (Hkeys (key, value)). now apply list_elem_of_In. }
    assert (Hhit : responseHeaders ctx2 !! (Gateway.prefix +:+ canonHeader key)
                   = Some [value]).
    { unfold ctx2, ctx1. cbn [responseHeaders set_responseContentType].
      apply fold_forward_hit; [now rewrite Hlower|exact Hsame|now left]. }
    rewrite (sent_headers_hit ctx2 _ [value] Hcanon Hhit); reflexivity.
Qed.

Lemma express_response_sent_witness :
  let served :=
    functionHandler (RT := node18) ∅ mode_buffer
      (ExpressApp
         {| app_turns :=
              fun _ => [List.map app_call
                          ([call_writeHead 201 [("Content-Type", "text/plain")];
                            call_write " [1,"]
                           ++ call_end (Some "2] ")
                           :: [call_setHeader "X_Late" "yes"])];
            app_status_json := fun _ _ => ([], None) |})
      (call_request [] []) new_ServerResponse in
  resp_statusCode (served_resp served) = 200%Z
  /\ resp_body (served_resp served) = ["[1,2]"]
  /\ Resp.header "Fn-Http-Status" (served_resp served) = Some (HList ["201"])
  /\ Resp.header "Fn-Http-H-X-Late" (served_resp served) = Some (HList ["yes"]).
Proof.
  cbv zeta.
  destruct (express_response_sent (RT := node18) ∅ [] []
              [call_writeHead 201 [("Content-Type", "text/plain")]; call_write " [1,"]
              [call_setHeader "X_Late" "yes"] (Some "2] ") []
              (fun _ _ => ([], None)) (JArray [JNumber 1; JNumber 2]) " " " "
              eq_refl eq_refl eq_refl eq_refl eq_refl)
    as (Hcode & Hbody & _ & Hstatus & _ & Hheader).
  split; [exact Hcode|]. split; [exact Hbody|]. split; [exact Hstatus|].
  apply (Hheader "x_late" "yes").
  - right. left. reflexivity.
  - intros kv [<-|[<-|[]]]; [discriminate|reflexivity].
  - discriminate.
Defined.

(** ** Middleware Shim: the synthetic request *)



